(** * json_map / maprenderer: a shallow embedding of the tiled-map renderer

    The development follows [json_map.py] (atlas slicing, tile layers,
    object groups, the map and its viewport) and the gid table of
    [maprenderer.py].

    Modelling conventions.
    - Python integers are unbounded: they are [Z].  The game only ever
      passes integers to the viewport ([set_focus] casts with [int], the
      window sizes are integers), so [int(v)] is the identity here.
    - [a // b] is floor division, which is [Z.div]; a zero divisor raises.
    - A Python exception is a constructor of [exn]; a function that can
      raise returns a [result].
    - Dictionaries are [gmap]s, except where Python's insertion order is
      observable (the tilesets), where an association list is used.
    - The draw batch is the log of the sprites created in it and deleted
      from it. *)

From Stdlib Require Import ZArith List Lia Bool Ascii String Sorted.
From stdpp Require Import base option gmap sets list strings.

Local Open Scope Z_scope.

(** ** Exceptions and results *)

Inductive exn :=
| TypeError
| KeyError
| IndexError
| AttributeError
| ValueError (msg : string)
| AssertionError
| ZeroDivisionError
| ResourceNotFound.

Inductive result (A : Type) :=
| Ok (a : A)
| Raise (e : exn).

Arguments Ok {A} a.
Arguments Raise {A} e.

Definition rbind {A B} (r : result A) (k : A -> result B) : result B :=
  match r with
  | Ok a => k a
  | Raise e => Raise e
  end.

Notation "'do' x <- r ; k" := (rbind r (fun x => k))
  (at level 10, x name, r at level 100, k at level 200).

Definition is_ok {A} (r : result A) : bool :=
  match r with Ok _ => true | Raise _ => false end.

(** [a // b] *)
Definition floordiv (a b : Z) : result Z :=
  if b =? 0 then Raise ZeroDivisionError else Ok (a / b).

(** [int(v)] on an integer *)
Definition py_int (v : Z) : Z := v.

(** [l[i]] on a Python list: a negative index counts from the end. *)
Definition py_list_get {A} (l : list A) (i : Z) : result A :=
  let n := Z.of_nat (length l) in
  let j := if i <? 0 then i + n else i in
  if (j <? 0) || (n <=? j) then Raise IndexError
  else match l !! Z.to_nat j with
       | Some a => Ok a
       | None => Raise IndexError
       end.

(** ** Atlas slicing *)

Definition calculate_columns (image_width tile_width margin spacing : Z) : result Z :=
  let image_width := image_width - margin * 2 in
  if image_width <? tile_width then Ok 0
  else if image_width =? tile_width then Ok 1
  else
    do q <- floordiv (image_width - tile_width) (tile_width + spacing);
    let columns := q + 1 in
    if columns * tile_width + spacing * (columns - 1) =? image_width
    then Ok columns
    else Raise AssertionError.


(** ** The input map description (the tree produced by [json.load]) *)

Record TilesetData := {
  ts_name : string;
  ts_image : string;
  ts_imagewidth : Z;
  ts_imageheight : Z;
  ts_tilewidth : Z;
  ts_tileheight : Z;
  ts_margin : Z;
  ts_spacing : Z;
  ts_firstgid : Z;
  ts_tileoffset : option (Z * Z)
}.

(** An object of an object group; [name], [type] and [gid] are optional
    keys of the dictionary. *)
Record Obj := {
  obj_x : Z;
  obj_y : Z;
  obj_visible : bool;
  obj_name : option string;
  obj_type : option string;
  obj_gid : option Z
}.

(** A layer dictionary; a tile layer carries ["data"], an object group
    carries ["objects"]. *)
Record LayerData := {
  layer_name : string;
  layer_type : string;
  layer_visible : bool;
  layer_tiles : option (list Z);
  layer_objects : option (list Obj)
}.

Record MapData := {
  map_width : Z;
  map_height : Z;
  map_tilewidth : Z;
  map_tileheight : Z;
  map_tilesets : list TilesetData;
  map_layers : list LayerData
}.

(** [d[key]] for a key that may be missing *)
Definition getkey {A} (o : option A) : result A :=
  match o with
  | Some a => Ok a
  | None => Raise KeyError
  end.

(** ** Textures, sprites and the draw batch *)

(** The atlas images known to [pyglet.resource], with their pixel sizes. *)
Definition Resources := string -> option (Z * Z).

(** An item of a texture grid: the cell [(row, col)] of the grid cut out
    of the named atlas image. *)
Record Texture := {
  tex_image : string;
  tex_row : Z;
  tex_col : Z
}.

Record TextureGrid := {
  grid_image : string;
  grid_rows : Z;
  grid_columns : Z
}.

(** [grid[row, column]]: pyglet asserts that the cell lies in the grid. *)
Definition TextureGrid_getitem (g : TextureGrid) (index : Z * Z) : result Texture :=
  let '(row, column) := index in
  if (0 <=? row) && (0 <=? column) && (row <? grid_rows g) && (column <? grid_columns g)
  then Ok {| tex_image := grid_image g; tex_row := row; tex_col := column |}
  else Raise AssertionError.

Definition get_texture_sequence (res : Resources) (filename : string)
    (tilewidth tileheight margin spacing : Z) : result TextureGrid :=
  match res filename with
  | None => Raise ResourceNotFound
  | Some (image_width, image_height) =>
      let region_width := image_width - margin * 2 in
      let region_height := image_height - margin * 2 in
      do rows <- calculate_columns region_height tileheight 0 spacing;
      do cols <- calculate_columns region_width tilewidth 0 spacing;
      Ok {| grid_image := filename; grid_rows := rows; grid_columns := cols |}
  end.

Record Sprite := {
  sprite_id : nat;
  sprite_texture : Texture;
  sprite_x : Z;
  sprite_y : Z;
  sprite_group : Z
}.

Inductive BatchOp :=
| SpriteNew (s : Sprite)
| SpriteDelete (s : Sprite).

(** The batch: every creation and deletion so far, oldest first. *)
Definition Batch := list BatchOp.

(** [Sprite(texture, x=.., y=.., batch=.., group=..)]: the new handle is
    numbered by the position of its creation in the log. *)
Definition Sprite_new (b : Batch) (texture : Texture) (x y g : Z) : Sprite * Batch :=
  let s := {| sprite_id := length b; sprite_texture := texture;
              sprite_x := x; sprite_y := y; sprite_group := g |} in
  (s, b ++ [SpriteNew s]).

Definition Sprite_delete (b : Batch) (s : Sprite) : Batch :=
  b ++ [SpriteDelete s].

(** A sprite pool: coordinate to sprite, or to [None]. *)
Abbreviation pool := (gmap (Z * Z) (option Sprite)).

(** ** Tilesets *)

Fixpoint basename_from (acc s : string) : string :=
  match s with
  | EmptyString => acc
  | String c s' =>
      if Ascii.eqb c "/"%char then basename_from EmptyString s'
      else basename_from (String.append acc (String c EmptyString)) s'
  end.

(** [os.path.basename] *)
Definition basename (s : string) : string := basename_from EmptyString s.

Record Tileset := {
  tileset_data : TilesetData;
  tileset_columns : Z;
  tileset_rows : Z;
  tileset_image : string;
  tileset_texture : TextureGrid
}.

Definition Tileset_init (res : Resources) (data : TilesetData) : result Tileset :=
  do columns <- calculate_columns (ts_imagewidth data) (ts_tilewidth data)
                                  (ts_margin data) (ts_spacing data);
  do rows <- calculate_columns (ts_imageheight data) (ts_tileheight data)
                               (ts_margin data) (ts_spacing data);
  let image := basename (ts_image data) in
  do texture <- get_texture_sequence res image (ts_tilewidth data) (ts_tileheight data)
                                     (ts_margin data) (ts_spacing data);
  Ok {| tileset_data := data; tileset_columns := columns; tileset_rows := rows;
        tileset_image := image; tileset_texture := texture |}.

Definition Tileset_getitem (t : Tileset) (index : Z * Z) : result Texture :=
  TextureGrid_getitem (tileset_texture t) index.

(** ** Layers *)

(** [BaseLayer]: [sprites] and [group] exist only on a visible layer. *)
Record BaseLayer := {
  layer_data : LayerData;
  layer_sprites : option pool;
  layer_group : option Z
}.

(** [BaseLayer.__init__]; [groups] is the class counter [BaseLayer.groups],
    returned updated. *)
Definition BaseLayer_init (data : LayerData) (groups : Z) : BaseLayer * Z :=
  if layer_visible data
  then ({| layer_data := data; layer_sprites := Some ∅; layer_group := Some groups |},
        groups + 1)
  else ({| layer_data := data; layer_sprites := None; layer_group := None |}, groups).

Definition TileLayer := BaseLayer.

Record ObjectGroup := {
  og_base : BaseLayer;
  og_h : Z;
  og_objects : list Obj;
  og_index : gmap string (list Obj);
  og_index_type : gmap string (list Obj);
  og_xy_index : gmap (Z * Z) (list Obj)
}.

Inductive Layer :=
| LTile (l : TileLayer)
| LObject (g : ObjectGroup).

Definition Layer_data (l : Layer) : LayerData :=
  match l with
  | LTile t => layer_data t
  | LObject g => layer_data (og_base g)
  end.

(** Monadic left fold: a [for] loop whose body may raise. *)
Fixpoint foldM {A S} (f : S -> A -> result S) (l : list A) (s : S) : result S :=
  match l with
  | [] => Ok s
  | a :: l' => do s' <- f s a; foldM f l' s'
  end.

(** [range(n)] *)
Definition range (n : Z) : list Z := map Z.of_nat (seq 0 (Z.to_nat n)).

(** [obj.get("name", "?")] and [obj.get("type", "?")] *)
Definition Obj_name (o : Obj) : string := default "?"%string (obj_name o).
Definition Obj_type (o : Obj) : string := default "?"%string (obj_type o).

(** [if key not in index: index[key] = []] followed by
    [index[key].append(obj)] *)
Definition index_append `{Countable K} (key : K) (o : Obj) (index : gmap K (list Obj))
    : gmap K (list Obj) :=
  <[key := default [] (index !! key) ++ [o]]> index.

(** Stable sort by an integer key, as [list.sort(key=...)]. *)
Fixpoint insert_by {A} (key : A -> Z) (a : A) (l : list A) : list A :=
  match l with
  | [] => [a]
  | b :: l' => if key a <? key b then a :: l else b :: insert_by key a l'
  end.

Definition sort_by {A} (key : A -> Z) (l : list A) : list A :=
  fold_left (fun acc a => insert_by key a acc) l [].

(** The body of the constructor's loop over [data["objects"]]. *)
Definition ObjectGroup_index_object (md : MapData) (g : ObjectGroup) (obj : Obj)
    : result ObjectGroup :=
  let name := Obj_name obj in
  let otype := Obj_type obj in
  do x <- floordiv (py_int (obj_x obj)) (map_tilewidth md);
  do q <- floordiv (py_int (obj_y obj)) (map_tileheight md);
  let y := q - 1 in
  Ok {| og_base := og_base g; og_h := og_h g;
        og_objects := og_objects g ++ [obj];
        og_index := index_append name obj (og_index g);
        og_index_type := index_append otype obj (og_index_type g);
        og_xy_index := index_append (x, y) obj (og_xy_index g) |}.

Definition ObjectGroup_init (md : MapData) (data : LayerData) (groups : Z)
    : result (ObjectGroup * Z) :=
  let '(base, groups') := BaseLayer_init data groups in
  do objects <- getkey (layer_objects data);
  do g <- foldM (ObjectGroup_index_object md) objects
                {| og_base := base; og_h := 0; og_objects := [];
                   og_index := ∅; og_index_type := ∅; og_xy_index := ∅ |};
  Ok ({| og_base := og_base g; og_h := og_h g;
         og_objects := sort_by (fun obj => obj_x obj + obj_y obj * map_width md)
                               (og_objects g);
         og_index := og_index g; og_index_type := og_index_type g;
         og_xy_index := og_xy_index g |}, groups').

(** The key of [ObjectGroup.__contains__] / [__getitem__]: a tuple or a name. *)
Inductive ObjKey :=
| ByCoordinate (x y : Z)
| ByName (name : string).

Inductive ObjFound :=
| FoundOne (o : Obj)
| FoundAll (l : list Obj).

Definition ObjectGroup_contains (g : ObjectGroup) (k : ObjKey) : bool :=
  match k with
  | ByCoordinate x y => bool_decide (is_Some (og_xy_index g !! (py_int x, py_int y)))
  | ByName name => bool_decide (is_Some (og_index g !! name))
  end.

Definition ObjectGroup_getitem (g : ObjectGroup) (k : ObjKey) : result ObjFound :=
  match k with
  | ByCoordinate x y =>
      do l <- getkey (og_xy_index g !! (py_int x, py_int y));
      do o <- py_list_get l 0;
      Ok (FoundOne o)
  | ByName name =>
      do l <- getkey (og_index g !! name);
      Ok (FoundAll l)
  end.

Definition get_by_type (g : ObjectGroup) (otype : string) : result (list Obj) :=
  getkey (og_index_type g !! otype).


(** ** The map *)

(** Insertion-ordered dictionary with string keys: [d[k] = v]. *)
Fixpoint odict_set {V} (k : string) (v : V) (d : list (string * V)) : list (string * V) :=
  match d with
  | [] => [(k, v)]
  | (k', v') :: d' =>
      if String.eqb k k' then (k, v) :: d' else (k', v') :: odict_set k v d'
  end.

Definition odict_values {V} (d : list (string * V)) : list V := map snd d.

(** A layer object is shared between [layers] and the two name
    dictionaries: the dictionaries hold the position of the layer in
    [layers]. *)
Record Map := {
  mdata : MapData;
  tilesets : list (string * Tileset);
  layers : list Layer;
  tilelayers : gmap string nat;
  objectgroups : gmap string nat;
  batch : Batch;
  vp_x : Z;
  vp_y : Z;
  vp_w : Z;
  vp_h : Z;
  focus_x : option Z;
  focus_y : option Z;
  p_width : Z;
  p_height : Z;
  tileoffset_index : gmap Z (Z * Z);
  texture_index : gmap Z Texture
}.

(** [name in (self.tilelayers, self.objectgroups)] is membership in the
    pair of the two dictionaries, that is [name == d] for one of them: a
    string never equals a dictionary. *)
Definition str_eq_dict (name : string) (d : gmap string nat) : bool := false.

Definition in_pair (name : string) (d1 d2 : gmap string nat) : bool :=
  str_eq_dict name d1 || str_eq_dict name d2.

Definition Map_init_tilesets (res : Resources) (data : MapData)
    : result (list (string * Tileset)) :=
  foldM (fun d tileset =>
           do t <- Tileset_init res tileset;
           Ok (odict_set (ts_name tileset) t d))
        (map_tilesets data) [].

Definition Map_init_layer (data : MapData)
    (st : list Layer * gmap string nat * gmap string nat * Z) (layer : LayerData)
    : result (list Layer * gmap string nat * gmap string nat * Z) :=
  let '(ls, tls, ogs, groups) := st in
  if in_pair (layer_name layer) tls ogs
  then Raise (ValueError (String.append "Duplicated layer name " (layer_name layer)))
  else if String.eqb (layer_type layer) "tilelayer" then
    let '(l, groups') := BaseLayer_init layer groups in
    Ok (ls ++ [LTile l], <[layer_name layer := length ls]> tls, ogs, groups')
  else if String.eqb (layer_type layer) "objectgroup" then
    do r <- ObjectGroup_init data layer groups;
    let '(g, groups') := r in
    Ok (ls ++ [LObject g], tls, <[layer_name layer := length ls]> ogs, groups')
  else Raise (ValueError (String.append "unsupported layer type "
                            (String.append (layer_type layer) ", skipping"))).

(** The body of the innermost loop that fills the two gid tables. *)
Definition Map_index_cell (tileset : Tileset) (y : Z)
    (st : gmap Z Texture * gmap Z (Z * Z)) (x : Z)
    : result (gmap Z Texture * gmap Z (Z * Z)) :=
  let '(texture_index, tileoffset_index) := st in
  let gid := x + y * tileset_columns tileset + ts_firstgid (tileset_data tileset) in
  do texture <- Tileset_getitem tileset (tileset_rows tileset - 1 - y, x);
  let texture_index := <[gid := texture]> texture_index in
  match ts_tileoffset (tileset_data tileset) with
  | Some offset => Ok (texture_index, <[gid := offset]> tileoffset_index)
  | None => Ok (texture_index, tileoffset_index)
  end.

Definition Map_index_tileset (st : gmap Z Texture * gmap Z (Z * Z)) (tileset : Tileset)
    : result (gmap Z Texture * gmap Z (Z * Z)) :=
  foldM (fun st y => foldM (Map_index_cell tileset y) (range (tileset_columns tileset)) st)
        (range (tileset_rows tileset)) st.

Definition Map_init (res : Resources) (groups : Z) (data : MapData) : result (Map * Z) :=
  do tss <- Map_init_tilesets res data;
  do st <- foldM (Map_init_layer data) (map_layers data) ([], ∅, ∅, groups);
  let '(ls, tls, ogs, groups') := st in
  do idx <- foldM Map_index_tileset (odict_values tss) (∅, ∅);
  let '(texture_index, tileoffset_index) := idx in
  Ok ({| mdata := data; tilesets := tss; layers := ls;
         tilelayers := tls; objectgroups := ogs; batch := [];
         vp_x := 0; vp_y := 0; vp_w := 0; vp_h := 0;
         focus_x := None; focus_y := None;
         p_width := map_width data * map_tilewidth data;
         p_height := map_height data * map_tileheight data;
         tileoffset_index := tileoffset_index;
         texture_index := texture_index |}, groups').

Definition get_texture (m : Map) (gid : Z) : result Texture :=
  getkey (texture_index m !! gid).

Definition get_tileoffset (m : Map) (gid : Z) : Z * Z :=
  default (0, 0) (tileoffset_index m !! gid).

Definition world_to_screen (m : Map) (x y : Z) : Z * Z :=
  (x - vp_x m, vp_h m - (y - vp_y m)).

(** ** Tile layers *)

(** [(x, y) in layer]: the index is a pair by its type, so the
    [TypeError] branch is not reachable here. *)
Definition TileLayer_contains (md : MapData) (l : TileLayer) (index : Z * Z) : result bool :=
  let '(x, y) := index in
  do d <- getkey (layer_tiles (layer_data l));
  Ok (bool_decide (py_int (x + y * map_width md) ∈ d)).

(** [layer[x, y]] *)
Definition TileLayer_getitem (md : MapData) (l : TileLayer) (index : Z * Z) : result Z :=
  let '(x, y) := index in
  do d <- getkey (layer_tiles (layer_data l));
  py_list_get d (py_int (x + y * map_width md)).


(** ** Loops with effects

    A statement run on a state [St] either never returns ([None]) or
    returns the state it leaves behind together with [Ok tt] or the
    exception it raised. *)
Definition outcome (St : Type) := option (St * result unit).

(** [for a in l: body] *)
Fixpoint for_each {A St} (body : A -> St -> outcome St) (l : list A) (st : St) : outcome St :=
  match l with
  | [] => Some (st, Ok tt)
  | a :: l' =>
      match body a st with
      | Some (st', Ok _) => for_each body l' st'
      | r => r
      end
  end.

(** [for v in yrange(f, t, s): body], where
    [yrange] is [while f < t: yield f; f += s]. *)
Fixpoint yrange_loop {St} (fuel : nat) (f t s : Z) (body : Z -> St -> outcome St) (st : St)
    : outcome St :=
  match fuel with
  | O => None
  | S fuel' =>
      if f <? t then
        match body f st with
        | Some (st', Ok _) => yrange_loop fuel' (f + s) t s body st'
        | r => r
        end
      else Some (st, Ok tt)
  end.

(** With a step of at least one the loop ends within [t - f] rounds; with
    a smaller step and [f < t] it only ends by an exception of its body,
    and [None] stands for the loop that goes on for ever. *)
Definition for_yrange {St} (f t s : Z) (body : Z -> St -> outcome St) (st : St) : outcome St :=
  yrange_loop (S (Z.to_nat (t - f))) f t s body st.

(** ** [TileLayer.set_viewport] *)

Definition with_sprites (l : BaseLayer) (sprites : pool) : BaseLayer :=
  {| layer_data := layer_data l; layer_sprites := Some sprites;
     layer_group := layer_group l |}.

(** The body of the inner loop, from [coordinate = (px, py)] on. *)
Definition TileLayer_visit (m : Map) (h px py : Z)
    (st : gset (Z * Z) * TileLayer * Batch)
    : gset (Z * Z) * TileLayer * Batch * result unit :=
  let '(in_use, l, b) := st in
  let tw := map_tilewidth (mdata m) in
  let th := map_tileheight (mdata m) in
  let coordinate := (px, py) in
  let in_use := in_use ∪ {[coordinate]} in
  match layer_sprites l with
  | None => (in_use, l, b, Raise AttributeError)
  | Some sprites =>
      if bool_decide (is_Some (sprites !! coordinate)) then (in_use, l, b, Ok tt)
      else
        match (do gid <- TileLayer_getitem (mdata m) l coordinate; get_texture m gid) with
        | Ok texture =>
            match layer_group l with
            | None => (in_use, l, b, Raise AttributeError)
            | Some g =>
                let '(sprite, b') := Sprite_new b texture (px * tw) (h - py * th - th) g in
                (in_use, with_sprites l (<[coordinate := Some sprite]> sprites), b', Ok tt)
            end
        | Raise KeyError | Raise IndexError =>
            (in_use, with_sprites l (<[coordinate := None]> sprites), b, Ok tt)
        | Raise e => (in_use, l, b, Raise e)
        end
  end.

(** [o = self.sprites.pop(key)] then [if o is not None: o.delete()] *)
Definition TileLayer_evict (key : Z * Z) (st : TileLayer * Batch) : outcome (TileLayer * Batch) :=
  let '(l, b) := st in
  match layer_sprites l with
  | None => Some (st, Raise AttributeError)
  | Some sprites =>
      match sprites !! key with
      | None => Some (st, Raise KeyError)
      | Some o =>
          let l' := with_sprites l (delete key sprites) in
          match o with
          | Some sprite => Some (l', Sprite_delete b sprite, Ok tt)
          | None => Some (l', b, Ok tt)
          end
      end
  end.

(** [set(self.sprites) - in_use], in the order in which the loop visits
    it (Python leaves the order of a set unspecified). *)
Definition unused_keys (sprites : pool) (in_use : gset (Z * Z)) : list (Z * Z) :=
  elements (dom sprites ∖ in_use).

Definition TileLayer_set_viewport (m : Map) (x y w h : Z) (st : TileLayer * Batch)
    : outcome (TileLayer * Batch) :=
  let '(l, b) := st in
  let tw := map_tilewidth (mdata m) in
  let th := map_tileheight (mdata m) in
  match
    for_yrange y (y + h + th) th (fun j st =>
      match floordiv j th with
      | Raise e => Some (st, Raise e)
      | Ok py =>
          for_yrange x (x + w + tw) tw (fun i st =>
            match floordiv i tw with
            | Raise e => Some (st, Raise e)
            | Ok px => Some (TileLayer_visit m h px py st)
            end) st
      end) (∅, l, b)
  with
  | None => None
  | Some (_, l, b, Raise e) => Some (l, b, Raise e)
  | Some (in_use, l, b, Ok _) =>
      match layer_sprites l with
      | None => Some (l, b, Raise AttributeError)
      | Some sprites => for_each TileLayer_evict (unused_keys sprites in_use) (l, b)
      end
  end.

(** ** [ObjectGroup.set_viewport] *)

Definition with_base (g : ObjectGroup) (base : BaseLayer) : ObjectGroup :=
  {| og_base := base; og_h := og_h g; og_objects := og_objects g;
     og_index := og_index g; og_index_type := og_index_type g;
     og_xy_index := og_xy_index g |}.

Definition with_h (g : ObjectGroup) (h : Z) : ObjectGroup :=
  {| og_base := og_base g; og_h := h; og_objects := og_objects g;
     og_index := og_index g; og_index_type := og_index_type g;
     og_xy_index := og_xy_index g |}.

(** [if gid:] holds for a present, non-zero gid. *)
Definition truthy_gid (o : Obj) : option Z :=
  match obj_gid o with
  | Some gid => if gid =? 0 then None else Some gid
  | None => None
  end.

(** The body of the loop over the objects. *)
Definition ObjectGroup_visit (m : Map) (x y w h : Z) (obj : Obj)
    (st : gset (Z * Z) * ObjectGroup * Batch)
    : outcome (gset (Z * Z) * ObjectGroup * Batch) :=
  let '(in_use, g, b) := st in
  let tw := map_tilewidth (mdata m) in
  let th := map_tileheight (mdata m) in
  if (x - tw <? obj_x obj) && (obj_x obj <? x + w + tw)
     && (y - th <? obj_y obj) && (obj_y obj <? y + h + th) then
    if negb (obj_visible obj) then Some (st, Ok tt)
    else
      match truthy_gid obj with
      | None => Some (st, Ok tt)
      | Some gid =>
          let coordinate := (obj_x obj, obj_y obj) in
          let in_use := in_use ∪ {[coordinate]} in
          let store (sprite : option Sprite) (b' : Batch) :=
            match layer_sprites (og_base g) with
            | None => Some (in_use, g, b', Raise AttributeError)
            | Some sprites =>
                Some (in_use,
                      with_base g (with_sprites (og_base g) (<[coordinate := sprite]> sprites)),
                      b', Ok tt)
            end in
          match get_texture m gid with
          | Ok texture =>
              let tileoffset := get_tileoffset m gid in
              match layer_group (og_base g) with
              | None => Some (in_use, g, b, Raise AttributeError)
              | Some grp =>
                  let '(sprite, b') :=
                    Sprite_new b texture (obj_x obj + fst tileoffset)
                               (og_h g - obj_y obj + snd tileoffset) grp in
                  store (Some sprite) b'
              end
          | Raise KeyError | Raise IndexError => store None b
          | Raise e => Some (in_use, g, b, Raise e)
          end
      end
  else Some (st, Ok tt).

(** [o = self.sprites.pop(key)] then [o.delete()] *)
Definition ObjectGroup_evict (key : Z * Z) (st : ObjectGroup * Batch)
    : outcome (ObjectGroup * Batch) :=
  let '(g, b) := st in
  match layer_sprites (og_base g) with
  | None => Some (st, Raise AttributeError)
  | Some sprites =>
      match sprites !! key with
      | None => Some (st, Raise KeyError)
      | Some o =>
          let g' := with_base g (with_sprites (og_base g) (delete key sprites)) in
          match o with
          | Some sprite => Some (g', Sprite_delete b sprite, Ok tt)
          | None => Some (g', b, Raise AttributeError)
          end
      end
  end.

Definition ObjectGroup_set_viewport (m : Map) (x y w h : Z) (st : ObjectGroup * Batch)
    : outcome (ObjectGroup * Batch) :=
  let '(g, b) := st in
  let g := with_h g h in
  match for_each (ObjectGroup_visit m x y w h) (og_objects g) (∅, g, b) with
  | None => None
  | Some (_, g, b, Raise e) => Some (g, b, Raise e)
  | Some (in_use, g, b, Ok _) =>
      match layer_sprites (og_base g) with
      | None => Some (g, b, Raise AttributeError)
      | Some sprites => for_each ObjectGroup_evict (unused_keys sprites in_use) (g, b)
      end
  end.

(** ** [Map.set_viewport] *)

Definition with_viewport (m : Map) (x y w h : Z) : Map :=
  {| mdata := mdata m; tilesets := tilesets m; layers := layers m;
     tilelayers := tilelayers m; objectgroups := objectgroups m; batch := batch m;
     vp_x := x; vp_y := y; vp_w := w; vp_h := h;
     focus_x := focus_x m; focus_y := focus_y m;
     p_width := p_width m; p_height := p_height m;
     tileoffset_index := tileoffset_index m; texture_index := texture_index m |}.

Definition with_focus (m : Map) (x y : Z) : Map :=
  {| mdata := mdata m; tilesets := tilesets m; layers := layers m;
     tilelayers := tilelayers m; objectgroups := objectgroups m; batch := batch m;
     vp_x := vp_x m; vp_y := vp_y m; vp_w := vp_w m; vp_h := vp_h m;
     focus_x := Some x; focus_y := Some y;
     p_width := p_width m; p_height := p_height m;
     tileoffset_index := tileoffset_index m; texture_index := texture_index m |}.

(** The layer at position [i] and the batch after a call on that layer. *)
Definition with_layer (m : Map) (i : nat) (l : Layer) (b : Batch) : Map :=
  {| mdata := mdata m; tilesets := tilesets m; layers := <[i := l]> (layers m);
     tilelayers := tilelayers m; objectgroups := objectgroups m; batch := b;
     vp_x := vp_x m; vp_y := vp_y m; vp_w := vp_w m; vp_h := vp_h m;
     focus_x := focus_x m; focus_y := focus_y m;
     p_width := p_width m; p_height := p_height m;
     tileoffset_index := tileoffset_index m; texture_index := texture_index m |}.

(** [layer.set_viewport(self.x, self.y, self.w, self.h)] on the layer at
    position [i], when it is visible.  The loop takes the positions from
    the list itself, so the layer is always found. *)
Definition Map_visit_layer (i : nat) (m : Map) : outcome Map :=
  match layers m !! i with
  | None => Some (m, Raise IndexError)
  | Some layer =>
      if layer_visible (Layer_data layer) then
        match layer with
        | LTile l =>
            match TileLayer_set_viewport m (vp_x m) (vp_y m) (vp_w m) (vp_h m) (l, batch m) with
            | None => None
            | Some (l', b', r) => Some (with_layer m i (LTile l') b', r)
            end
        | LObject g =>
            match ObjectGroup_set_viewport m (vp_x m) (vp_y m) (vp_w m) (vp_h m) (g, batch m) with
            | None => None
            | Some (g', b', r) => Some (with_layer m i (LObject g') b', r)
            end
        end
      else Some (m, Ok tt)
  end.

Definition Map_set_viewport (m : Map) (x y w h : Z) (force : bool) : outcome Map :=
  let vx := Z.max x 0 in
  let vy := Z.max y 0 in
  let vx := Z.min vx (p_width m - w) in
  let vy := Z.min vy (p_height m - h) in
  let vw := py_int w in
  let vh := py_int h in
  if negb (force || negb (vx =? vp_x m) || negb (vy =? vp_y m)
                 || negb (vw =? vp_w m) || negb (vh =? vp_h m))
  then Some (m, Ok tt)
  else
    let m := with_viewport m vx vy vw vh in
    for_each Map_visit_layer (seq 0 (length (layers m))) m.

Definition invalidate (m : Map) : outcome Map :=
  Map_set_viewport m (vp_x m) (vp_y m) (vp_w m) (vp_h m) true.

(** [set_focus(x, y)] with both coordinates given. *)
Definition set_focus (m : Map) (x y : Z) : outcome Map :=
  let x := py_int x in
  let y := py_int y in
  if bool_decide (focus_x m = Some x) && bool_decide (focus_y m = Some y)
  then Some (m, Ok tt)
  else
    let m := with_focus m x y in
    let vx := Z.max (x - vp_w m / 2) 0 in
    let vy := Z.max (y - vp_h m / 2) 0 in
    let vx := if p_width m <? vx + vp_w m / 2 then p_width m - vp_w m else vx in
    let vy := if p_height m <? vy + vp_h m / 2 then p_height m - vp_h m else vy in
    Map_set_viewport m vx vy (vp_w m) (vp_h m) false.


(** ** The gid table of [MapRenderer.load] *)





(** ** The level of [main.py]

    [Level] keeps the tile map read from the tmx file and the gids of its
    collision layer; positions are taken on whole pixels. *)

Record TileMap := {
  tm_width : Z;
  tm_height : Z;
  tm_tilewidth : Z;
  tm_tileheight : Z
}.

Record Level := {
  level_tiles : TileMap;
  level_collision_tiles : list Z
}.

(** [Level.position_to_tile_index(x, y)]; called with a vector, [x] and
    [y] are its two components. *)
Definition position_to_tile_index (lv : Level) (x y : Z) : result Z :=
  do qy <- floordiv y (tm_tileheight (level_tiles lv));
  do qx <- floordiv x (tm_tilewidth (level_tiles lv));
  let index := py_int (qy * tm_width (level_tiles lv) + qx) in
  if index <? Z.of_nat (length (level_collision_tiles lv)) then Ok index
  else Raise AssertionError.

(** [Level.tile_index_to_position(index)] *)
Definition tile_index_to_position (lv : Level) (index : Z) : result (Z * Z) :=
  do y <- floordiv index (tm_width (level_tiles lv));
  let x := index - y * tm_width (level_tiles lv) in
  let y := y * tm_tileheight (level_tiles lv) in
  let x := x * tm_tilewidth (level_tiles lv) in
  Ok (x, y).

(** [Level.collision_tile_at(x, y)] *)
Definition collision_tile_at (lv : Level) (x y : Z) : result Z :=
  do index <- position_to_tile_index lv x y;
  py_list_get (level_collision_tiles lv) index.

(** [Map.last_group], read off the class counter [BaseLayer.groups]. *)
Definition last_group (groups : Z) : Z := groups - 1.

(** ** Vocabulary of the statements *)

(** What a call on one layer leaves untouched in the map. *)
Definition frame (m : Map) : MapData * (Z * Z * Z * Z) * (Z * Z) :=
  (mdata m, (vp_x m, vp_y m, vp_w m, vp_h m), (p_width m, p_height m)).

(** The four values [Map.set_viewport] computes before it compares them
    with the stored ones. *)
Definition clamped (m : Map) (x y w h : Z) : Z * Z * Z * Z :=
  (Z.min (Z.max x 0) (p_width m - w), Z.min (Z.max y 0) (p_height m - h),
   py_int w, py_int h).

Definition stored (m : Map) : Z * Z * Z * Z := (vp_x m, vp_y m, vp_w m, vp_h m).

(** The global id of the cell [(row, col)] of a tileset. *)
Definition Tileset_gid (t : Tileset) (row col : Z) : Z :=
  col + row * tileset_columns t + ts_firstgid (tileset_data t).


(** The cells of the nested loops that fill the gid tables, in the order
    in which they are visited. *)
Definition Tileset_cells (t : Tileset) : list (Tileset * Z * Z) :=
  flat_map (fun y => map (fun x => (t, y, x)) (range (tileset_columns t)))
           (range (tileset_rows t)).

Definition Map_index_step (st : gmap Z Texture * gmap Z (Z * Z)) (c : Tileset * Z * Z)
    : result (gmap Z Texture * gmap Z (Z * Z)) :=
  let '(t, y, x) := c in Map_index_cell t y st x.

(** The values of [yrange(f, t, s)]: what the generator yields within the
    given number of rounds. *)
Fixpoint yrange_list (fuel : nat) (f t s : Z) : list Z :=
  match fuel with
  | O => []
  | S fuel' => if f <? t then f :: yrange_list fuel' (f + s) t s else []
  end.

(** The tile coordinates stepped by the tile size over
    [[x, x+w+tw) x [y, y+h+th)]. *)
Definition stepped (x y w h tw th : Z) (c : Z * Z) : Prop :=
  exists a b, 0 <= a /\ 0 <= b /\
              x + a * tw < x + w + tw /\ y + b * th < y + h + th /\
              c = ((x + a * tw) / tw, (y + b * th) / th).

(** The pixel positions [(j, i)] met by the two nested loops of
    [TileLayer.set_viewport], and the coordinate of one of them. *)
Definition viewport_cells (xs ys : list Z) : list (Z * Z) :=
  flat_map (fun j => map (fun i => (j, i)) xs) ys.

Definition cell_coordinate (tw th : Z) (c : Z * Z) : Z * Z :=
  (snd c / tw, fst c / th).

(** The [BaseLayer] part of a layer. *)
Definition Layer_base (l : Layer) : BaseLayer :=
  match l with
  | LTile t => t
  | LObject g => og_base g
  end.

(** The number of visible layers of a list of layer descriptions. *)
Definition visible_count (lds : list LayerData) : Z :=
  Z.of_nat (length (List.filter layer_visible lds)).

Definition is_tilelayer (ld : LayerData) : bool :=
  String.eqb (layer_type ld) "tilelayer".

Definition is_objectgroup (ld : LayerData) : bool :=
  negb (is_tilelayer ld) && String.eqb (layer_type ld) "objectgroup".

(** The name dictionary of one kind of layer: every layer of the kind
    puts its position under its name, from position [i] on. *)
Fixpoint names_from (kind : LayerData -> bool) (i : nat) (lds : list LayerData)
    (d : gmap string nat) : gmap string nat :=
  match lds with
  | [] => d
  | ld :: lds' =>
      names_from kind (S i) lds'
        (if kind ld then <[layer_name ld := i]> d else d)
  end.

(** The key by which the constructor sorts the objects of a group. *)
Definition Obj_sort_key (md : MapData) (o : Obj) : Z :=
  obj_x o + obj_y o * map_width md.

(** What [TileLayer.set_viewport] stores for a coordinate it meets for the
    first time: a sprite of the tile's texture at the tile's place, or
    [None] when the tile or its texture cannot be found. *)
Definition tile_entry (m : Map) (l : TileLayer) (h g : Z) (c : Z * Z)
    (o : option Sprite) : Prop :=
  match (do gid <- TileLayer_getitem (mdata m) l c; get_texture m gid) with
  | Ok texture =>
      exists s, o = Some s /\ sprite_texture s = texture /\
                sprite_x s = fst c * map_tilewidth (mdata m) /\
                sprite_y s = h - snd c * map_tileheight (mdata m) - map_tileheight (mdata m) /\
                sprite_group s = g
  | Raise _ => o = None
  end.

(** The gid under which [ObjectGroup.set_viewport] draws an object: the
    object lies strictly inside the rectangle widened by one tile on
    every side, is visible and carries a non-zero gid. *)
Definition shown_gid (m : Map) (x y w h : Z) (o : Obj) : option Z :=
  let tw := map_tilewidth (mdata m) in
  let th := map_tileheight (mdata m) in
  if (x - tw <? obj_x o) && (obj_x o <? x + w + tw)
     && (y - th <? obj_y o) && (obj_y o <? y + h + th)
  then if obj_visible o then truthy_gid o else None
  else None.

(** A coordinate at which some object of the list is drawn. *)
Definition shown_at (m : Map) (x y w h : Z) (objs : list Obj) (c : Z * Z) : Prop :=
  exists o, o ∈ objs /\ is_Some (shown_gid m x y w h o) /\ c = (obj_x o, obj_y o).

(** The drawn objects whose gid has a texture. *)
Definition textured (m : Map) (x y w h : Z) (o : Obj) : bool :=
  match shown_gid m x y w h o with
  | Some gid => is_ok (get_texture m gid)
  | None => false
  end.

Definition is_creation (op : BatchOp) : bool :=
  match op with
  | SpriteNew _ => true
  | SpriteDelete _ => false
  end.

(** The number of sprites created in a batch so far. *)
Definition creations (b : Batch) : nat := length (List.filter is_creation b).


(** The tile coordinate under which an object is indexed. *)
Definition Obj_coordinate (md : MapData) (o : Obj) : Z * Z :=
  (py_int (obj_x o) / map_tilewidth md, py_int (obj_y o) / map_tileheight md - 1).

Definition indices (g : ObjectGroup)
    : gmap string (list Obj) * gmap string (list Obj) * gmap (Z * Z) (list Obj) :=
  (og_index g, og_index_type g, og_xy_index g).

(** What [set_viewport] leaves alone in an object group. *)
Definition og_static (g : ObjectGroup) :=
  (og_objects g, indices g, layer_data (og_base g), layer_group (og_base g)).

(** What [Map.set_viewport] never writes: the description, the tilesets,
    the name dictionaries, the focus, the world size and the gid tables. *)
Definition static (m : Map) :=
  (mdata m, tilesets m, tilelayers m, objectgroups m, (focus_x m, focus_y m),
   (p_width m, p_height m), tileoffset_index m, texture_index m).

(** What a map keeps of an earlier state [m0] of itself. *)
Definition keeps (m0 m : Map) : Prop :=
  static m = static m0 /\ length (layers m) = length (layers m0) /\
  forall j L, layers m0 !! j = Some L ->
    exists L', layers m !! j = Some L' /\ Layer_data L' = Layer_data L /\
               (layer_visible (Layer_data L) = false -> L' = L).

(** A map all of whose layers are tile layers, the visible ones with
    their pool and their group. *)
Definition tile_only (m : Map) : Prop :=
  forall j L, layers m !! j = Some L ->
    exists t, L = LTile t /\
      (layer_visible (layer_data t) = true ->
       is_Some (layer_sprites t) /\ is_Some (layer_group t)).

(** A sequence of calls of [Map.set_viewport], each given as
    [(x, y, w, h, force)], up to the first that does not return normally. *)
Definition set_viewports (calls : list (Z * Z * Z * Z * bool)) (m : Map) : outcome Map :=
  for_each (fun (c : Z * Z * Z * Z * bool) m =>
              let '(x, y, w, h, force) := c in Map_set_viewport m x y w h force)
           calls m.

(** ** Sample maps *)

Module Sample.
Local Open Scope string_scope.

(** A 2x2 atlas of 32-pixel tiles with a margin and a spacing of one
    pixel, and a 2x2 atlas of 16-pixel tiles without either. *)
Definition images : Resources := fun name =>
  if String.eqb name "atlas.png" then Some (67, 67)
  else if String.eqb name "small.png" then Some (32, 32)
  else None.

Definition atlas : TilesetData :=
  {| ts_name := "atlas"; ts_image := "gfx/atlas.png";
     ts_imagewidth := 67; ts_imageheight := 67;
     ts_tilewidth := 32; ts_tileheight := 32;
     ts_margin := 1; ts_spacing := 1; ts_firstgid := 1;
     ts_tileoffset := None |}.

Definition small : TilesetData :=
  {| ts_name := "small"; ts_image := "small.png";
     ts_imagewidth := 32; ts_imageheight := 32;
     ts_tilewidth := 16; ts_tileheight := 16;
     ts_margin := 0; ts_spacing := 0; ts_firstgid := 1;
     ts_tileoffset := None |}.

Definition tile_layer (name : string) (tiles : list Z) : LayerData :=
  {| layer_name := name; layer_type := "tilelayer"; layer_visible := true;
     layer_tiles := Some tiles; layer_objects := None |}.

Definition object_layer (name : string) (objects : list Obj) : LayerData :=
  {| layer_name := name; layer_type := "objectgroup"; layer_visible := true;
     layer_tiles := None; layer_objects := Some objects |}.

Definition named (name : string) (x y : Z) : Obj :=
  {| obj_x := x; obj_y := y; obj_visible := true; obj_name := Some name;
     obj_type := None; obj_gid := None |}.

Definition tile_object (gid x y : Z) : Obj :=
  {| obj_x := x; obj_y := y; obj_visible := true; obj_name := None;
     obj_type := None; obj_gid := Some gid |}.

(** The 10x10 map of 16-pixel tiles. *)
Definition world10 : MapData :=
  {| map_width := 10; map_height := 10; map_tilewidth := 16; map_tileheight := 16;
     map_tilesets := [small];
     map_layers := [tile_layer "ground" (repeat 1 100);
                    object_layer "things" [tile_object 2 40 40]] |}.

(** A map with nothing but the 2x2 atlas. *)
Definition atlas_only : MapData :=
  {| map_width := 2; map_height := 2; map_tilewidth := 32; map_tileheight := 32;
     map_tilesets := [atlas]; map_layers := [] |}.

(** Two layers with the same name. *)
Definition twins : MapData :=
  {| map_width := 2; map_height := 2; map_tilewidth := 32; map_tileheight := 32;
     map_tilesets := [atlas];
     map_layers := [tile_layer "a" [1; 2; 3; 4]; tile_layer "a" [4; 3; 2; 1]] |}.

Definition twins_mixed : MapData :=
  {| map_width := 2; map_height := 2; map_tilewidth := 32; map_tileheight := 32;
     map_tilesets := [atlas];
     map_layers := [tile_layer "a" [1; 2; 3; 4]; object_layer "a" []] |}.

(** The two objects called ["a"] on a grid of 32-pixel tiles. *)
Definition two_a : list Obj := [named "a" 0 0; named "a" 32 0].

Definition grid32 : MapData :=
  {| map_width := 2; map_height := 2; map_tilewidth := 32; map_tileheight := 32;
     map_tilesets := []; map_layers := [object_layer "objects" two_a] |}.

(** A 2x2 layer whose four tiles all have gid 5. *)
Definition fives : MapData :=
  {| map_width := 2; map_height := 2; map_tilewidth := 32; map_tileheight := 32;
     map_tilesets := [atlas]; map_layers := [tile_layer "fives" [5; 5; 5; 5]] |}.

(** One visible object whose gid, 99, is in no tileset. *)
Definition stray : MapData :=
  {| map_width := 10; map_height := 10; map_tilewidth := 32; map_tileheight := 32;
     map_tilesets := [atlas];
     map_layers := [object_layer "objects" [tile_object 99 10 10]] |}.

(** A level of 3x2 tiles of 16 pixels with its collision gids. *)
Definition level32 : Level :=
  {| level_tiles := {| tm_width := 3; tm_height := 2;
                       tm_tilewidth := 16; tm_tileheight := 16 |};
     level_collision_tiles := [0; 7; 0; 0; 0; 9] |}.

(** The 2x2 atlas again, its tiles drawn 3 pixels to the right and 2
    pixels down. *)
Definition shifted : TilesetData :=
  {| ts_name := "shifted"; ts_image := "atlas.png";
     ts_imagewidth := 67; ts_imageheight := 67;
     ts_tilewidth := 32; ts_tileheight := 32;
     ts_margin := 1; ts_spacing := 1; ts_firstgid := 1;
     ts_tileoffset := Some (3, -2) |}.

Definition shifted_only : MapData :=
  {| map_width := 2; map_height := 2; map_tilewidth := 32; map_tileheight := 32;
     map_tilesets := [shifted]; map_layers := [] |}.

(** A map with an image layer, which the loader does not support. *)
Definition with_image_layer : MapData :=
  {| map_width := 2; map_height := 2; map_tilewidth := 32; map_tileheight := 32;
     map_tilesets := [atlas];
     map_layers := [tile_layer "ground" [1; 2; 3; 4];
                    {| layer_name := "sky"; layer_type := "imagelayer";
                       layer_visible := true; layer_tiles := None;
                       layer_objects := None |}] |}.

(** Three objects given out of order; the first and the last have the
    same sort key on a map two tiles wide. *)
Definition shuffled : list Obj := [named "c" 2 1; named "a" 1 0; named "b" 0 2].

(** The texture of a cell of the 2x2 atlas. *)
Definition cell (row col : Z) : Texture :=
  {| tex_image := "atlas.png"; tex_row := row; tex_col := col |}.

(** The sprite pool of the layer at a position of [layers]. *)
Definition pool_at (m : Map) (i : nat) : option pool :=
  match layers m !! i with
  | Some (LTile l) => layer_sprites l
  | Some (LObject g) => layer_sprites (og_base g)
  | None => None
  end.

Definition tile_layer_at (m : Map) (i : nat) : option TileLayer :=
  match layers m !! i with
  | Some (LTile l) => Some l
  | _ => None
  end.

Definition object_group_at (m : Map) (i : nat) : option ObjectGroup :=
  match layers m !! i with
  | Some (LObject g) => Some g
  | _ => None
  end.

(** The map built from a description, when construction succeeds. *)
Definition load (data : MapData) : option Map :=
  match Map_init images 0 data with
  | Ok (m, _) => Some m
  | Raise _ => None
  end.

(** The 10x10 map once its viewport has been set to the 32x32 pixels at
    the origin. *)
Definition world10_at_origin : option Map :=
  match load world10 with
  | Some m => fst <$> Map_set_viewport m 0 0 32 32 false
  | None => None
  end.
End Sample.


(** * Properties *)

(** ** Atlas slicing *)

(** The outcomes of [calculate_columns] on an axis that holds at least
    one tile. *)
Lemma calculate_columns_cases (L t m s : Z) :
  2 * m + t <= L ->
  let U := L - 2 * m in
  let count := (U - t) / (t + s) + 1 in
  (forall c, calculate_columns L t m s = Ok c ->
     c = (if U =? t then 1 else count) /\ c * t + s * (c - 1) = U) /\
  (U = t -> calculate_columns L t m s = Ok 1) /\
  (U <> t -> t + s <> 0 -> count * t + s * (count - 1) = U ->
     calculate_columns L t m s = Ok count) /\
  (U <> t -> t + s <> 0 -> count * t + s * (count - 1) <> U ->
     calculate_columns L t m s = Raise AssertionError) /\
  (U <> t -> t + s = 0 ->
     calculate_columns L t m s = Raise ZeroDivisionError).
Proof.
  intros HL U count.
  assert (HU : L - m * 2 = U) by (unfold U; lia).
  assert (Hlt : (U <? t) = false) by (apply Z.ltb_ge; unfold U; lia).
  unfold calculate_columns, floordiv. cbn zeta. rewrite HU, Hlt.
  destruct (U =? t) eqn:Heq.
  - apply Z.eqb_eq in Heq.
    split; [intros k Hk; injection Hk as <-; lia|].
    repeat split; congruence.
  - apply Z.eqb_neq in Heq.
    destruct (t + s =? 0) eqn:Hz.
    + apply Z.eqb_eq in Hz.
      split; [intros k Hk; discriminate|].
      repeat split; congruence.
    + apply Z.eqb_neq in Hz. cbn [rbind]. fold count.
      destruct (count * t + s * (count - 1) =? U) eqn:Hid.
      * apply Z.eqb_eq in Hid.
        split; [intros k Hk; injection Hk as <-; auto|].
        repeat split; congruence.
      * apply Z.eqb_neq in Hid.
        split; [intros k Hk; discriminate|].
        repeat split; congruence.
Qed.

Lemma foldM_raises {A St} (f : St -> A -> result St) l st a :
  a ∈ l -> (forall s, is_ok (f s a) = false) -> is_ok (foldM f l st) = false.
Proof.
  intros Hin Hf. revert st. induction l as [|b l IH]; intros st; [inversion Hin|].
  cbn [foldM]. apply elem_of_cons in Hin as [<-|Hin].
  - specialize (Hf st). destruct (f st a); [discriminate|reflexivity].
  - destruct (f st b); cbn [rbind]; [apply IH, Hin|reflexivity].
Qed.

(** A tileset whose atlas fails the slicing check on one axis aborts the
    construction of the map. *)
Lemma Map_init_rejects_atlas res groups data tsd :
  tsd ∈ map_tilesets data ->
  is_ok (calculate_columns (ts_imagewidth tsd) (ts_tilewidth tsd)
                           (ts_margin tsd) (ts_spacing tsd)) = false \/
  is_ok (calculate_columns (ts_imageheight tsd) (ts_tileheight tsd)
                           (ts_margin tsd) (ts_spacing tsd)) = false ->
  exists e, Map_init res groups data = Raise e.
Proof.
  intros Hin Hbad.
  assert (Hts : is_ok (Map_init_tilesets res data) = false).
  { unfold Map_init_tilesets. apply (foldM_raises _ _ _ tsd Hin). intros d.
    unfold Tileset_init.
    destruct (calculate_columns (ts_imagewidth tsd) _ _ _); cbn [rbind]; [|reflexivity].
    destruct (calculate_columns (ts_imageheight tsd) _ _ _); cbn [rbind]; [|reflexivity].
    destruct Hbad; discriminate. }
  unfold Map_init. destruct (Map_init_tilesets res data); [discriminate|].
  cbn [rbind]. eauto.
Qed.

(** C2: for [L >= 2*m + t], a count returned by [calculate_columns] is
    [((U - t) // (t + s)) + 1] with [U = L - 2*m] (and [1] when [U = t]),
    it satisfies [count*t + s*(count-1) = U] exactly, and whenever that
    identity fails for the quotient the call raises instead of returning a
    count; a tileset on which it raises makes the construction of the map
    fail. *)
Theorem calculate_columns_exact :
  (forall L t m s : Z,
      2 * m + t <= L ->
      let U := L - 2 * m in
      let count := (U - t) / (t + s) + 1 in
      (forall c, calculate_columns L t m s = Ok c ->
         c = (if U =? t then 1 else count) /\ c * t + s * (c - 1) = U) /\
      (U = t -> calculate_columns L t m s = Ok 1) /\
      (U <> t -> t + s <> 0 -> count * t + s * (count - 1) = U ->
         calculate_columns L t m s = Ok count) /\
      (U <> t -> t + s <> 0 -> count * t + s * (count - 1) <> U ->
         calculate_columns L t m s = Raise AssertionError) /\
      (U <> t -> t + s = 0 ->
         calculate_columns L t m s = Raise ZeroDivisionError)) /\
  (forall res groups data tsd,
      tsd ∈ map_tilesets data ->
      calculate_columns (ts_imagewidth tsd) (ts_tilewidth tsd)
                        (ts_margin tsd) (ts_spacing tsd) = Raise AssertionError \/
      calculate_columns (ts_imageheight tsd) (ts_tileheight tsd)
                        (ts_margin tsd) (ts_spacing tsd) = Raise AssertionError ->
      exists e, Map_init res groups data = Raise e).
Proof.
  split.
  - apply calculate_columns_cases.
  - intros res groups data tsd Hin Hbad.
    apply (Map_init_rejects_atlas res groups data tsd Hin).
    destruct Hbad as [-> | ->]; auto.
Qed.

Lemma calculate_columns_exact_witness :
  2 * 1 + 32 <= 100 /\
  calculate_columns 100 32 1 1 = Ok 3 /\
  calculate_columns 101 32 1 1 = Raise AssertionError.
Proof.
  split; [lia|].
  pose proof (proj1 calculate_columns_exact 100 32 1 1 ltac:(lia)) as H1.
  pose proof (proj1 calculate_columns_exact 101 32 1 1 ltac:(lia)) as H2.
  cbn zeta in H1, H2.
  destruct H1 as (_ & _ & H1 & _). destruct H2 as (_ & _ & _ & H2 & _).
  split; [apply H1 | apply H2]; vm_compute; congruence.
Defined.

(** ** Loops *)

Lemma for_each_some {A St} (body : A -> St -> outcome St) l st :
  (forall a s, is_Some (body a s)) -> is_Some (for_each body l st).
Proof.
  intros Hb. revert st. induction l as [|a l IH]; intros st; cbn; [eauto|].
  destruct (Hb a st) as [[s' [[]|e]] ->]; eauto.
Qed.

(** An invariant of the body that holds at the start holds when the loop
    returns, normally or by an exception. *)
Lemma for_each_inv {A St} (I : St -> Prop) (body : A -> St -> outcome St) l st st' r :
  (forall a s s' r', I s -> body a s = Some (s', r') -> I s') ->
  I st -> for_each body l st = Some (st', r) -> I st'.
Proof.
  intros Hb. revert st. induction l as [|a l IH]; intros st HI; cbn.
  - intros [= <- <-]. exact HI.
  - destruct (body a st) as [[s1 [[]|e]]|] eqn:E; try discriminate.
    + apply IH. eapply Hb; eauto.
    + intros [= <- <-]. eapply Hb; eauto.
Qed.

Lemma for_each_inv_some {A St} (I : St -> Prop) (body : A -> St -> outcome St) l st :
  (forall a s, I s -> exists s' r', body a s = Some (s', r') /\ I s') ->
  I st -> exists st' r, for_each body l st = Some (st', r) /\ I st'.
Proof.
  intros Hb. revert st. induction l as [|a l IH]; intros st HI; cbn; [eauto|].
  destruct (Hb a st HI) as (s1 & r1 & -> & HI1).
  destruct r1 as [[]|e]; eauto.
Qed.

Lemma yrange_loop_some {St} (body : Z -> St -> outcome St) fuel f t s st :
  0 < s -> (forall v s', is_Some (body v s')) ->
  (Z.to_nat (t - f) < fuel)%nat ->
  is_Some (yrange_loop fuel f t s body st).
Proof.
  intros Hs Hb. revert f st.
  induction fuel as [|fuel IH]; intros f st Hf; [lia|]. cbn.
  destruct (Z.ltb_spec f t); [|eauto].
  destruct (Hb f st) as [[s' [[]|e]] ->]; eauto.
  apply IH. lia.
Qed.

(** With a step below one and [f < t] a body that never raises is run for
    ever: the loop has no outcome. *)
Lemma yrange_loop_diverges {St} (body : Z -> St -> outcome St) fuel f t s st :
  s <= 0 -> f < t ->
  (forall v s', exists s'', body v s' = Some (s'', Ok tt)) ->
  yrange_loop fuel f t s body st = None.
Proof.
  intros Hs Hft Hb. revert f st Hft.
  induction fuel as [|fuel IH]; intros f st Hft; [reflexivity|]. cbn.
  destruct (Z.ltb_spec f t); [|lia].
  destruct (Hb f st) as [s'' ->]. apply IH. lia.
Qed.

Lemma for_yrange_some {St} (body : Z -> St -> outcome St) f t s st :
  0 < s -> (forall v s', is_Some (body v s')) ->
  is_Some (for_yrange f t s body st).
Proof. intros. apply yrange_loop_some; [assumption|assumption|lia]. Qed.

(** ** The viewport calls return *)

Lemma TileLayer_evict_some key st : is_Some (TileLayer_evict key st).
Proof.
  destruct st as [l b]. unfold TileLayer_evict.
  repeat case_match; eauto.
Qed.

Lemma TileLayer_set_viewport_some m x y w h st :
  0 < map_tilewidth (mdata m) -> 0 < map_tileheight (mdata m) ->
  is_Some (TileLayer_set_viewport m x y w h st).
Proof.
  intros Htw Hth. destruct st as [l b]. unfold TileLayer_set_viewport.
  match goal with |- context [for_yrange ?f ?t ?s ?bd ?st] =>
    destruct (for_yrange_some bd f t s st Hth) as [[[[iu l'] b'] r] ->] end.
  - intros v s'. destruct (floordiv v _); [|eauto].
    apply for_yrange_some; [exact Htw|].
    intros v' s''. destruct (floordiv v' _); eauto.
  - destruct r as [[]|e]; [|eauto].
    destruct (layer_sprites l'); [|eauto].
    apply for_each_some, TileLayer_evict_some.
Qed.

Lemma ObjectGroup_visit_some m x y w h obj st :
  is_Some (ObjectGroup_visit m x y w h obj st).
Proof.
  destruct st as [[iu g] b]. unfold ObjectGroup_visit.
  repeat case_match; eauto.
Qed.

Lemma ObjectGroup_evict_some key st : is_Some (ObjectGroup_evict key st).
Proof.
  destruct st as [g b]. unfold ObjectGroup_evict.
  repeat case_match; eauto.
Qed.

Lemma ObjectGroup_set_viewport_some m x y w h st :
  is_Some (ObjectGroup_set_viewport m x y w h st).
Proof.
  destruct st as [g b]. unfold ObjectGroup_set_viewport.
  match goal with |- context [for_each ?bd ?l ?st] =>
    destruct (for_each_some bd l st) as [[[[iu g'] b'] r] ->] end.
  - intros. apply ObjectGroup_visit_some.
  - destruct r as [[]|e]; [|eauto].
    destruct (layer_sprites _); [|eauto].
    apply for_each_some. intros. apply ObjectGroup_evict_some.
Qed.

Lemma Map_visit_layer_frame i m m' r :
  Map_visit_layer i m = Some (m', r) -> frame m' = frame m.
Proof.
  unfold Map_visit_layer. intros H.
  repeat case_match; simplify_eq; reflexivity.
Qed.

Lemma Map_visit_layer_some i m :
  0 < map_tilewidth (mdata m) -> 0 < map_tileheight (mdata m) ->
  is_Some (Map_visit_layer i m).
Proof.
  intros Htw Hth. unfold Map_visit_layer.
  destruct (layers m !! i) as [[l|g]|]; [| |eauto].
  - destruct (layer_visible _); [|eauto].
    destruct (TileLayer_set_viewport_some m (vp_x m) (vp_y m) (vp_w m) (vp_h m)
                (l, batch m) Htw Hth) as [[[l' b'] r] ->]. eauto.
  - destruct (layer_visible _); [|eauto].
    destruct (ObjectGroup_set_viewport_some m (vp_x m) (vp_y m) (vp_w m) (vp_h m)
                (g, batch m)) as [[[g' b'] r] ->]. eauto.
Qed.

Lemma visit_layers_some m l :
  0 < map_tilewidth (mdata m) -> 0 < map_tileheight (mdata m) ->
  exists m' r, for_each Map_visit_layer l m = Some (m', r) /\ frame m' = frame m.
Proof.
  intros Htw Hth.
  apply (for_each_inv_some (fun s => frame s = frame m)); [|reflexivity].
  intros i s Hs.
  assert (Hd : mdata s = mdata m) by (unfold frame in Hs; congruence).
  destruct (Map_visit_layer_some i s) as [[s' r'] E]; try (rewrite Hd; assumption).
  exists s', r'. split; [exact E|].
  rewrite <- Hs. eapply Map_visit_layer_frame; eauto.
Qed.

Lemma Map_set_viewport_debounced m x y w h :
  clamped m x y w h = stored m ->
  Map_set_viewport m x y w h false = Some (m, Ok tt).
Proof.
  unfold clamped, stored. intros [= Hx Hy Hw Hh].
  unfold Map_set_viewport. cbn zeta.
  rewrite Hx, Hy, Hw, Hh, !Z.eqb_refl. reflexivity.
Qed.

Lemma Map_set_viewport_propagates m x y w h force :
  force = true \/ clamped m x y w h <> stored m ->
  Map_set_viewport m x y w h force =
    let '(vx, vy, vw, vh) := clamped m x y w h in
    for_each Map_visit_layer (seq 0 (length (layers m))) (with_viewport m vx vy vw vh).
Proof.
  unfold clamped, stored, Map_set_viewport. cbn zeta. intros H.
  destruct force; [reflexivity|].
  destruct H as [H|H]; [discriminate|]. cbn [orb].
  destruct (Z.eqb_spec (Z.min (Z.max x 0) (p_width m - w)) (vp_x m)) as [Hx|]; [|reflexivity].
  destruct (Z.eqb_spec (Z.min (Z.max y 0) (p_height m - h)) (vp_y m)) as [Hy|]; [|reflexivity].
  destruct (Z.eqb_spec (py_int w) (vp_w m)) as [Hw|]; [|reflexivity].
  destruct (Z.eqb_spec (py_int h) (vp_h m)) as [Hh|]; [|reflexivity].
  exfalso. apply H. congruence.
Qed.

(** Whatever the call does, when it returns the stored viewport is the
    clamped one and the world size is unchanged. *)
Lemma Map_set_viewport_stored m x y w h force m' r :
  Map_set_viewport m x y w h force = Some (m', r) ->
  stored m' = clamped m x y w h /\ p_width m' = p_width m /\ p_height m' = p_height m.
Proof.
  intros H.
  destruct (decide (force = true \/ clamped m x y w h <> stored m)) as [Hc|Hc].
  - rewrite Map_set_viewport_propagates in H by exact Hc.
    destruct (clamped m x y w h) as [[[vx vy] vw] vh] eqn:E.
    apply (for_each_inv (fun s => frame s = frame (with_viewport m vx vy vw vh))) in H.
    + unfold frame, stored in *. cbn in H. simplify_eq. auto.
    + intros i s s' r' Hs Hv. rewrite <- Hs. eapply Map_visit_layer_frame; eauto.
    + reflexivity.
  - assert (force = false) as -> by (destruct force; tauto).
    assert (Heq : clamped m x y w h = stored m).
    { destruct (decide (clamped m x y w h = stored m)); tauto. }
    rewrite Map_set_viewport_debounced in H by exact Heq.
    simplify_eq. auto.
Qed.

Lemma Map_set_viewport_some m x y w h force :
  0 < map_tilewidth (mdata m) -> 0 < map_tileheight (mdata m) ->
  exists m' r, Map_set_viewport m x y w h force = Some (m', r).
Proof.
  intros Htw Hth. unfold Map_set_viewport. cbn zeta.
  case_match; [eauto|].
  match goal with |- context [for_each _ ?l ?m0] =>
    destruct (visit_layers_some m0 l Htw Hth) as (m' & r & -> & _) end.
  eauto.
Qed.

(** ** [Map.set_viewport]: debouncing and clamping *)

(** C4: a second [set_viewport] with the same arguments and no [force]
    returns at once with the map, its layers and its batch exactly as the
    first call left them; in general the call is a no-op when [force] is
    unset and the clamped values equal the stored ones, and otherwise it
    stores them and runs the loop over the layers. *)
Theorem Map_set_viewport_idempotent :
  (forall m x y w h force m1 r1,
      Map_set_viewport m x y w h force = Some (m1, r1) ->
      Map_set_viewport m1 x y w h false = Some (m1, Ok tt)) /\
  (forall m x y w h,
      clamped m x y w h = stored m ->
      Map_set_viewport m x y w h false = Some (m, Ok tt)) /\
  (forall m x y w h force,
      force = true \/ clamped m x y w h <> stored m ->
      Map_set_viewport m x y w h force =
        let '(vx, vy, vw, vh) := clamped m x y w h in
        for_each Map_visit_layer (seq 0 (length (layers m)))
                 (with_viewport m vx vy vw vh)).
Proof.
  split; [|split].
  - intros m x y w h force m1 r1 H.
    apply Map_set_viewport_stored in H as (Hs & Hw & Hh).
    apply Map_set_viewport_debounced.
    rewrite Hs. unfold clamped. rewrite Hw, Hh. reflexivity.
  - apply Map_set_viewport_debounced.
  - apply Map_set_viewport_propagates.
Qed.

Lemma Map_set_viewport_idempotent_witness :
  exists m m1,
    Sample.load Sample.world10 = Some m /\
    Map_set_viewport m 8 8 64 64 false = Some (m1, Ok tt) /\
    length (batch m1) = 26%nat /\
    Map_set_viewport m1 8 8 64 64 false = Some (m1, Ok tt).
Proof.
  destruct (Sample.load Sample.world10) as [m|] eqn:E; [|vm_compute in E; discriminate].
  destruct (Map_set_viewport m 8 8 64 64 false) as [[m1 r]|] eqn:E1.
  - exists m, m1.
    pose proof (proj1 Map_set_viewport_idempotent m 8 8 64 64 false m1 r E1) as H2.
    assert (r = Ok tt /\ length (batch m1) = 26%nat) as [-> Hb].
    { vm_compute in E. injection E as <-. vm_compute in E1.
      injection E1 as <- <-. vm_compute. auto. }
    auto.
  - exfalso. vm_compute in E. injection E as <-. vm_compute in E1. discriminate.
Defined.



(** C10: when the viewport is wider (taller) than the world, the stored
    origin is [world - size], a negative number, whatever origin was
    requested. *)
Theorem Map_set_viewport_oversized (m : Map) (x y w h : Z) (force : bool) :
  0 < map_tilewidth (mdata m) -> 0 < map_tileheight (mdata m) ->
  exists m' r,
    Map_set_viewport m x y w h force = Some (m', r) /\
    (p_width m < w -> vp_x m' = p_width m - w /\ vp_x m' < 0) /\
    (p_height m < h -> vp_y m' = p_height m - h /\ vp_y m' < 0).
Proof.
  intros Htw Hth.
  destruct (Map_set_viewport_some m x y w h force Htw Hth) as (m' & r & E).
  exists m', r. split; [exact E|].
  apply Map_set_viewport_stored in E as (Hs & _ & _).
  unfold stored, clamped in Hs. injection Hs as Hx Hy Hw Hh.
  rewrite Hx, Hy. lia.
Qed.

Lemma Map_set_viewport_oversized_witness :
  exists m m' r,
    Sample.load Sample.world10 = Some m /\
    Map_set_viewport m 50 0 200 64 false = Some (m', r) /\
    vp_x m' = -40.
Proof.
  destruct (Sample.load Sample.world10) as [m|] eqn:E; [|vm_compute in E; discriminate].
  assert (Hd : mdata m = Sample.world10 /\ p_width m = 160).
  { vm_compute in E. injection E as <-. auto. }
  destruct Hd as (Hd & Hpw).
  assert (Htw : 0 < map_tilewidth (mdata m)) by (rewrite Hd; reflexivity).
  assert (Hth : 0 < map_tileheight (mdata m)) by (rewrite Hd; reflexivity).
  destruct (Map_set_viewport_oversized m 50 0 200 64 false Htw Hth)
    as (m' & r & E' & Hx & _).
  exists m, m', r. repeat split; try assumption.
  destruct Hx as [Hx _]; [rewrite Hpw; reflexivity|]. rewrite Hx, Hpw. reflexivity.
Defined.

(** ** Tile lookup *)

Lemma py_list_get_spec {A} (l : list A) (i : Z) :
  let n := Z.of_nat (length l) in
  (0 <= i < n -> exists a, l !! Z.to_nat i = Some a /\ py_list_get l i = Ok a) /\
  (- n <= i < 0 -> exists a, l !! Z.to_nat (i + n) = Some a /\ py_list_get l i = Ok a) /\
  (i < - n \/ n <= i -> py_list_get l i = Raise IndexError).
Proof.
  intros n. unfold py_list_get. fold n.
  assert (Hlk : forall j, 0 <= j < n -> is_Some (l !! Z.to_nat j)).
  { intros j Hj. apply lookup_lt_is_Some. unfold n in Hj. lia. }
  repeat split.
  - intros Hi. destruct (Z.ltb_spec i 0); [lia|].
    destruct (Z.ltb_spec i 0), (Z.leb_spec n i); try lia. cbn.
    destruct (Hlk i Hi) as [a Ha]. rewrite Ha. eauto.
  - intros Hi. destruct (Z.ltb_spec i 0); [|lia].
    destruct (Z.ltb_spec (i + n) 0), (Z.leb_spec n (i + n)); try lia. cbn.
    destruct (Hlk (i + n) ltac:(lia)) as [a Ha]. rewrite Ha. eauto.
  - intros Hi. destruct (Z.ltb_spec i 0).
    + destruct (Z.ltb_spec (i + n) 0); [reflexivity|].
      destruct (Z.leb_spec n (i + n)); [reflexivity|lia].
    + destruct (Z.ltb_spec i 0); [lia|].
      destruct (Z.leb_spec n i); [reflexivity|lia].
Qed.

(** [__contains__] looks the flat index up among the gids stored in the
    layer, not among the positions of the array. *)
Lemma TileLayer_contains_value md (l : TileLayer) d x y :
  layer_tiles (layer_data l) = Some d ->
  TileLayer_contains md l (x, y) = Ok (bool_decide (x + y * map_width md ∈ d)).
Proof. intros H. unfold TileLayer_contains. rewrite H. reflexivity. Qed.

(** C8 (the code departs from it): on the 2x2 layer whose tiles all have
    gid 5, [(0, 0) in layer] is false although flat index 0 addresses the
    first tile, [(1, 2) in layer] is true although flat index 5 is past the
    end, and [layer[-1, 0]] returns a tile for the flat index -1; only
    [layer[1, 2]] reports the error. *)
Theorem TileLayer_contains_tests_gids :
  exists m l,
    Sample.load Sample.fives = Some m /\
    Sample.tile_layer_at m 0 = Some l /\
    TileLayer_getitem (mdata m) l (0, 0) = Ok 5 /\
    TileLayer_contains (mdata m) l (0, 0) = Ok false /\
    TileLayer_getitem (mdata m) l (1, 2) = Raise IndexError /\
    TileLayer_contains (mdata m) l (1, 2) = Ok true /\
    TileLayer_getitem (mdata m) l (-1, 0) = Ok 5.
Proof.
  destruct (Sample.load Sample.fives) as [m|] eqn:E; [|vm_compute in E; discriminate].
  vm_compute in E. injection E as <-.
  eexists _, _. split; [reflexivity|]. split; [reflexivity|].
  repeat split; vm_compute; reflexivity.
Qed.

(** ** Layer names *)

(** The test for a duplicated name compares the name with the two
    dictionaries themselves, so it never holds. *)
Lemma in_pair_false name d1 d2 : in_pair name d1 d2 = false.
Proof. reflexivity. Qed.

Lemma Map_init_layer_never_duplicate data st layer msg :
  Map_init_layer data st layer = Raise (ValueError msg) ->
  layer_type layer <> "tilelayer"%string /\ layer_type layer <> "objectgroup"%string.
Proof.
  destruct st as [[[ls tls] ogs] groups]. unfold Map_init_layer.
  rewrite in_pair_false.
  destruct (String.eqb_spec (layer_type layer) "tilelayer") as [Ht|Ht].
  { destruct (BaseLayer_init layer groups). discriminate. }
  destruct (String.eqb_spec (layer_type layer) "objectgroup") as [Ho|Ho]; [|auto].
  unfold ObjectGroup_init. destruct (BaseLayer_init layer groups) as [base g'].
  destruct (layer_objects layer) as [objs|]; cbn [getkey rbind]; [|discriminate].
  match goal with |- context [foldM ?f ?l ?s] => generalize s; induction l as [|o objs' IH] end.
  - cbn. discriminate.
  - intros g0. cbn [foldM]. unfold ObjectGroup_index_object at 1. unfold floordiv.
    destruct (map_tilewidth data =? 0); [cbn; discriminate|].
    destruct (map_tileheight data =? 0); [cbn; discriminate|].
    cbn [rbind]. apply IH.
Qed.

(** C7 (the code departs from it): a description with two tile layers
    called ["a"] is loaded without an error, both layers are kept and the
    name refers to the second; with a tile layer and an object group of
    that name, the name is in both dictionaries. *)
Theorem Map_init_accepts_duplicate_names :
  (exists m, Sample.load Sample.twins = Some m /\
             length (layers m) = 2%nat /\
             map Layer_data (layers m) = map_layers Sample.twins /\
             tilelayers m = {["a"%string := 1%nat]}) /\
  (exists m, Sample.load Sample.twins_mixed = Some m /\
             tilelayers m !! "a"%string = Some 0%nat /\
             objectgroups m !! "a"%string = Some 1%nat).
Proof.
  split.
  - destruct (Sample.load Sample.twins) as [m|] eqn:E; [|vm_compute in E; discriminate].
    vm_compute in E. injection E as <-.
    eexists. split; [reflexivity|]. repeat split; vm_compute; reflexivity.
  - destruct (Sample.load Sample.twins_mixed) as [m|] eqn:E; [|vm_compute in E; discriminate].
    vm_compute in E. injection E as <-.
    eexists. split; [reflexivity|]. repeat split; vm_compute; reflexivity.
Qed.

(** ** The pool of an object group *)

(** C9 (the code departs from it): for a visible object whose gid is in
    no tileset, [ObjectGroup.set_viewport] stores [None] under the
    object's coordinate; once the object leaves the viewport the removal
    pass calls [delete] on that [None] and the call ends with an
    [AttributeError]. *)
Theorem ObjectGroup_pool_stores_None :
  exists m m1 m2,
    Sample.load Sample.stray = Some m /\
    Map_set_viewport m 0 0 64 64 false = Some (m1, Ok tt) /\
    Sample.pool_at m1 0 = Some {[ (10, 10) := None ]} /\
    Map_set_viewport m1 200 200 64 64 false = Some (m2, Raise AttributeError) /\
    Sample.pool_at m2 0 = Some ∅.
Proof.
  destruct (Sample.load Sample.stray) as [m|] eqn:E; [|vm_compute in E; discriminate].
  destruct (Map_set_viewport m 0 0 64 64 false) as [[m1 r1]|] eqn:E1;
    [|exfalso; vm_compute in E; injection E as <-; vm_compute in E1; discriminate].
  destruct (Map_set_viewport m1 200 200 64 64 false) as [[m2 r2]|] eqn:E2;
    [|exfalso; vm_compute in E; injection E as <-; vm_compute in E1;
      injection E1 as <- <-; vm_compute in E2; discriminate].
  exists m, m1, m2.
  vm_compute in E. injection E as <-.
  vm_compute in E1. injection E1 as <- <-.
  vm_compute in E2. injection E2 as <- <-.
  repeat split; vm_compute; reflexivity.
Qed.

(** ** The indices of an object group *)

Section index_append.
Context `{Countable K} (key : Obj -> K).

(** After the objects have been appended under their keys, a key holds
    what it held before followed by the objects of that key, in order. *)
Lemma index_append_fold (objs : list Obj) (idx : gmap K (list Obj)) (k : K) :
  fold_left (fun idx o => index_append (key o) o idx) objs idx !! k =
    match filter (fun o => key o = k) objs with
    | [] => idx !! k
    | l => Some (default [] (idx !! k) ++ l)
    end.
Proof.
  revert idx. induction objs as [|o objs IH]; intros idx; [reflexivity|].
  cbn [fold_left]. rewrite IH. unfold index_append.
  destruct (decide (key o = k)) as [Hk|Hk].
  - rewrite filter_cons_True by exact Hk. rewrite Hk, lookup_insert_eq. cbn.
    destruct (filter _ objs); [reflexivity|].
    rewrite <- app_assoc. reflexivity.
  - rewrite filter_cons_False by exact Hk. rewrite lookup_insert_ne by exact Hk.
    reflexivity.
Qed.
End index_append.

Lemma ObjectGroup_init_fold md objs g0 :
  map_tilewidth md <> 0 -> map_tileheight md <> 0 ->
  exists g,
    foldM (ObjectGroup_index_object md) objs g0 = Ok g /\
    og_base g = og_base g0 /\
    og_objects g = og_objects g0 ++ objs /\
    og_index g = fold_left (fun idx o => index_append (Obj_name o) o idx) objs (og_index g0) /\
    og_index_type g =
      fold_left (fun idx o => index_append (Obj_type o) o idx) objs (og_index_type g0) /\
    og_xy_index g =
      fold_left (fun idx o => index_append (Obj_coordinate md o) o idx) objs (og_xy_index g0).
Proof.
  intros Htw Hth. revert g0.
  induction objs as [|o objs IH]; intros g0.
  - exists g0. cbn. rewrite app_nil_r. repeat split; reflexivity.
  - cbn [foldM]. unfold ObjectGroup_index_object at 1. unfold floordiv.
    destruct (Z.eqb_spec (map_tilewidth md) 0); [contradiction|].
    destruct (Z.eqb_spec (map_tileheight md) 0); [contradiction|].
    cbn [rbind].
    match goal with |- context [foldM _ objs ?g1] => destruct (IH g1) as (g & E & Hb & Ho & Hi & Ht & Hx) end.
    exists g. split; [exact E|]. cbn in Hb, Ho, Hi, Ht, Hx.
    rewrite <- app_assoc in Ho. repeat split; assumption.
Qed.

Lemma ObjectGroup_visit_indices m x y w h obj st st' r :
  ObjectGroup_visit m x y w h obj st = Some (st', r) ->
  indices (snd (fst st')) = indices (snd (fst st)).
Proof.
  destruct st as [[iu g] b]. unfold ObjectGroup_visit. intros E.
  repeat case_match; simplify_eq; reflexivity.
Qed.

Lemma ObjectGroup_evict_indices key st st' r :
  ObjectGroup_evict key st = Some (st', r) -> indices (fst st') = indices (fst st).
Proof.
  destruct st as [g b]. unfold ObjectGroup_evict. intros E.
  repeat case_match; simplify_eq; reflexivity.
Qed.

(** The indices are built by the constructor only. *)
Lemma ObjectGroup_set_viewport_indices m x y w h g b g' b' r :
  ObjectGroup_set_viewport m x y w h (g, b) = Some (g', b', r) ->
  indices g' = indices g.
Proof.
  unfold ObjectGroup_set_viewport.
  destruct (for_each _ _ _) as [[[[iu g1] b1] r1]|] eqn:E1; [|discriminate].
  apply (for_each_inv (fun s => indices (snd (fst s)) = indices g)) in E1;
    [|intros a s s' r' Hs Hv; rewrite <- Hs; eapply ObjectGroup_visit_indices; eauto
     |reflexivity].
  cbn in E1. destruct r1 as [[]|e]; [|intros [= <- <- <-]; exact E1].
  destruct (layer_sprites (og_base g1)); [|intros [= <- <- <-]; exact E1].
  intros E2.
  apply (for_each_inv (fun s => indices (fst s) = indices g)) in E2; [exact E2| |exact E1].
  intros a s s' r' Hs Hv. rewrite <- Hs. eapply ObjectGroup_evict_indices; eauto.
Qed.

(** C6: the constructor builds the three indices; a name (a type) is
    looked up to all the objects of that name (type) in insertion order,
    a tile coordinate [(x // tilewidth, y // tileheight - 1)] to the first
    object inserted there, and [set_viewport] leaves the indices as they
    are.  An object without a name counts as named ["?"].  For the two
    objects called ["a"] at [(0, 0)] and [(32, 0)] on 32-pixel tiles, the
    name gives both in order and the coordinate [(1, -1)] the second. *)
Theorem ObjectGroup_indices :
  (forall md data groups objects,
      layer_objects data = Some objects ->
      map_tilewidth md <> 0 -> map_tileheight md <> 0 ->
      exists g groups',
        ObjectGroup_init md data groups = Ok (g, groups') /\
        (forall name,
            ObjectGroup_getitem g (ByName name) =
              match filter (fun o => Obj_name o = name) objects with
              | [] => Raise KeyError
              | l => Ok (FoundAll l)
              end) /\
        (forall otype,
            get_by_type g otype =
              match filter (fun o => Obj_type o = otype) objects with
              | [] => Raise KeyError
              | l => Ok l
              end) /\
        (forall x y,
            ObjectGroup_getitem g (ByCoordinate x y) =
              match filter (fun o => Obj_coordinate md o = (x, y)) objects with
              | [] => Raise KeyError
              | o :: _ => Ok (FoundOne o)
              end) /\
        (forall name, name <> "?"%string ->
            filter (fun o => Obj_name o = name) objects =
              filter (fun o => obj_name o = Some name) objects) /\
        (forall m x y w h b g' b' r,
            ObjectGroup_set_viewport m x y w h (g, b) = Some (g', b', r) ->
            indices g' = indices g)) /\
  (exists g groups',
      ObjectGroup_init Sample.grid32 (Sample.object_layer "objects" Sample.two_a) 0
        = Ok (g, groups') /\
      ObjectGroup_getitem g (ByName "a") = Ok (FoundAll Sample.two_a) /\
      ObjectGroup_getitem g (ByCoordinate 1 (-1)) = Ok (FoundOne (Sample.named "a" 32 0))).
Proof.
  split.
  - intros md data groups objects Hobjs Htw Hth.
    unfold ObjectGroup_init.
    destruct (BaseLayer_init data groups) as [base groups'].
    rewrite Hobjs. cbn [getkey rbind].
    match goal with |- context [foldM _ objects ?g0] =>
      destruct (ObjectGroup_init_fold md objects g0 Htw Hth)
        as (g & -> & Hb & Ho & Hi & Ht & Hx) end.
    cbn [rbind]. eexists _, _. split; [reflexivity|].
    cbn [og_index og_index_type og_xy_index] in Hi, Ht, Hx.
    split; [|split; [|split; [|split]]].
    + intros name. unfold ObjectGroup_getitem. cbn [og_index].
      rewrite Hi, (index_append_fold Obj_name), lookup_empty.
      destruct (filter _ objects); reflexivity.
    + intros otype. unfold get_by_type. cbn [og_index_type].
      rewrite Ht, (index_append_fold Obj_type), lookup_empty.
      destruct (filter _ objects); reflexivity.
    + intros x y. unfold ObjectGroup_getitem, py_int. cbn [og_xy_index].
      rewrite Hx, (index_append_fold (Obj_coordinate md)), lookup_empty.
      destruct (filter _ objects); reflexivity.
    + intros name Hn. apply list_filter_iff. intros o. unfold Obj_name.
      destruct (obj_name o); cbn; split; congruence.
    + intros m x y w h b g' b' r E.
      apply ObjectGroup_set_viewport_indices in E. rewrite E. reflexivity.
  - eexists _, _. split; [vm_compute; reflexivity|].
    split; vm_compute; reflexivity.
Qed.

Lemma ObjectGroup_indices_witness :
  exists g groups',
    ObjectGroup_init Sample.grid32 (Sample.object_layer "objects" Sample.two_a) 0
      = Ok (g, groups') /\
    ObjectGroup_getitem g (ByName "a") = Ok (FoundAll Sample.two_a) /\
    get_by_type g "?" = Ok Sample.two_a /\
    ObjectGroup_getitem g (ByCoordinate 1 (-1)) = Ok (FoundOne (Sample.named "a" 32 0)) /\
    ObjectGroup_getitem g (ByCoordinate 5 5) = Raise KeyError.
Proof.
  destruct (proj1 ObjectGroup_indices Sample.grid32
              (Sample.object_layer "objects" Sample.two_a) 0 Sample.two_a
              eq_refl ltac:(discriminate) ltac:(discriminate))
    as (g & groups' & E & Hn & Ht & Hc & _).
  exists g, groups'. split; [exact E|].
  rewrite (Hn "a"%string), (Ht "?"%string), (Hc 1 (-1)), (Hc 5 5).
  repeat split.
Defined.

(** ** The gid tables *)

Lemma foldM_app {A St} (f : St -> A -> result St) l1 l2 st :
  foldM f (l1 ++ l2) st = do st1 <- foldM f l1 st; foldM f l2 st1.
Proof.
  revert st. induction l1 as [|a l1 IH]; intros st; cbn; [reflexivity|].
  destruct (f st a); cbn; auto.
Qed.

Lemma foldM_ext {A St} (f g : St -> A -> result St) l st :
  (forall s a, f s a = g s a) -> foldM f l st = foldM g l st.
Proof.
  intros Hfg. revert st. induction l as [|a l IH]; intros st; cbn; [reflexivity|].
  rewrite Hfg. destruct (g st a); cbn; auto.
Qed.

(** Two nested loops are one loop over the pairs. *)
Lemma foldM_nested {A B C St} (f : St -> C -> result St) (inner : A -> list B)
    (pair : A -> B -> C) l st :
  foldM (fun st a => foldM (fun st b => f st (pair a b)) (inner a) st) l st =
  foldM f (flat_map (fun a => map (pair a) (inner a)) l) st.
Proof.
  revert st. induction l as [|a l IH]; intros st; cbn [foldM flat_map]; [reflexivity|].
  rewrite foldM_app.
  assert (E : forall s, foldM (fun st b => f st (pair a b)) (inner a) s =
                        foldM f (map (pair a) (inner a)) s).
  { generalize (inner a). intros bs. induction bs as [|b bs IHb]; intros s; cbn; [reflexivity|].
    destruct (f s (pair a b)); cbn; auto. }
  rewrite E. destruct (foldM f (map (pair a) (inner a)) st); cbn; auto.
Qed.

Section table.
Context {C St V : Type} (step : St -> C -> result St)
        (table : St -> gmap Z V) (key : C -> Z) (val : C -> result V).
Hypothesis step_insert : forall st c st',
  step st c = Ok st' -> exists v, val c = Ok v /\ table st' = <[key c := v]> (table st).


End table.

Lemma elem_of_range n x : x ∈ range n <-> 0 <= x < n.
Proof.
  unfold range. rewrite list_elem_of_fmap. split.
  - intros (k & -> & Hk). apply elem_of_seq in Hk. lia.
  - intros Hx. exists (Z.to_nat x). split; [lia|]. apply elem_of_seq. lia.
Qed.

Lemma elem_of_Tileset_cells t c :
  c ∈ Tileset_cells t <->
  exists y x, c = (t, y, x) /\ 0 <= y < tileset_rows t /\ 0 <= x < tileset_columns t.
Proof.
  unfold Tileset_cells. rewrite list_elem_of_In, in_flat_map. split.
  - intros (y & Hy & Hc). apply list_elem_of_In, elem_of_range in Hy.
    apply list_elem_of_In, list_elem_of_fmap in Hc as (x & -> & Hx).
    apply elem_of_range in Hx. eauto.
  - intros (y & x & -> & Hy & Hx). exists y. split.
    + apply list_elem_of_In, elem_of_range, Hy.
    + apply list_elem_of_In, list_elem_of_fmap. exists x.
      split; [reflexivity|]. apply elem_of_range, Hx.
Qed.



Lemma Map_index_step_insert st c st' :
  Map_index_step st c = Ok st' ->
  exists v, (let '(t, y, x) := c in Tileset_getitem t (tileset_rows t - 1 - y, x)) = Ok v /\
            fst st' = <[(let '(t, y, x) := c in Tileset_gid t y x) := v]> (fst st).
Proof.
  destruct c as [[t y] x], st as [ti oi]. unfold Map_index_step, Map_index_cell.
  destruct (Tileset_getitem t _) as [tex|e]; cbn [rbind]; [|discriminate].
  intros E. exists tex. split; [reflexivity|].
  destruct (ts_tileoffset _); simplify_eq; reflexivity.
Qed.

(** The three nested loops of the constructor are one loop over the cells
    of the tilesets, taken in the order of [tilesets.values()]. *)
Lemma Map_index_tilesets_cells ts st :
  foldM Map_index_tileset ts st = foldM Map_index_step (flat_map Tileset_cells ts) st.
Proof.
  revert st. induction ts as [|t ts IH]; intros st; cbn [foldM flat_map]; [reflexivity|].
  rewrite foldM_app.
  assert (E : Map_index_tileset st t = foldM Map_index_step (Tileset_cells t) st).
  { unfold Map_index_tileset, Tileset_cells.
    rewrite <- (foldM_nested Map_index_step (fun _ => range (tileset_columns t))
                  (fun y x => (t, y, x))).
    reflexivity. }
  rewrite E. destruct (foldM Map_index_step (Tileset_cells t) st); cbn [rbind]; auto.
Qed.





(** ** [TileLayer.set_viewport]: the pool after the call *)

Lemma for_each_ext {A St} (f g : A -> St -> outcome St) l st :
  (forall a s, f a s = g a s) -> for_each f l st = for_each g l st.
Proof.
  intros Hfg. revert st. induction l as [|a l IH]; intros st; cbn; [reflexivity|].
  rewrite Hfg. destruct (g a st) as [[s' [[]|e]]|]; auto.
Qed.

Lemma for_each_app {A St} (body : A -> St -> outcome St) l1 l2 st :
  for_each body (l1 ++ l2) st =
    match for_each body l1 st with
    | Some (st1, Ok _) => for_each body l2 st1
    | r => r
    end.
Proof.
  revert st. induction l1 as [|a l1 IH]; intros st; cbn [for_each app]; [reflexivity|].
  destruct (body a st) as [[s' [[]|e]]|]; auto.
Qed.

Lemma for_each_nested {A B St} (body : A * B -> St -> outcome St) (inner : list B) l st :
  for_each (fun a st => for_each (fun b st => body (a, b) st) inner st) l st =
  for_each body (flat_map (fun a => map (fun b => (a, b)) inner) l) st.
Proof.
  revert st. induction l as [|a l IH]; intros st; cbn [for_each flat_map]; [reflexivity|].
  rewrite for_each_app.
  assert (E : forall s, for_each (fun b st => body (a, b) st) inner s =
                        for_each body (map (fun b => (a, b)) inner) s).
  { clear IH. induction inner as [|b bs IHb]; intros s; cbn; [reflexivity|].
    destruct (body (a, b) s) as [[s' [[]|e]]|]; auto. }
  rewrite E. destruct (for_each body _ st) as [[s' [[]|e]]|]; auto.
Qed.

(** With a positive step the generator is exhausted within the rounds it
    is given, and the loop is the loop over the values it yields. *)
Lemma yrange_loop_for_each {St} (body : Z -> St -> outcome St) fuel f t s st :
  0 < s -> (Z.to_nat (t - f) < fuel)%nat ->
  yrange_loop fuel f t s body st = for_each body (yrange_list fuel f t s) st.
Proof.
  intros Hs. revert f st. induction fuel as [|fuel IH]; intros f st Hf; [lia|].
  cbn. destruct (Z.ltb_spec f t); [|reflexivity]. cbn.
  destruct (body f st) as [[s' [[]|e]]|]; try reflexivity.
  apply IH. lia.
Qed.

Lemma elem_of_yrange_list fuel f t s v :
  0 < s -> (Z.to_nat (t - f) < fuel)%nat ->
  v ∈ yrange_list fuel f t s <-> exists k, 0 <= k /\ v = f + k * s /\ v < t.
Proof.
  intros Hs. revert f. induction fuel as [|fuel IH]; intros f Hf; [lia|].
  cbn. destruct (Z.ltb_spec f t) as [Hlt|Hge].
  - rewrite elem_of_cons, IH by lia. split.
    + intros [->|(k & Hk & -> & Hv)].
      * exists 0. lia.
      * exists (k + 1). lia.
    + intros (k & Hk & -> & Hv). destruct (decide (k = 0)) as [->|Hk0].
      * left. lia.
      * right. exists (k - 1). lia.
  - split; [intros Hin; inversion Hin|].
    intros (k & Hk & -> & Hv). nia.
Qed.

Lemma tile_lookup_raises m (l : TileLayer) c e :
  (do gid <- TileLayer_getitem (mdata m) l c; get_texture m gid) = Raise e ->
  e = KeyError \/ e = IndexError.
Proof.
  destruct c as [px py]. unfold TileLayer_getitem, get_texture, py_list_get, getkey.
  repeat (case_match; cbn [rbind]); intros; simplify_eq; auto.
Qed.

(** One round of the inner loop on a visible layer: the coordinate is
    recorded, it gets an entry if it had none, nothing else changes. *)
Lemma TileLayer_visit_spec m h px py in_use (l : TileLayer) b P g :
  layer_sprites l = Some P -> layer_group l = Some g ->
  exists l' b' P',
    TileLayer_visit m h px py (in_use, l, b) = (in_use ∪ {[(px, py)]}, l', b', Ok tt) /\
    layer_data l' = layer_data l /\ layer_group l' = Some g /\
    layer_sprites l' = Some P' /\
    dom P' = dom P ∪ {[(px, py)]} /\
    (forall c, is_Some (P !! c) -> P' !! c = P !! c).
Proof.
  intros HP Hg. unfold TileLayer_visit. rewrite HP.
  destruct (bool_decide_reflect (is_Some (P !! (px, py)))) as [Hin|Hout].
  - exists l, b, P. repeat split; auto.
    apply elem_of_dom in Hin. rewrite (comm_L (∪)). symmetry.
    apply subseteq_union_1_L, singleton_subseteq_l, Hin.
  - assert (Hnone : P !! (px, py) = None) by (apply eq_None_not_Some; exact Hout).
    assert (Hagree : forall v c, is_Some (P !! c) -> <[(px, py) := v]> P !! c = P !! c).
    { intros v c Hc. apply lookup_insert_ne. intros <-. auto. }
    destruct (do gid <- TileLayer_getitem (mdata m) l (px, py); get_texture m gid)
      as [texture|e] eqn:E.
    + rewrite Hg. cbn.
      eexists _, _, _. split; [reflexivity|]. cbn.
      repeat split; auto. rewrite dom_insert_L. apply (comm_L (∪)).
    + assert (exists P', (match e with
                | KeyError | IndexError =>
                    (in_use ∪ {[(px, py)]}, with_sprites l (<[(px, py) := None]> P), b, Ok tt)
                | _ => (in_use ∪ {[(px, py)]}, l, b, Raise e)
                end) = (in_use ∪ {[(px, py)]}, with_sprites l P', b, Ok tt)
              /\ P' = <[(px, py) := None]> P) as (P' & -> & ->).
      { destruct (tile_lookup_raises _ _ _ _ E) as [-> | ->]; eauto. }
      eexists _, _, _. split; [reflexivity|]. cbn.
      repeat split; auto. rewrite dom_insert_L. apply (comm_L (∪)).
Qed.

(** The two loops on a visible layer: every coordinate met is recorded and
    has an entry, the entries that were there are as they were. *)
Lemma TileLayer_visit_cells m h tw th cells in_use (l : TileLayer) b P g :
  layer_sprites l = Some P -> layer_group l = Some g ->
  exists l' b' P',
    for_each (fun c st => Some (TileLayer_visit m h (snd c / tw) (fst c / th) st))
             cells (in_use, l, b)
      = Some (in_use ∪ list_to_set (cell_coordinate tw th <$> cells), l', b', Ok tt) /\
    layer_data l' = layer_data l /\ layer_group l' = Some g /\
    layer_sprites l' = Some P' /\
    dom P' = dom P ∪ list_to_set (cell_coordinate tw th <$> cells) /\
    (forall c, is_Some (P !! c) -> P' !! c = P !! c).
Proof.
  revert in_use l b P. induction cells as [|c cells IH]; intros in_use l b P HP Hg.
  - exists l, b, P. rewrite fmap_nil, list_to_set_nil, !union_empty_r_L.
    repeat split; auto.
  - cbn [for_each].
    destruct (TileLayer_visit_spec m h (snd c / tw) (fst c / th) in_use l b P g HP Hg)
      as (l1 & b1 & P1 & -> & Hd1 & Hg1 & HP1 & Hdom1 & Hag1).
    destruct (IH (in_use ∪ {[(snd c / tw, fst c / th)]}) l1 b1 P1 HP1 Hg1)
      as (l' & b' & P' & -> & Hd' & Hg' & HP' & Hdom' & Hag').
    rewrite fmap_cons, list_to_set_cons.
    change (cell_coordinate tw th c) with (snd c / tw, fst c / th).
    exists l', b', P'. rewrite (assoc_L (∪)).
    split; [reflexivity|]. split; [congruence|]. split; [exact Hg'|].
    split; [exact HP'|]. split.
    + rewrite Hdom', Hdom1, (assoc_L (∪)). reflexivity.
    + intros k Hk. rewrite <- (Hag1 k Hk). apply Hag'. rewrite (Hag1 k Hk). exact Hk.
Qed.

(** The removal pass on a tile layer: every key is dropped from the pool
    and a sprite found there is deleted from the batch. *)
Lemma TileLayer_evict_all keys (l : TileLayer) b P :
  layer_sprites l = Some P -> NoDup keys ->
  (forall k, k ∈ keys -> is_Some (P !! k)) ->
  exists l' b' P',
    for_each TileLayer_evict keys (l, b) = Some (l', b', Ok tt) /\
    layer_data l' = layer_data l /\ layer_group l' = layer_group l /\
    layer_sprites l' = Some P' /\
    (forall k, P' !! k = if decide (k ∈ keys) then None else P !! k) /\
    (forall k sp, k ∈ keys -> P !! k = Some (Some sp) -> SpriteDelete sp ∈ b') /\
    (forall op, op ∈ b -> op ∈ b').
Proof.
  revert l b P. induction keys as [|key keys IH]; intros l b P HP Hnd Hin.
  - exists l, b, P. cbn [for_each].
    split; [reflexivity|]. split; [reflexivity|]. split; [reflexivity|].
    split; [exact HP|]. split; [|split].
    + intros k. rewrite decide_False; [reflexivity|]. intros Hk. inversion Hk.
    + intros k sp Hk. inversion Hk.
    + auto.
  - apply NoDup_cons in Hnd as [Hnotin Hnd].
    destruct (Hin key ltac:(left)) as [o Ho].
    cbn [for_each]. unfold TileLayer_evict at 1. rewrite HP, Ho.
    set (l1 := with_sprites l (delete key P)).
    set (b1 := match o with Some sprite => Sprite_delete b sprite | None => b end).
    assert (E : (match o with
                 | Some sprite => Some (l1, Sprite_delete b sprite, Ok tt)
                 | None => Some (l1, b, Ok tt)
                 end : outcome (TileLayer * Batch)) = Some (l1, b1, Ok tt))
      by (destruct o; reflexivity).
    rewrite E.
    destruct (IH l1 b1 (delete key P)) as (l' & b' & P' & E' & Hd & Hg & HP' & Hlk & Hdel & Hmono).
    { reflexivity. }
    { exact Hnd. }
    { intros k Hk. rewrite lookup_delete_ne by (intros <-; contradiction).
      apply Hin. right. exact Hk. }
    exists l', b', P'. split; [exact E'|].
    split; [exact Hd|]. split; [exact Hg|]. split; [exact HP'|].
    assert (Hb1 : forall op, op ∈ b -> op ∈ b1).
    { intros op Hop. unfold b1, Sprite_delete. destruct o; [|exact Hop].
      apply elem_of_app. left. exact Hop. }
    split; [|split].
    + intros k. rewrite Hlk.
      destruct (decide (k ∈ key :: keys)) as [Hk1|Hk1], (decide (k ∈ keys)) as [Hk2|Hk2];
        try reflexivity.
      * apply elem_of_cons in Hk1 as [->|Hk1]; [|contradiction].
        apply lookup_delete_eq.
      * exfalso. apply Hk1. right. exact Hk2.
      * apply lookup_delete_ne. intros <-. apply Hk1. left.
    + intros k sp [->|Hk]%elem_of_cons Hsp.
      * apply Hmono. unfold b1, Sprite_delete.
        assert (o = Some sp) as -> by congruence.
        apply elem_of_app. right. left.
      * apply (Hdel k sp Hk). rewrite lookup_delete_ne; [exact Hsp|].
        intros <-. contradiction.
    + intros op Hop. apply Hmono, Hb1, Hop.
Qed.

Lemma elem_of_viewport_cells xs ys j i :
  (j, i) ∈ viewport_cells xs ys <-> j ∈ ys /\ i ∈ xs.
Proof.
  unfold viewport_cells. rewrite list_elem_of_In, in_flat_map. split.
  - intros (j' & Hj & Hc). apply list_elem_of_In, list_elem_of_fmap in Hc as (i' & [= -> ->] & Hi).
    split; [apply list_elem_of_In, Hj|exact Hi].
  - intros [Hj Hi]. exists j. split; [apply list_elem_of_In, Hj|].
    apply list_elem_of_In, list_elem_of_fmap. eauto.
Qed.

(** On positive tile sizes the two nested [yrange] loops are one loop
    over the pixel positions they meet. *)
Lemma TileLayer_loops_cells (m : Map) (x y w h : Z)
    (st : gset (Z * Z) * TileLayer * Batch) :
  let tw := map_tilewidth (mdata m) in
  let th := map_tileheight (mdata m) in
  0 < tw -> 0 < th ->
  for_yrange y (y + h + th) th (fun j st =>
      match floordiv j th with
      | Raise e => Some (st, Raise e)
      | Ok py =>
          for_yrange x (x + w + tw) tw (fun i st =>
            match floordiv i tw with
            | Raise e => Some (st, Raise e)
            | Ok px => Some (TileLayer_visit m h px py st)
            end) st
      end) st
  = for_each (fun c st => Some (TileLayer_visit m h (snd c / tw) (fst c / th) st))
      (viewport_cells (yrange_list (S (Z.to_nat (x + w + tw - x))) x (x + w + tw) tw)
                      (yrange_list (S (Z.to_nat (y + h + th - y))) y (y + h + th) th))
      st.
Proof.
  intros tw th Htw Hth. unfold for_yrange at 1.
  rewrite yrange_loop_for_each by lia.
  unfold viewport_cells.
  rewrite <- (for_each_nested
                (fun c st => Some (TileLayer_visit m h (snd c / tw) (fst c / th) st))).
  apply for_each_ext. intros j s. unfold floordiv.
  destruct (Z.eqb_spec th 0); [lia|].
  unfold for_yrange. rewrite yrange_loop_for_each by lia.
  apply for_each_ext. intros i s'.
  destruct (Z.eqb_spec tw 0); [lia|]. reflexivity.
Qed.

Lemma elem_of_stepped (x y w h tw th : Z) (c : Z * Z) :
  0 < tw -> 0 < th ->
  c ∈ (list_to_set (cell_coordinate tw th <$>
         viewport_cells (yrange_list (S (Z.to_nat (x + w + tw - x))) x (x + w + tw) tw)
                        (yrange_list (S (Z.to_nat (y + h + th - y))) y (y + h + th) th))
       : gset (Z * Z))
  <-> stepped x y w h tw th c.
Proof.
  intros Htw Hth. rewrite elem_of_list_to_set, list_elem_of_fmap. split.
  - intros ([j i] & -> & Hin). apply elem_of_viewport_cells in Hin as [Hj Hi].
    apply elem_of_yrange_list in Hj as (kb & Hkb & -> & Hjt); [|lia|lia].
    apply elem_of_yrange_list in Hi as (ka & Hka & -> & Hit); [|lia|lia].
    exists ka, kb. repeat split; assumption.
  - intros (ka & kb & Hka & Hkb & Hit & Hjt & ->).
    exists (y + kb * th, x + ka * tw). split; [reflexivity|].
    apply elem_of_viewport_cells. split; apply elem_of_yrange_list; eauto; lia.
Qed.

(** C1: on a visible tile layer of a map with positive tile sizes,
    [set_viewport(x, y, w, h)] returns, and afterwards the keys of the
    sprite pool are exactly the tile coordinates stepped by the tile size
    over [[x, x+w+tw) x [y, y+h+th)]: each of them has an entry (a sprite
    or [None]), an entry that was already there is kept, and every other
    coordinate is gone from the pool, its sprite, if it had one, deleted
    from the batch. *)
Theorem TileLayer_set_viewport_pool (m : Map) (l : TileLayer) (b : Batch)
    (x y w h : Z) (P : pool) (g : Z) :
  0 < map_tilewidth (mdata m) -> 0 < map_tileheight (mdata m) ->
  layer_sprites l = Some P -> layer_group l = Some g ->
  exists l' b' P',
    TileLayer_set_viewport m x y w h (l, b) = Some (l', b', Ok tt) /\
    layer_sprites l' = Some P' /\
    (forall c, is_Some (P' !! c) <->
               stepped x y w h (map_tilewidth (mdata m)) (map_tileheight (mdata m)) c) /\
    (forall c, stepped x y w h (map_tilewidth (mdata m)) (map_tileheight (mdata m)) c ->
               is_Some (P !! c) -> P' !! c = P !! c) /\
    (forall c sp,
        P !! c = Some (Some sp) ->
        ~ stepped x y w h (map_tilewidth (mdata m)) (map_tileheight (mdata m)) c ->
        P' !! c = None /\ SpriteDelete sp ∈ b').
Proof.
  intros Htw Hth HP Hg. unfold TileLayer_set_viewport.
  rewrite (TileLayer_loops_cells m x y w h (∅, l, b) Htw Hth).
  set (tw := map_tilewidth (mdata m)) in *.
  set (th := map_tileheight (mdata m)) in *.
  set (cells := viewport_cells _ _).
  destruct (TileLayer_visit_cells m h tw th cells ∅ l b P g HP Hg)
    as (l1 & b1 & P1 & E1 & Hd1 & Hg1 & HP1 & Hdom1 & Hag1).
  rewrite E1, HP1. clear E1.
  set (C := list_to_set (cell_coordinate tw th <$> cells) : gset (Z * Z)) in *.
  assert (HC : forall c, c ∈ C <-> stepped x y w h tw th c).
  { intros c. apply elem_of_stepped; assumption. }
  assert (Hkeys : forall k, k ∈ unused_keys P1 (∅ ∪ C) <-> is_Some (P1 !! k) /\ k ∉ C).
  { intros k. unfold unused_keys.
    rewrite elem_of_elements, elem_of_difference, elem_of_dom, union_empty_l_L.
    reflexivity. }
  destruct (TileLayer_evict_all (unused_keys P1 (∅ ∪ C)) l1 b1 P1 HP1)
    as (l2 & b2 & P2 & E2 & Hd2 & Hg2 & HP2 & Hlk & Hdel & _).
  { apply NoDup_elements. }
  { intros k Hk. apply Hkeys in Hk. tauto. }
  exists l2, b2, P2. split; [exact E2|]. split; [exact HP2|].
  assert (Hin1 : forall c, is_Some (P1 !! c) <-> is_Some (P !! c) \/ c ∈ C).
  { intros c. rewrite <- !elem_of_dom, Hdom1, elem_of_union. reflexivity. }
  split; [|split].
  - intros c. rewrite <- HC, Hlk.
    destruct (decide (c ∈ unused_keys P1 (∅ ∪ C))) as [Hk|Hk].
    + apply Hkeys in Hk as [_ Hk]. split; [intros [? [=]]|contradiction].
    + rewrite Hkeys in Hk. rewrite Hin1. split.
      * intros Hs. destruct (decide (c ∈ C)) as [|Hc]; [assumption|].
        exfalso. apply Hk. split; [apply Hin1, Hs|exact Hc].
      * auto.
  - intros c Hc Hs. apply HC in Hc. rewrite Hlk.
    rewrite decide_False by (rewrite Hkeys; tauto).
    apply Hag1, Hs.
  - intros c sp Hsp Hc. rewrite <- HC in Hc.
    assert (Hs : is_Some (P !! c)) by (rewrite Hsp; eauto).
    assert (Hk : c ∈ unused_keys P1 (∅ ∪ C)).
    { apply Hkeys. split; [apply Hin1; left; exact Hs|exact Hc]. }
    split.
    + rewrite Hlk, decide_True by exact Hk. reflexivity.
    + apply (Hdel c sp Hk). rewrite (Hag1 c Hs). exact Hsp.
Qed.

Ltac eval_in H :=
  vm_compute in H; try discriminate H; try (injection H as <-).

Lemma TileLayer_set_viewport_pool_witness :
  exists m l P g sp l' b' P',
    Sample.world10_at_origin = Some m /\
    Sample.tile_layer_at m 0 = Some l /\
    layer_sprites l = Some P /\ layer_group l = Some g /\
    P !! (0, 0) = Some (Some sp) /\
    TileLayer_set_viewport m 64 64 32 32 (l, batch m) = Some (l', b', Ok tt) /\
    layer_sprites l' = Some P' /\
    is_Some (P' !! (4, 4)) /\ P' !! (0, 0) = None /\ SpriteDelete sp ∈ b'.
Proof.
  destruct Sample.world10_at_origin as [m|] eqn:E; [|exfalso; eval_in E].
  destruct (Sample.tile_layer_at m 0) as [l|] eqn:El;
    [|exfalso; eval_in E; eval_in El].
  destruct (layer_sprites l) as [P|] eqn:EP;
    [|exfalso; eval_in E; eval_in El; eval_in EP].
  destruct (layer_group l) as [g|] eqn:Eg;
    [|exfalso; eval_in E; eval_in El; eval_in Eg].
  destruct (P !! (0, 0)) as [[sp|]|] eqn:Esp;
    [|exfalso; eval_in E; eval_in El; eval_in EP; eval_in Esp
     |exfalso; eval_in E; eval_in El; eval_in EP; eval_in Esp].
  assert (Hmd : mdata m = Sample.world10) by (clear -E; eval_in E; reflexivity).
  destruct (TileLayer_set_viewport_pool m l (batch m) 64 64 32 32 P g)
    as (l' & b' & P' & Ecall & HP' & Hkeys & _ & Hgone).
  - rewrite Hmd. reflexivity.
  - rewrite Hmd. reflexivity.
  - exact EP.
  - exact Eg.
  - rewrite Hmd in Hkeys, Hgone. cbn [Sample.world10 map_tilewidth map_tileheight] in Hkeys, Hgone.
    destruct (Hgone (0, 0) sp Esp) as [Hnone Hdel].
    { intros (a & b0 & Ha & Hb & Hx & Hy & [= H1 H2]).
      rewrite Z.div_add in H1 by lia. change (64 / 16) with 4 in H1. lia. }
    exists m, l, P, g, sp, l', b', P'. repeat split; try assumption.
    apply Hkeys. exists 0, 0. repeat split; lia.
Defined.

(** * Further properties of the code *)

(** ** Atlas slicing, continued *)

(** X1: an axis laid out as [n] tiles of [t] pixels separated by [s]
    pixels inside a margin of [m] pixels is counted back as [n] tiles. *)
Theorem calculate_columns_layout (n t m s : Z) :
  1 <= n -> 0 < t -> 0 <= s ->
  calculate_columns (n * t + s * (n - 1) + 2 * m) t m s = Ok n.
Proof.
  intros Hn Ht Hs. unfold calculate_columns, floordiv. cbn zeta.
  replace (n * t + s * (n - 1) + 2 * m - m * 2) with (t + (n - 1) * (t + s)) by lia.
  destruct (Z.ltb_spec (t + (n - 1) * (t + s)) t); [nia|].
  destruct (Z.eqb_spec (t + (n - 1) * (t + s)) t) as [E|E].
  - f_equal. nia.
  - destruct (Z.eqb_spec (t + s) 0); [lia|]. cbn [rbind].
    replace (t + (n - 1) * (t + s) - t) with ((n - 1) * (t + s)) by lia.
    rewrite Z.div_mul by lia.
    destruct (Z.eqb_spec ((n - 1 + 1) * t + s * (n - 1 + 1 - 1)) (t + (n - 1) * (t + s)));
      [f_equal; lia|lia].
Qed.

Lemma calculate_columns_layout_witness :
  calculate_columns (3 * 32 + 1 * (3 - 1) + 2 * 1) 32 1 1 = Ok 3.
Proof. apply calculate_columns_layout; lia. Defined.

(** Passing the margin or stripping it beforehand is the same. *)
Lemma calculate_columns_margin L t m s :
  calculate_columns (L - m * 2) t 0 s = calculate_columns L t m s.
Proof. unfold calculate_columns. cbn zeta. rewrite Z.sub_0_r. reflexivity. Qed.

(** X2: when the atlas image has the size the tileset declares, the grid
    cut out of the image has the rows and columns computed from the
    declaration, and every cell of the tileset is a texture of the grid. *)
Theorem Tileset_grid_matches (res : Resources) (data : TilesetData) (t : Tileset) :
  Tileset_init res data = Ok t ->
  res (basename (ts_image data)) = Some (ts_imagewidth data, ts_imageheight data) ->
  grid_rows (tileset_texture t) = tileset_rows t /\
  grid_columns (tileset_texture t) = tileset_columns t /\
  forall row col,
    0 <= row < tileset_rows t -> 0 <= col < tileset_columns t ->
    Tileset_getitem t (row, col) =
      Ok {| tex_image := tileset_image t; tex_row := row; tex_col := col |}.
Proof.
  unfold Tileset_init, get_texture_sequence. intros Hinit Hres. rewrite Hres in Hinit.
  rewrite !calculate_columns_margin in Hinit.
  destruct (calculate_columns (ts_imagewidth data) _ _ _) as [columns|];
    cbn [rbind] in Hinit; [|discriminate].
  destruct (calculate_columns (ts_imageheight data) _ _ _) as [rows|];
    cbn [rbind] in Hinit; [|discriminate].
  injection Hinit as <-. cbn. split; [reflexivity|]. split; [reflexivity|].
  intros row col Hrow Hcol. unfold Tileset_getitem, TextureGrid_getitem. cbn.
  destruct (Z.leb_spec 0 row), (Z.leb_spec 0 col), (Z.ltb_spec row rows),
    (Z.ltb_spec col columns); try lia. reflexivity.
Qed.

Lemma Tileset_grid_matches_witness :
  exists t,
    Tileset_init Sample.images Sample.atlas = Ok t /\
    grid_rows (tileset_texture t) = 2 /\ grid_columns (tileset_texture t) = 2 /\
    Tileset_getitem t (1, 0) = Ok (Sample.cell 1 0).
Proof.
  destruct (Tileset_init Sample.images Sample.atlas) as [t|] eqn:E;
    [|vm_compute in E; discriminate].
  destruct (Tileset_grid_matches Sample.images Sample.atlas t E eq_refl) as (Hr & Hc & Hcell).
  assert (Ht : tileset_rows t = 2 /\ tileset_columns t = 2 /\
               tileset_image t = "atlas.png"%string)
    by (vm_compute in E; injection E as <-; repeat split).
  destruct Ht as (Hr2 & Hc2 & Hi).
  exists t. split; [reflexivity|]. split; [congruence|]. split; [congruence|].
  rewrite (Hcell 1 0) by lia. rewrite Hi. reflexivity.
Defined.

(** ** Tile lookup, continued *)

(** X3: [layer[x, y]] reads the flat index [x + y*width] of the data: a
    position of the array gives its tile, a negative index down to
    [-len] counts from the end, anything else is an [IndexError]; on a
    layer of [width*height] tiles every coordinate inside the grid is
    found. *)
Theorem TileLayer_getitem_bounds (md : MapData) (l : TileLayer) (d : list Z) (x y : Z) :
  layer_tiles (layer_data l) = Some d ->
  let k := x + y * map_width md in
  let n := Z.of_nat (length d) in
  (0 <= k < n ->
     exists gid, d !! Z.to_nat k = Some gid /\ TileLayer_getitem md l (x, y) = Ok gid) /\
  (- n <= k < 0 ->
     exists gid, d !! Z.to_nat (k + n) = Some gid /\ TileLayer_getitem md l (x, y) = Ok gid) /\
  (k < - n \/ n <= k -> TileLayer_getitem md l (x, y) = Raise IndexError) /\
  (n = map_width md * map_height md ->
   0 <= x < map_width md -> 0 <= y < map_height md ->
     exists gid, TileLayer_getitem md l (x, y) = Ok gid).
Proof.
  intros Hd k n. unfold TileLayer_getitem. rewrite Hd. cbn [getkey rbind]. unfold py_int.
  fold k. destruct (py_list_get_spec d k) as (Hin & Hneg & Hout). fold n in Hin, Hneg, Hout.
  repeat split; try assumption.
  intros Hn Hx Hy. destruct Hin as (gid & _ & Hg); [unfold k; nia|]. eauto.
Qed.

Lemma TileLayer_getitem_bounds_witness :
  exists m l,
    Sample.load Sample.twins = Some m /\ Sample.tile_layer_at m 0 = Some l /\
    TileLayer_getitem (mdata m) l (1, 1) = Ok 4 /\
    TileLayer_getitem (mdata m) l (0, 2) = Raise IndexError.
Proof.
  destruct (Sample.load Sample.twins) as [m|] eqn:E; [|vm_compute in E; discriminate].
  destruct (Sample.tile_layer_at m 0) as [l|] eqn:El;
    [|exfalso; vm_compute in E; injection E as <-; vm_compute in El; discriminate].
  assert (Hd : layer_tiles (layer_data l) = Some [1; 2; 3; 4] /\ map_width (mdata m) = 2).
  { vm_compute in E. injection E as <-. vm_compute in El. injection El as <-. split; reflexivity. }
  destruct Hd as [Hd Hw].
  destruct (TileLayer_getitem_bounds (mdata m) l [1; 2; 3; 4] 1 1 Hd) as ((gid & Hlk & Hg) & _).
  { rewrite Hw. cbn. lia. }
  destruct (TileLayer_getitem_bounds (mdata m) l [1; 2; 3; 4] 0 2 Hd) as (_ & _ & Hout & _).
  exists m, l. split; [reflexivity|]. split; [exact El|]. split.
  - rewrite Hg. rewrite Hw in Hlk. vm_compute in Hlk. congruence.
  - apply Hout. rewrite Hw. cbn. lia.
Defined.

(** ** The level: tile indices and pixel positions *)

(** X4: the pixel position of a tile index converts back to that index:
    [tile_index_to_position] gives column [index mod width] and row
    [index // width] scaled by the tile size, and
    [position_to_tile_index] of that position is [index]. *)
Theorem tile_index_roundtrip (lv : Level) (index : Z) :
  0 < tm_width (level_tiles lv) ->
  0 < tm_tilewidth (level_tiles lv) -> 0 < tm_tileheight (level_tiles lv) ->
  index < Z.of_nat (length (level_collision_tiles lv)) ->
  exists x y,
    tile_index_to_position lv index = Ok (x, y) /\
    x = index mod tm_width (level_tiles lv) * tm_tilewidth (level_tiles lv) /\
    y = index / tm_width (level_tiles lv) * tm_tileheight (level_tiles lv) /\
    position_to_tile_index lv x y = Ok index.
Proof.
  intros Hw Htw Hth Hlen.
  unfold tile_index_to_position, position_to_tile_index, floordiv, py_int.
  destruct (Z.eqb_spec (tm_width (level_tiles lv)) 0); [lia|]. cbn [rbind].
  pose proof (Z.div_mod index (tm_width (level_tiles lv)) ltac:(lia)) as Hdm.
  replace (index - index / tm_width (level_tiles lv) * tm_width (level_tiles lv))
    with (index mod tm_width (level_tiles lv)) by lia.
  eexists _, _. split; [reflexivity|]. split; [reflexivity|]. split; [reflexivity|].
  destruct (Z.eqb_spec (tm_tileheight (level_tiles lv)) 0); [lia|].
  destruct (Z.eqb_spec (tm_tilewidth (level_tiles lv)) 0); [lia|]. cbn [rbind].
  rewrite !Z.div_mul by lia.
  replace (index / tm_width (level_tiles lv) * tm_width (level_tiles lv)
           + index mod tm_width (level_tiles lv)) with index by lia.
  destruct (Z.ltb_spec index (Z.of_nat (length (level_collision_tiles lv)))); [reflexivity|lia].
Qed.

Lemma tile_index_roundtrip_witness :
  tile_index_to_position Sample.level32 4 = Ok (16, 16) /\
  position_to_tile_index Sample.level32 16 16 = Ok 4.
Proof.
  destruct (tile_index_roundtrip Sample.level32 4) as (x & y & Hp & -> & -> & Hi);
    [reflexivity|reflexivity|reflexivity|reflexivity|].
  split; [exact Hp|exact Hi].
Defined.

(** X5: a position inside a world of [width*height] tiles is always
    resolved: [collision_tile_at] returns the gid stored for the tile of
    row [y // tileheight] and column [x // tilewidth]. *)
Theorem collision_tile_at_in_world (lv : Level) (x y : Z) :
  0 < tm_tilewidth (level_tiles lv) -> 0 < tm_tileheight (level_tiles lv) ->
  Z.of_nat (length (level_collision_tiles lv))
    = tm_width (level_tiles lv) * tm_height (level_tiles lv) ->
  0 <= x < tm_width (level_tiles lv) * tm_tilewidth (level_tiles lv) ->
  0 <= y < tm_height (level_tiles lv) * tm_tileheight (level_tiles lv) ->
  exists gid,
    collision_tile_at lv x y = Ok gid /\
    level_collision_tiles lv
      !! Z.to_nat (y / tm_tileheight (level_tiles lv) * tm_width (level_tiles lv)
                   + x / tm_tilewidth (level_tiles lv)) = Some gid.
Proof.
  intros Htw Hth Hlen Hx Hy.
  unfold collision_tile_at, position_to_tile_index, floordiv, py_int.
  destruct (Z.eqb_spec (tm_tileheight (level_tiles lv)) 0); [lia|].
  destruct (Z.eqb_spec (tm_tilewidth (level_tiles lv)) 0); [lia|]. cbn [rbind].
  set (qx := x / tm_tilewidth (level_tiles lv)).
  set (qy := y / tm_tileheight (level_tiles lv)).
  assert (Hqx : 0 <= qx < tm_width (level_tiles lv)).
  { unfold qx. split; [apply Z.div_pos; lia|apply Z.div_lt_upper_bound; lia]. }
  assert (Hqy : 0 <= qy < tm_height (level_tiles lv)).
  { unfold qy. split; [apply Z.div_pos; lia|apply Z.div_lt_upper_bound; lia]. }
  assert (Hidx : 0 <= qy * tm_width (level_tiles lv) + qx
                 < Z.of_nat (length (level_collision_tiles lv))) by nia.
  destruct (Z.ltb_spec (qy * tm_width (level_tiles lv) + qx)
              (Z.of_nat (length (level_collision_tiles lv)))); [|lia].
  cbn [rbind].
  destruct (py_list_get_spec (level_collision_tiles lv)
              (qy * tm_width (level_tiles lv) + qx)) as (Hin & _).
  destruct (Hin Hidx) as (gid & Hlk & Hget). eauto.
Qed.

Lemma collision_tile_at_in_world_witness :
  collision_tile_at Sample.level32 20 5 = Ok 7.
Proof.
  destruct (collision_tile_at_in_world Sample.level32 20 5) as (gid & Hget & Hlk);
    [reflexivity|reflexivity|reflexivity|cbn; lia|cbn; lia|].
  vm_compute in Hlk. congruence.
Defined.

(** X6: [position_to_tile_index] only checks the index from above.  With
    [index = (y // tileheight) * width + x // tilewidth]: an index of at
    least [len] is an [AssertionError]; a negative index down to [-len]
    passes the check and [collision_tile_at] reads the list from its end;
    below [-len] the lookup is an [IndexError]. *)
Theorem collision_tile_at_outside (lv : Level) (x y : Z) :
  tm_tilewidth (level_tiles lv) <> 0 -> tm_tileheight (level_tiles lv) <> 0 ->
  let index := y / tm_tileheight (level_tiles lv) * tm_width (level_tiles lv)
               + x / tm_tilewidth (level_tiles lv) in
  let n := Z.of_nat (length (level_collision_tiles lv)) in
  (n <= index -> collision_tile_at lv x y = Raise AssertionError) /\
  (- n <= index < 0 ->
     position_to_tile_index lv x y = Ok index /\
     exists gid, level_collision_tiles lv !! Z.to_nat (index + n) = Some gid /\
                 collision_tile_at lv x y = Ok gid) /\
  (index < - n -> collision_tile_at lv x y = Raise IndexError).
Proof.
  intros Htw Hth index n.
  unfold collision_tile_at, position_to_tile_index, floordiv, py_int.
  destruct (Z.eqb_spec (tm_tileheight (level_tiles lv)) 0); [contradiction|].
  destruct (Z.eqb_spec (tm_tilewidth (level_tiles lv)) 0); [contradiction|]. cbn [rbind].
  fold index. fold n.
  destruct (py_list_get_spec (level_collision_tiles lv) index) as (_ & Hneg & Hout).
  fold n in Hneg, Hout.
  destruct (Z.ltb_spec index n); cbn [rbind].
  - split; [lia|]. split; [|intros; apply Hout; lia].
    intros Hi. split; [reflexivity|]. apply Hneg, Hi.
  - split; [reflexivity|]. split; lia.
Qed.

Lemma collision_tile_at_outside_witness :
  position_to_tile_index Sample.level32 (-1) 0 = Ok (-1) /\
  collision_tile_at Sample.level32 (-1) 0 = Ok 9 /\
  collision_tile_at Sample.level32 0 32 = Raise AssertionError.
Proof.
  destruct (collision_tile_at_outside Sample.level32 (-1) 0) as (_ & Hneg & _);
    [discriminate|discriminate|].
  destruct (collision_tile_at_outside Sample.level32 0 32) as (Habove & _);
    [discriminate|discriminate|].
  destruct Hneg as (Hidx & gid & Hlk & Hget); [split; vm_compute; congruence|].
  split; [exact Hidx|]. split.
  - rewrite Hget. vm_compute in Hlk. congruence.
  - apply Habove. vm_compute. congruence.
Defined.

(** ** The gid tables, continued *)

Section table_domain.
Context {C St V : Type} (step : St -> C -> result St)
        (table : St -> gmap Z V) (key : C -> Z) (val : C -> result V).
Hypothesis step_insert : forall st c st',
  step st c = Ok st' -> exists v, val c = Ok v /\ table st' = <[key c := v]> (table st).

(** Whatever the table holds after the loop was there before or was
    written by a cell of the loop. *)
Lemma table_origin cs st st' k v :
  foldM step cs st = Ok st' ->
  table st' !! k = Some v ->
  table st !! k = Some v \/ exists c, c ∈ cs /\ key c = k /\ val c = Ok v.
Proof.
  revert st. induction cs as [|c cs IH]; intros st; cbn [foldM].
  - intros [= <-]. auto.
  - destruct (step st c) as [st1|e] eqn:E; cbn [rbind]; [|discriminate].
    intros Hf Hk. destruct (step_insert _ _ _ E) as (v' & Hv' & Ht).
    destruct (IH st1 Hf Hk) as [H1|(c' & Hc' & Hkc' & Hvc')].
    + rewrite Ht in H1. destruct (decide (key c = k)) as [Hkc|Hkc].
      * right. exists c. split; [left|]. split; [exact Hkc|].
        rewrite <- Hkc, lookup_insert_eq in H1. congruence.
      * left. rewrite lookup_insert_ne in H1 by exact Hkc. exact H1.
    + right. exists c'. split; [right; exact Hc'|]. auto.
Qed.

Lemma table_some_kept cs st st' k :
  foldM step cs st = Ok st' -> is_Some (table st !! k) -> is_Some (table st' !! k).
Proof.
  revert st. induction cs as [|c cs IH]; intros st; cbn [foldM].
  - intros [= <-]. auto.
  - destruct (step st c) as [st1|e] eqn:E; cbn [rbind]; [|discriminate].
    intros Hf Hk. destruct (step_insert _ _ _ E) as (v' & Hv' & Ht).
    apply (IH st1 Hf). rewrite Ht. destruct (decide (key c = k)) as [<-|Hkc].
    + rewrite lookup_insert_eq. eauto.
    + rewrite lookup_insert_ne by exact Hkc. exact Hk.
Qed.

Lemma table_covered cs st st' c :
  foldM step cs st = Ok st' -> c ∈ cs -> is_Some (table st' !! key c).
Proof.
  revert st. induction cs as [|c0 cs IH]; intros st; cbn [foldM]; [intros _ Hin; inversion Hin|].
  destruct (step st c0) as [st1|e] eqn:E; cbn [rbind]; [|discriminate].
  intros Hf [->|Hin]%elem_of_cons.
  - destruct (step_insert _ _ _ E) as (v' & Hv' & Ht).
    apply (table_some_kept cs st1 st' _ Hf). rewrite Ht, lookup_insert_eq. eauto.
  - apply (IH st1 Hf Hin).
Qed.
End table_domain.

Section table_optional.
Context {C St V : Type} (step : St -> C -> result St)
        (table : St -> gmap Z V) (key : C -> Z) (oval : C -> option V).
Hypothesis step_optional : forall st c st',
  step st c = Ok st' ->
  table st' = match oval c with
              | Some v => <[key c := v]> (table st)
              | None => table st
              end.

Lemma optional_untouched cs st st' k :
  foldM step cs st = Ok st' ->
  (forall c, c ∈ cs -> key c = k -> oval c = None) ->
  table st' !! k = table st !! k.
Proof.
  revert st. induction cs as [|c cs IH]; intros st; cbn [foldM].
  - intros [= <-]. auto.
  - destruct (step st c) as [st1|e] eqn:E; cbn [rbind]; [|discriminate].
    intros Hf Hnone. rewrite (IH st1 Hf) by (intros c' Hc'; apply Hnone; right; exact Hc').
    rewrite (step_optional _ _ _ E).
    destruct (oval c) as [v|] eqn:Ev; [|reflexivity].
    apply lookup_insert_ne. intros Hk.
    specialize (Hnone c ltac:(left) Hk). congruence.
Qed.

Lemma optional_kept cs st st' k v :
  foldM step cs st = Ok st' ->
  table st !! k = Some v ->
  (forall c, c ∈ cs -> key c = k -> oval c = None \/ oval c = Some v) ->
  table st' !! k = Some v.
Proof.
  revert st. induction cs as [|c cs IH]; intros st; cbn [foldM].
  - intros [= <-]. auto.
  - destruct (step st c) as [st1|e] eqn:E; cbn [rbind]; [|discriminate].
    intros Hf Hk Hsame. apply (IH st1 Hf).
    + rewrite (step_optional _ _ _ E).
      destruct (oval c) as [v'|] eqn:Ev; [|exact Hk].
      destruct (decide (key c = k)) as [Hkc|Hkc].
      * destruct (Hsame c ltac:(left) Hkc) as [?|Hv]; [congruence|].
        rewrite <- Hkc, lookup_insert_eq. congruence.
      * rewrite lookup_insert_ne by exact Hkc. exact Hk.
    + intros c' Hc'. apply Hsame. right. exact Hc'.
Qed.

Lemma optional_written pre c post st st' v :
  foldM step (pre ++ c :: post) st = Ok st' ->
  oval c = Some v ->
  (forall c', c' ∈ post -> key c' = key c -> oval c' = None \/ oval c' = Some v) ->
  table st' !! key c = Some v.
Proof.
  rewrite foldM_app.
  destruct (foldM step pre st) as [st0|e]; cbn [rbind foldM]; [|discriminate].
  destruct (step st0 c) as [st1|e] eqn:E; cbn [rbind]; [|discriminate].
  intros Hf Hv Hsame.
  apply (optional_kept post st1 st' (key c) v Hf); [|exact Hsame].
  rewrite (step_optional _ _ _ E), Hv. apply lookup_insert_eq.
Qed.
End table_optional.

Lemma Map_index_step_offset st c st' :
  Map_index_step st c = Ok st' ->
  snd st' = match (let '(t, _, _) := c in ts_tileoffset (tileset_data t)) with
            | Some off => <[(let '(t, y, x) := c in Tileset_gid t y x) := off]> (snd st)
            | None => snd st
            end.
Proof.
  destruct c as [[t y] x], st as [ti oi]. unfold Map_index_step, Map_index_cell.
  destruct (Tileset_getitem t _) as [tex|e]; cbn [rbind]; [|discriminate].
  destruct (ts_tileoffset _); intros [= <-]; reflexivity.
Qed.

Lemma Map_init_indexes res groups data m groups' :
  Map_init res groups data = Ok (m, groups') ->
  foldM Map_index_step (flat_map Tileset_cells (odict_values (tilesets m))) (∅, ∅)
    = Ok (texture_index m, tileoffset_index m).
Proof.
  unfold Map_init.
  destruct (Map_init_tilesets res data) as [tss|]; cbn [rbind]; [|discriminate].
  destruct (foldM (Map_init_layer data) _ _) as [[[[ls tls] ogs] g']|]; cbn [rbind];
    [|discriminate].
  destruct (foldM Map_index_tileset _ _) as [[ti oi]|] eqn:E; cbn [rbind]; [|discriminate].
  intros [= <- <-]. cbn. rewrite <- Map_index_tilesets_cells. exact E.
Qed.

Lemma elem_of_tileset_cells ts c :
  c ∈ flat_map Tileset_cells ts <->
  exists t y x, c = (t, y, x) /\ t ∈ ts /\
                0 <= y < tileset_rows t /\ 0 <= x < tileset_columns t.
Proof.
  rewrite list_elem_of_In, in_flat_map. split.
  - intros (t & Ht & Hc). apply list_elem_of_In, elem_of_Tileset_cells in Hc
      as (y & x & -> & Hy & Hx).
    exists t, y, x. split; [reflexivity|]. split; [apply list_elem_of_In, Ht|auto].
  - intros (t & y & x & -> & Ht & Hy & Hx). exists t. split; [apply list_elem_of_In, Ht|].
    apply list_elem_of_In, elem_of_Tileset_cells. eauto.
Qed.

(** X7: after construction [get_texture] knows exactly the global ids of
    the cells of the tilesets: a texture it returns is the texture of
    such a cell, every such cell has a texture, and any other gid (the
    empty tile 0, say) is a [KeyError]. *)
Theorem get_texture_known (res : Resources) (groups groups' : Z) (data : MapData)
    (m : Map) (gid : Z) :
  Map_init res groups data = Ok (m, groups') ->
  let is_cell := exists t row col,
      t ∈ odict_values (tilesets m) /\
      0 <= row < tileset_rows t /\ 0 <= col < tileset_columns t /\
      Tileset_gid t row col = gid in
  (forall tex, get_texture m gid = Ok tex ->
     exists t row col,
       t ∈ odict_values (tilesets m) /\
       0 <= row < tileset_rows t /\ 0 <= col < tileset_columns t /\
       Tileset_gid t row col = gid /\
       Tileset_getitem t (tileset_rows t - 1 - row, col) = Ok tex) /\
  (is_cell -> exists tex, get_texture m gid = Ok tex) /\
  (~ is_cell -> get_texture m gid = Raise KeyError).
Proof.
  intros Hinit is_cell. apply Map_init_indexes in Hinit.
  pose (key := fun c : Tileset * Z * Z => let '(t, y, x) := c in Tileset_gid t y x).
  pose (val := fun c : Tileset * Z * Z =>
                 let '(t, y, x) := c in Tileset_getitem t (tileset_rows t - 1 - y, x)).
  assert (Hfrom : forall tex, get_texture m gid = Ok tex ->
     exists t row col,
       t ∈ odict_values (tilesets m) /\
       0 <= row < tileset_rows t /\ 0 <= col < tileset_columns t /\
       Tileset_gid t row col = gid /\
       Tileset_getitem t (tileset_rows t - 1 - row, col) = Ok tex).
  { intros tex Hget. unfold get_texture in Hget.
    destruct (texture_index m !! gid) as [tex'|] eqn:Hlk; [|discriminate].
    injection Hget as ->.
    destruct (table_origin Map_index_step fst key val Map_index_step_insert
                _ _ _ gid tex Hinit Hlk) as [Hempty|(c & Hc & Hk & Hv)].
    - cbn in Hempty. rewrite lookup_empty in Hempty. discriminate.
    - apply elem_of_tileset_cells in Hc as (t & y & x & -> & Ht & Hy & Hx).
      exists t, y, x. cbn in Hk, Hv. auto. }
  split; [exact Hfrom|]. split.
  - intros (t & row & col & Ht & Hrow & Hcol & Hgid).
    assert (Hc : (t, row, col) ∈ flat_map Tileset_cells (odict_values (tilesets m))).
    { apply elem_of_tileset_cells. exists t, row, col. auto. }
    destruct (table_covered Map_index_step fst key val Map_index_step_insert
                _ _ _ _ Hinit Hc) as [tex Hlk].
    cbn in Hlk. rewrite Hgid in Hlk. exists tex. unfold get_texture. rewrite Hlk. reflexivity.
  - intros Hno. unfold get_texture.
    destruct (texture_index m !! gid) as [tex|] eqn:Hlk; [|reflexivity].
    exfalso. apply Hno. destruct (Hfrom tex) as (t & row & col & Ht & Hr & Hc & Hg & _).
    + unfold get_texture. rewrite Hlk. reflexivity.
    + exists t, row, col. auto.
Qed.

Lemma get_texture_known_witness :
  exists m,
    Sample.load Sample.atlas_only = Some m /\
    get_texture m 0 = Raise KeyError /\ get_texture m 5 = Raise KeyError /\
    exists tex, get_texture m 4 = Ok tex.
Proof.
  destruct (Map_init Sample.images 0 Sample.atlas_only) as [[m g]|] eqn:E;
    [|vm_compute in E; discriminate].
  assert (Hts : exists t, odict_values (tilesets m) = [t] /\ tileset_rows t = 2 /\
                          tileset_columns t = 2 /\ ts_firstgid (tileset_data t) = 1).
  { vm_compute in E. injection E as <- <-. eexists. repeat split. }
  destruct Hts as (t & Hts & Hr & Hc & Hf).
  assert (Hno : forall gid, (gid < 1 \/ 4 < gid) ->
            ~ exists t row col, t ∈ odict_values (tilesets m) /\
                0 <= row < tileset_rows t /\ 0 <= col < tileset_columns t /\
                Tileset_gid t row col = gid).
  { intros gid Hg (t' & row & col & Ht' & Hrow & Hcol & Hgid).
    rewrite Hts in Ht'. apply list_elem_of_singleton in Ht' as ->.
    unfold Tileset_gid in Hgid. rewrite Hr in Hrow. rewrite Hc in Hgid, Hcol. lia. }
  exists m. unfold Sample.load. rewrite E. split; [reflexivity|].
  split; [|split].
  - apply (get_texture_known _ _ _ _ m 0 E). apply Hno. lia.
  - apply (get_texture_known _ _ _ _ m 5 E). apply Hno. lia.
  - apply (get_texture_known _ _ _ _ m 4 E).
    exists t, 1, 1. rewrite Hts. split; [left|]. unfold Tileset_gid. lia.
Defined.

(** X8: [get_tileoffset] gives the offset declared by the tileset of a
    cell (when no later tileset has a cell with the same global id), and
    [(0, 0)] for a gid that is a cell of no tileset declaring an offset. *)
Theorem get_tileoffset_cells (res : Resources) (groups groups' : Z) (data : MapData)
    (m : Map) :
  Map_init res groups data = Ok (m, groups') ->
  (forall pre name t post row col off,
      tilesets m = pre ++ (name, t) :: post ->
      0 <= row < tileset_rows t -> 0 <= col < tileset_columns t ->
      ts_tileoffset (tileset_data t) = Some off ->
      (forall t' row' col',
          t' ∈ odict_values post ->
          0 <= row' < tileset_rows t' -> 0 <= col' < tileset_columns t' ->
          Tileset_gid t' row' col' <> Tileset_gid t row col) ->
      get_tileoffset m (Tileset_gid t row col) = off) /\
  (forall gid,
      (forall t row col,
          t ∈ odict_values (tilesets m) ->
          0 <= row < tileset_rows t -> 0 <= col < tileset_columns t ->
          Tileset_gid t row col = gid -> ts_tileoffset (tileset_data t) = None) ->
      get_tileoffset m gid = (0, 0)).
Proof.
  intros Hinit. apply Map_init_indexes in Hinit.
  pose (key := fun c : Tileset * Z * Z => let '(t, y, x) := c in Tileset_gid t y x).
  pose (oval := fun c : Tileset * Z * Z =>
                  let '(t, _, _) := c in ts_tileoffset (tileset_data t)).
  split.
  - intros pre name t post row col off Hts Hrow Hcol Hoff Hfresh.
    unfold odict_values in Hinit. rewrite Hts, map_app in Hinit. cbn [map snd] in Hinit.
    rewrite flat_map_app in Hinit. cbn [flat_map] in Hinit.
    assert (Hc : (t, row, col) ∈ Tileset_cells t) by (apply elem_of_Tileset_cells; eauto).
    apply list_elem_of_split in Hc as (p1 & p2 & Hsplit).
    rewrite Hsplit, <- !app_assoc, <- app_comm_cons, app_assoc in Hinit.
    unfold get_tileoffset.
    assert (Hlk : tileoffset_index m !! Tileset_gid t row col = Some off);
      [|rewrite Hlk; reflexivity].
    apply (optional_written Map_index_step snd key oval Map_index_step_offset
             _ (t, row, col) _ _ _ off Hinit Hoff).
    intros [[t' y'] x'] Hin Hk. cbn in Hk |- *.
    apply elem_of_app in Hin as [Hin|Hin].
    + assert (Hin' : (t', y', x') ∈ Tileset_cells t)
        by (rewrite Hsplit; apply elem_of_app; right; right; exact Hin).
      apply elem_of_Tileset_cells in Hin' as (y & x & [= -> -> ->] & _). auto.
    + exfalso. apply elem_of_tileset_cells in Hin as (t'' & y & x & [= -> -> ->] & Ht'' & Hy & Hx).
      apply (Hfresh t'' y x Ht'' Hy Hx Hk).
  - intros gid Hnone. unfold get_tileoffset.
    assert (Hlk : tileoffset_index m !! gid = (∅ : gmap Z (Z * Z)) !! gid);
      [|rewrite Hlk, lookup_empty; reflexivity].
    apply (optional_untouched Map_index_step snd key oval Map_index_step_offset
             _ _ _ gid Hinit).
    intros c Hc Hk. apply elem_of_tileset_cells in Hc as (t & y & x & -> & Ht & Hy & Hx).
    cbn in Hk |- *. eauto.
Qed.

Lemma get_tileoffset_cells_witness :
  exists m,
    Sample.load Sample.shifted_only = Some m /\
    get_tileoffset m (0 + 0 * 2 + 1) = (3, -2) /\ get_tileoffset m 99 = (0, 0).
Proof.
  destruct (Map_init Sample.images 0 Sample.shifted_only) as [[m g]|] eqn:E;
    [|vm_compute in E; discriminate].
  assert (Hts : exists t, tilesets m = [("shifted"%string, t)] /\ tileset_rows t = 2 /\
                          tileset_columns t = 2 /\ ts_firstgid (tileset_data t) = 1 /\
                          ts_tileoffset (tileset_data t) = Some (3, -2)).
  { vm_compute in E. injection E as <- <-. eexists. repeat split. }
  destruct Hts as (t & Hts & Hr & Hc & Hf & Ho).
  destruct (get_tileoffset_cells _ _ _ _ m E) as [Hcell Hnone].
  exists m. unfold Sample.load. rewrite E. split; [reflexivity|]. split.
  - replace (0 + 0 * 2 + 1) with (Tileset_gid t 0 0) by (unfold Tileset_gid; lia).
    apply (Hcell [] "shifted"%string t [] 0 0 (3, -2) Hts); [lia|lia|exact Ho|].
    intros t' row' col' Hin. inversion Hin.
  - apply Hnone. intros t' row col Hin Hrow Hcol Hgid. exfalso.
    rewrite Hts in Hin. cbn in Hin. apply list_elem_of_singleton in Hin. subst t'.
    unfold Tileset_gid in Hgid. rewrite Hr in Hrow. rewrite Hc in Hgid, Hcol. lia.
Defined.

(** ** The layers built by the constructor *)

Lemma ObjectGroup_index_objects_base md objs g0 g :
  foldM (ObjectGroup_index_object md) objs g0 = Ok g ->
  og_base g = og_base g0 /\ og_objects g = og_objects g0 ++ objs.
Proof.
  revert g0. induction objs as [|o objs IH]; intros g0; cbn [foldM].
  - intros [= <-]. rewrite app_nil_r. auto.
  - destruct (ObjectGroup_index_object md g0 o) as [g1|] eqn:E; cbn [rbind]; [|discriminate].
    intros Hf. destruct (IH g1 Hf) as [Hb Ho]. rewrite Hb, Ho.
    unfold ObjectGroup_index_object in E.
    destruct (floordiv _ (map_tilewidth md)); cbn [rbind] in E; [|discriminate].
    destruct (floordiv _ (map_tileheight md)); cbn [rbind] in E; [|discriminate].
    injection E as <-. cbn. rewrite <- app_assoc. auto.
Qed.

Lemma BaseLayer_init_spec ld g0 :
  layer_data (fst (BaseLayer_init ld g0)) = ld /\
  layer_group (fst (BaseLayer_init ld g0)) = (if layer_visible ld then Some g0 else None) /\
  layer_sprites (fst (BaseLayer_init ld g0)) = (if layer_visible ld then Some ∅ else None) /\
  snd (BaseLayer_init ld g0) = g0 + (if layer_visible ld then 1 else 0).
Proof.
  unfold BaseLayer_init. destruct (layer_visible ld); cbn; repeat split; lia.
Qed.

Lemma ObjectGroup_init_base md ld g0 g g1 :
  ObjectGroup_init md ld g0 = Ok (g, g1) ->
  og_base g = fst (BaseLayer_init ld g0) /\ g1 = snd (BaseLayer_init ld g0).
Proof.
  unfold ObjectGroup_init. destruct (BaseLayer_init ld g0) as [base g'].
  destruct (layer_objects ld) as [objs|]; cbn [getkey rbind]; [|discriminate].
  destruct (foldM _ objs _) as [g2|] eqn:E; cbn [rbind]; [|discriminate].
  intros [= <- <-]. cbn. apply ObjectGroup_index_objects_base in E as [Hb _].
  rewrite Hb. auto.
Qed.

(** One round of the constructor's loop over the layers. *)
Lemma Map_init_layer_spec data ls tls ogs g0 ld st' :
  Map_init_layer data (ls, tls, ogs, g0) ld = Ok st' ->
  exists L,
    st' = (ls ++ [L],
           (if is_tilelayer ld then <[layer_name ld := length ls]> tls else tls),
           (if is_objectgroup ld then <[layer_name ld := length ls]> ogs else ogs),
           snd (BaseLayer_init ld g0)) /\
    Layer_base L = fst (BaseLayer_init ld g0) /\
    (is_tilelayer ld = true -> exists t, L = LTile t) /\
    (is_tilelayer ld = false -> exists g, L = LObject g).
Proof.
  unfold Map_init_layer, is_objectgroup, is_tilelayer. rewrite in_pair_false.
  destruct (String.eqb (layer_type ld) "tilelayer").
  - destruct (BaseLayer_init ld g0) as [l g'] eqn:E. intros [= <-].
    exists (LTile l). cbn. repeat split; eauto. discriminate.
  - destruct (String.eqb (layer_type ld) "objectgroup"); [|discriminate].
    destruct (ObjectGroup_init data ld g0) as [[g g']|] eqn:E; cbn [rbind]; [|discriminate].
    intros [= <-]. apply ObjectGroup_init_base in E as [Hb ->].
    exists (LObject g). cbn. repeat split; eauto. discriminate.
Qed.

Lemma visible_count_cons ld lds :
  visible_count (ld :: lds) = (if layer_visible ld then 1 else 0) + visible_count lds.
Proof. unfold visible_count. cbn. destruct (layer_visible ld); cbn; lia. Qed.

Lemma visible_count_take i lds ld :
  lds !! i = Some ld ->
  0 <= visible_count (take i lds) /\
  visible_count (take i lds) + (if layer_visible ld then 1 else 0) <= visible_count lds.
Proof.
  revert i. induction lds as [|ld0 lds IH]; intros i Hi; [destruct i; discriminate|].
  destruct i as [|i]; cbn in Hi.
  - injection Hi as ->. cbn [take]. rewrite visible_count_cons.
    unfold visible_count. cbn. destruct (layer_visible ld); lia.
  - cbn [take]. rewrite !visible_count_cons. destruct (IH i Hi).
    destruct (layer_visible ld), (layer_visible ld0); lia.
Qed.

(** The whole loop over the layers: the layers are appended in order,
    each with the group the class counter had when it was built, and the
    two dictionaries are those of [names_from]. *)
Lemma Map_init_layers_spec data lds ls0 tls0 ogs0 g0 ls tls ogs g1 :
  foldM (Map_init_layer data) lds (ls0, tls0, ogs0, g0) = Ok (ls, tls, ogs, g1) ->
  g1 = g0 + visible_count lds /\
  tls = names_from is_tilelayer (length ls0) lds tls0 /\
  ogs = names_from is_objectgroup (length ls0) lds ogs0 /\
  length ls = (length ls0 + length lds)%nat /\
  (forall j, (j < length ls0)%nat -> ls !! j = ls0 !! j) /\
  (forall i ld, lds !! i = Some ld ->
     exists L, ls !! (length ls0 + i)%nat = Some L /\
               Layer_base L = fst (BaseLayer_init ld (g0 + visible_count (take i lds))) /\
               (is_tilelayer ld = true -> exists t, L = LTile t) /\
               (is_tilelayer ld = false -> exists g, L = LObject g)).
Proof.
  revert ls0 tls0 ogs0 g0. induction lds as [|ld lds IH]; intros ls0 tls0 ogs0 g0; cbn [foldM].
  - intros [= <- <- <- <-]. unfold visible_count. cbn.
    repeat split; try lia; auto. intros i ld Hi. destruct i; discriminate.
  - destruct (Map_init_layer data (ls0, tls0, ogs0, g0) ld) as [st1|] eqn:E;
      cbn [rbind]; [|discriminate].
    destruct (Map_init_layer_spec _ _ _ _ _ _ _ E) as (L & -> & HL & Ht & Ho).
    intros Hf. destruct (IH _ _ _ _ Hf) as (Hg & Htls & Hogs & Hlen & Hpre & Hat).
    rewrite length_app in Hlen, Htls, Hogs, Hpre, Hat. cbn [length] in Hlen, Htls, Hogs, Hpre, Hat.
    replace (length ls0 + 1)%nat with (S (length ls0)) in Htls, Hogs by lia.
    destruct (BaseLayer_init_spec ld g0) as (_ & _ & _ & Hsnd).
    split; [rewrite Hg, Hsnd, visible_count_cons; destruct (layer_visible ld); lia|].
    split; [exact Htls|]. split; [exact Hogs|]. split; [cbn [length]; lia|]. split.
    + intros j Hj. rewrite Hpre by lia. apply lookup_app_l. exact Hj.
    + intros [|i] ld' Hi; cbn in Hi.
      * injection Hi as <-. exists L. rewrite Nat.add_0_r, Hpre by lia.
        rewrite lookup_app_r, Nat.sub_diag by lia.
        split; [reflexivity|]. cbn [take]. unfold visible_count at 1. cbn.
        rewrite Z.add_0_r. auto.
      * destruct (Hat i ld' Hi) as (L' & Hlk & Hb & Ht' & Ho').
        exists L'. replace (length ls0 + S i)%nat with (length ls0 + 1 + i)%nat by lia.
        split; [exact Hlk|]. cbn [take]. rewrite visible_count_cons.
        rewrite Hsnd in Hb. rewrite Z.add_assoc. auto.
Qed.

Lemma Map_init_layers res groups data m groups' :
  Map_init res groups data = Ok (m, groups') ->
  mdata m = data /\
  foldM (Map_init_layer data) (map_layers data) ([], ∅, ∅, groups)
    = Ok (layers m, tilelayers m, objectgroups m, groups').
Proof.
  unfold Map_init.
  destruct (Map_init_tilesets res data) as [tss|]; cbn [rbind]; [|discriminate].
  destruct (foldM (Map_init_layer data) _ _) as [[[[ls tls] ogs] g']|]; cbn [rbind];
    [|discriminate].
  destruct (foldM Map_index_tileset _ _) as [[ti oi]|]; cbn [rbind]; [|discriminate].
  intros [= <- <-]. cbn. auto.
Qed.

(** X9: the constructor keeps the layers in the order of the description
    and gives every visible layer the next value of the class counter
    (an invisible layer gets neither a group nor a pool), so the groups of
    the map grow with the position of the layer and none of them exceeds
    [last_group] afterwards. *)
Theorem Map_init_groups (res : Resources) (g0 g1 : Z) (data : MapData) (m : Map) :
  Map_init res g0 data = Ok (m, g1) ->
  g1 = g0 + visible_count (map_layers data) /\
  length (layers m) = length (map_layers data) /\
  forall i ld, map_layers data !! i = Some ld ->
    exists L,
      layers m !! i = Some L /\ Layer_data L = ld /\
      layer_sprites (Layer_base L) = (if layer_visible ld then Some ∅ else None) /\
      layer_group (Layer_base L) =
        (if layer_visible ld
         then Some (g0 + visible_count (take i (map_layers data)))
         else None) /\
      (forall v, layer_group (Layer_base L) = Some v -> g0 <= v <= last_group g1).
Proof.
  intros Hinit. apply Map_init_layers in Hinit as [_ Hf].
  destruct (Map_init_layers_spec _ _ _ _ _ _ _ _ _ _ Hf) as (Hg & _ & _ & Hlen & _ & Hat).
  split; [exact Hg|]. split; [exact Hlen|].
  intros i ld Hi. destruct (Hat i ld Hi) as (L & Hlk & Hb & _).
  destruct (BaseLayer_init_spec ld (g0 + visible_count (take i (map_layers data))))
    as (Hd & Hgr & Hsp & _).
  exists L. split; [exact Hlk|].
  assert (HLd : Layer_data L = layer_data (Layer_base L)) by (destruct L; reflexivity).
  rewrite HLd, Hb. split; [exact Hd|]. split; [exact Hsp|]. split; [exact Hgr|].
  intros v Hv. rewrite Hgr in Hv. destruct (visible_count_take i _ ld Hi) as [H0 H1].
  unfold last_group. destruct (layer_visible ld); [|discriminate].
  injection Hv as <-. lia.
Qed.

Lemma Map_init_groups_witness :
  exists m g1 L,
    Map_init Sample.images 5 Sample.world10 = Ok (m, g1) /\ g1 = 7 /\
    layers m !! 1%nat = Some L /\ layer_group (Layer_base L) = Some 6.
Proof.
  destruct (Map_init Sample.images 5 Sample.world10) as [[m g1]|] eqn:E;
    [|vm_compute in E; discriminate].
  destruct (Map_init_groups _ _ _ _ _ E) as (Hg & _ & Hat).
  destruct (Hat 1%nat (Sample.object_layer "things" [Sample.tile_object 2 40 40]) eq_refl)
    as (L & Hlk & _ & _ & Hgr & _).
  exists m, g1, L. split; [reflexivity|]. split; [rewrite Hg; reflexivity|].
  split; [exact Hlk|]. rewrite Hgr. reflexivity.
Defined.

(** ** The name dictionaries *)

Lemma names_untouched kind k lds d n :
  (forall ld, ld ∈ lds -> kind ld = true -> layer_name ld <> n) ->
  names_from kind k lds d !! n = d !! n.
Proof.
  revert k d. induction lds as [|ld lds IH]; intros k d Hno; cbn [names_from]; [reflexivity|].
  rewrite IH by (intros ld' Hld'; apply Hno; right; exact Hld').
  destruct (kind ld) eqn:Hk; [|reflexivity].
  apply lookup_insert_ne. apply Hno; [left|exact Hk].
Qed.

Lemma names_written kind k lds d i ld :
  lds !! i = Some ld -> kind ld = true ->
  (forall j ld', (i < j)%nat -> lds !! j = Some ld' -> kind ld' = true ->
                 layer_name ld' <> layer_name ld) ->
  names_from kind k lds d !! layer_name ld = Some (k + i)%nat.
Proof.
  revert k d i. induction lds as [|ld0 lds IH]; intros k d i Hi Hk Hlast;
    [destruct i; discriminate|].
  cbn [names_from]. destruct i as [|i]; cbn in Hi.
  - injection Hi as ->. rewrite Hk, names_untouched.
    + rewrite lookup_insert_eq. f_equal. lia.
    + intros ld' Hld' Hk'. apply list_elem_of_lookup in Hld' as [j Hj].
      apply (Hlast (S j) ld'); [lia|exact Hj|exact Hk'].
  - rewrite (IH (S k) _ i Hi Hk).
    + f_equal. lia.
    + intros j ld' Hj Hlk. apply (Hlast (S j) ld'); [lia|exact Hlk].
Qed.

Lemma names_origin kind k lds d n j :
  names_from kind k lds d !! n = Some j ->
  d !! n = Some j \/
  exists i ld, j = (k + i)%nat /\ lds !! i = Some ld /\ kind ld = true /\ layer_name ld = n.
Proof.
  revert k d. induction lds as [|ld lds IH]; intros k d; cbn [names_from]; [auto|].
  intros Hlk. destruct (IH _ _ Hlk) as [Hd|(i & ld' & -> & Hi & Hk & Hn)].
  - destruct (kind ld) eqn:Hk; [|auto].
    destruct (decide (layer_name ld = n)) as [Hn|Hn].
    + right. exists 0%nat, ld. rewrite <- Hn, lookup_insert_eq in Hd.
      injection Hd as <-. repeat split; auto; lia.
    + left. rewrite lookup_insert_ne in Hd by exact Hn. exact Hd.
  - right. exists (S i), ld'. repeat split; auto; lia.
Qed.

Lemma is_tilelayer_true ld : is_tilelayer ld = true <-> layer_type ld = "tilelayer"%string.
Proof. unfold is_tilelayer. apply String.eqb_eq. Qed.

Lemma is_objectgroup_true ld :
  is_objectgroup ld = true <-> layer_type ld = "objectgroup"%string.
Proof.
  unfold is_objectgroup, is_tilelayer. split.
  - intros [_ H]%andb_true_iff. apply String.eqb_eq, H.
  - intros ->. reflexivity.
Qed.

(** X10: a name of [tilelayers] refers to a tile layer of that name, and
    the name of a tile layer refers to that layer unless a later tile
    layer has the same name; the same holds of [objectgroups] and the
    object groups. *)
Theorem Map_init_names (res : Resources) (g0 g1 : Z) (data : MapData) (m : Map) :
  Map_init res g0 data = Ok (m, g1) ->
  (forall i ld,
      map_layers data !! i = Some ld -> layer_type ld = "tilelayer"%string ->
      (forall j ld', (i < j)%nat -> map_layers data !! j = Some ld' ->
                     layer_type ld' = "tilelayer"%string -> layer_name ld' <> layer_name ld) ->
      tilelayers m !! layer_name ld = Some i /\
      exists t, layers m !! i = Some (LTile t) /\ layer_data t = ld) /\
  (forall n i,
      tilelayers m !! n = Some i ->
      exists t, layers m !! i = Some (LTile t) /\ layer_name (layer_data t) = n) /\
  (forall i ld,
      map_layers data !! i = Some ld -> layer_type ld = "objectgroup"%string ->
      (forall j ld', (i < j)%nat -> map_layers data !! j = Some ld' ->
                     layer_type ld' = "objectgroup"%string -> layer_name ld' <> layer_name ld) ->
      objectgroups m !! layer_name ld = Some i /\
      exists g, layers m !! i = Some (LObject g) /\ layer_data (og_base g) = ld) /\
  (forall n i,
      objectgroups m !! n = Some i ->
      exists g, layers m !! i = Some (LObject g) /\ layer_name (layer_data (og_base g)) = n).
Proof.
  intros Hinit. apply Map_init_layers in Hinit as [_ Hf].
  destruct (Map_init_layers_spec _ _ _ _ _ _ _ _ _ _ Hf) as (_ & Htls & Hogs & _ & _ & Hat).
  cbn [length] in Htls, Hogs.
  assert (Htile : forall i ld, map_layers data !! i = Some ld -> is_tilelayer ld = true ->
            exists t, layers m !! i = Some (LTile t) /\ layer_data t = ld).
  { intros i ld Hi Hk. destruct (Hat i ld Hi) as (L & Hlk & Hb & Ht & _).
    destruct (Ht Hk) as [t ->]. exists t. split; [exact Hlk|].
    cbn in Hb. rewrite Hb. apply BaseLayer_init_spec. }
  assert (Hobj : forall i ld, map_layers data !! i = Some ld -> is_objectgroup ld = true ->
            exists g, layers m !! i = Some (LObject g) /\ layer_data (og_base g) = ld).
  { intros i ld Hi Hk. destruct (Hat i ld Hi) as (L & Hlk & Hb & _ & Ho).
    destruct Ho as [g ->].
    { unfold is_objectgroup in Hk. destruct (is_tilelayer ld); [discriminate|reflexivity]. }
    exists g. split; [exact Hlk|]. cbn in Hb. rewrite Hb. apply BaseLayer_init_spec. }
  split; [|split; [|split]].
  - intros i ld Hi Hty Hlast. split; [|apply Htile; [exact Hi|apply is_tilelayer_true, Hty]].
    rewrite Htls. rewrite (names_written is_tilelayer 0 _ ∅ i ld Hi); [reflexivity| |].
    + apply is_tilelayer_true, Hty.
    + intros j ld' Hj Hlk Hk. apply (Hlast j ld' Hj Hlk), is_tilelayer_true, Hk.
  - intros n i Hlk. rewrite Htls in Hlk.
    apply names_origin in Hlk as [Hlk|(i' & ld & -> & Hi & Hk & <-)].
    + rewrite lookup_empty in Hlk. discriminate.
    + destruct (Htile i' ld Hi Hk) as (t & Ht & <-). eauto.
  - intros i ld Hi Hty Hlast. split; [|apply Hobj; [exact Hi|apply is_objectgroup_true, Hty]].
    rewrite Hogs. rewrite (names_written is_objectgroup 0 _ ∅ i ld Hi); [reflexivity| |].
    + apply is_objectgroup_true, Hty.
    + intros j ld' Hj Hlk Hk. apply (Hlast j ld' Hj Hlk), is_objectgroup_true, Hk.
  - intros n i Hlk. rewrite Hogs in Hlk.
    apply names_origin in Hlk as [Hlk|(i' & ld & -> & Hi & Hk & <-)].
    + rewrite lookup_empty in Hlk. discriminate.
    + destruct (Hobj i' ld Hi Hk) as (g & Hg & <-). eauto.
Qed.

Lemma Map_init_names_witness :
  exists m t g,
    Sample.load Sample.world10 = Some m /\
    tilelayers m !! "ground"%string = Some 0%nat /\ layers m !! 0%nat = Some (LTile t) /\
    objectgroups m !! "things"%string = Some 1%nat /\ layers m !! 1%nat = Some (LObject g).
Proof.
  destruct (Map_init Sample.images 0 Sample.world10) as [[m g1]|] eqn:E;
    [|vm_compute in E; discriminate].
  destruct (Map_init_names _ _ _ _ _ E) as (Htl & _ & Hog & _).
  destruct (Htl 0%nat (Sample.tile_layer "ground" (repeat 1 100)) eq_refl eq_refl)
    as (Hn & t & Ht & _).
  { intros [|[|[|j]]] ld' Hj Hlk Hty; try lia; cbn in Hlk; try discriminate.
    injection Hlk as <-. discriminate. }
  destruct (Hog 1%nat (Sample.object_layer "things" [Sample.tile_object 2 40 40])
              eq_refl eq_refl) as (Hn' & g & Hg & _).
  { intros [|[|[|j]]] ld' Hj Hlk Hty; try lia; cbn in Hlk; discriminate. }
  exists m, t, g. unfold Sample.load. rewrite E. repeat split; assumption.
Defined.

(** ** Fatal errors of the constructor *)

(** X11: a tileset whose image is unknown to the resource loader, a layer
    whose type is neither ["tilelayer"] nor ["objectgroup"], and an object
    group without an ["objects"] entry each make the constructor raise:
    no map is built. *)
Theorem Map_init_fatal (res : Resources) (groups : Z) (data : MapData) :
  (forall tsd, tsd ∈ map_tilesets data -> res (basename (ts_image tsd)) = None ->
     exists e, Map_init res groups data = Raise e) /\
  (forall ld, ld ∈ map_layers data ->
     layer_type ld <> "tilelayer"%string -> layer_type ld <> "objectgroup"%string ->
     exists e, Map_init res groups data = Raise e) /\
  (forall ld, ld ∈ map_layers data ->
     layer_type ld = "objectgroup"%string -> layer_objects ld = None ->
     exists e, Map_init res groups data = Raise e).
Proof.
  assert (Hlayers : forall ld, ld ∈ map_layers data ->
            (forall st, is_ok (Map_init_layer data st ld) = false) ->
            exists e, Map_init res groups data = Raise e).
  { intros ld Hin Hbad. unfold Map_init.
    destruct (Map_init_tilesets res data); cbn [rbind]; [|eauto].
    pose proof (foldM_raises (Map_init_layer data) _ ([], ∅, ∅, groups) ld Hin Hbad) as Hf.
    destruct (foldM (Map_init_layer data) _ _); [discriminate|]. cbn [rbind]. eauto. }
  split; [|split].
  - intros tsd Hin Hres.
    assert (Hts : is_ok (Map_init_tilesets res data) = false).
    { unfold Map_init_tilesets. apply (foldM_raises _ _ _ tsd Hin). intros d.
      unfold Tileset_init, get_texture_sequence. rewrite Hres.
      destruct (calculate_columns (ts_imagewidth tsd) _ _ _); cbn [rbind]; [|reflexivity].
      destruct (calculate_columns (ts_imageheight tsd) _ _ _); reflexivity. }
    unfold Map_init. destruct (Map_init_tilesets res data); [discriminate|].
    cbn [rbind]. eauto.
  - intros ld Hin Ht Ho. apply (Hlayers ld Hin). intros [[[ls tls] ogs] g].
    unfold Map_init_layer. rewrite in_pair_false.
    destruct (String.eqb_spec (layer_type ld) "tilelayer"); [contradiction|].
    destruct (String.eqb_spec (layer_type ld) "objectgroup"); [contradiction|]. reflexivity.
  - intros ld Hin Ht Ho. apply (Hlayers ld Hin). intros [[[ls tls] ogs] g].
    unfold Map_init_layer. rewrite in_pair_false, Ht. cbn.
    unfold ObjectGroup_init. destruct (BaseLayer_init ld g). rewrite Ho. reflexivity.
Qed.

Lemma Map_init_fatal_witness :
  exists e, Map_init Sample.images 0 Sample.with_image_layer = Raise e.
Proof.
  destruct (Map_init_fatal Sample.images 0 Sample.with_image_layer) as (_ & Hty & _).
  apply (Hty {| layer_name := "sky"; layer_type := "imagelayer";
                layer_visible := true; layer_tiles := None; layer_objects := None |}).
  - right. left.
  - discriminate.
  - discriminate.
Defined.

(** ** Object groups: membership and order *)

Lemma index_append_nonempty `{Countable K} (key : K) (o : Obj) (idx : gmap K (list Obj)) :
  (forall k l, idx !! k = Some l -> l <> []) ->
  forall k l, index_append key o idx !! k = Some l -> l <> [].
Proof.
  intros Hidx k l. unfold index_append. destruct (decide (key = k)) as [->|Hk].
  - rewrite lookup_insert_eq. intros [= <-]. destruct (default [] (idx !! k)); discriminate.
  - rewrite lookup_insert_ne by exact Hk. apply Hidx.
Qed.

Lemma ObjectGroup_index_objects_nonempty md objs g0 g :
  foldM (ObjectGroup_index_object md) objs g0 = Ok g ->
  (forall k l, og_xy_index g0 !! k = Some l -> l <> []) ->
  forall k l, og_xy_index g !! k = Some l -> l <> [].
Proof.
  revert g0. induction objs as [|o objs IH]; intros g0; cbn [foldM].
  - intros [= <-]. auto.
  - destruct (ObjectGroup_index_object md g0 o) as [g1|] eqn:E; cbn [rbind]; [|discriminate].
    intros Hf Hidx. apply (IH g1 Hf).
    unfold ObjectGroup_index_object in E.
    destruct (floordiv _ (map_tilewidth md)); cbn [rbind] in E; [|discriminate].
    destruct (floordiv _ (map_tileheight md)); cbn [rbind] in E; [|discriminate].
    injection E as <-. cbn. apply index_append_nonempty, Hidx.
Qed.

(** X12: on a group built by the constructor, [key in group] holds
    exactly when [group[key]] returns, for names and for coordinates, and
    otherwise [group[key]] is a [KeyError]. *)
Theorem ObjectGroup_contains_getitem (md : MapData) (ld : LayerData) (g0 g1 : Z)
    (g : ObjectGroup) (k : ObjKey) :
  ObjectGroup_init md ld g0 = Ok (g, g1) ->
  (ObjectGroup_contains g k = true <-> exists v, ObjectGroup_getitem g k = Ok v) /\
  (ObjectGroup_contains g k = false -> ObjectGroup_getitem g k = Raise KeyError).
Proof.
  intros Hinit.
  assert (Hne : forall c l, og_xy_index g !! c = Some l -> l <> []).
  { unfold ObjectGroup_init in Hinit. destruct (BaseLayer_init ld g0) as [base g'].
    destruct (layer_objects ld) as [objs|]; cbn [getkey rbind] in Hinit; [|discriminate].
    destruct (foldM _ objs _) as [g2|] eqn:E; cbn [rbind] in Hinit; [|discriminate].
    injection Hinit as <- <-. cbn.
    apply (ObjectGroup_index_objects_nonempty _ _ _ _ E).
    intros c l. cbn. rewrite lookup_empty. discriminate. }
  destruct k as [x y|name]; unfold ObjectGroup_contains, ObjectGroup_getitem.
  - destruct (og_xy_index g !! (py_int x, py_int y)) as [l|] eqn:Hlk; cbn [getkey rbind].
    + destruct l as [|o l]; [exfalso; eapply Hne; eauto|].
      rewrite bool_decide_eq_true_2 by eauto.
      split; [|discriminate]. split; [|reflexivity].
      intros _. exists (FoundOne o). reflexivity.
    + rewrite bool_decide_eq_false_2 by (intros [? [=]]).
      split; [|reflexivity]. split; [discriminate|intros [v [=]]].
  - destruct (og_index g !! name) as [l|] eqn:Hlk; cbn [getkey rbind].
    + rewrite bool_decide_eq_true_2 by eauto.
      split; [|discriminate]. split; [eauto|reflexivity].
    + rewrite bool_decide_eq_false_2 by (intros [? [=]]).
      split; [|reflexivity]. split; [discriminate|intros [v [=]]].
Qed.

Lemma ObjectGroup_contains_getitem_witness :
  exists g g1,
    ObjectGroup_init Sample.grid32 (Sample.object_layer "objects" Sample.two_a) 0 = Ok (g, g1) /\
    ObjectGroup_contains g (ByCoordinate 1 (-1)) = true /\
    ObjectGroup_getitem g (ByName "b") = Raise KeyError.
Proof.
  destruct (ObjectGroup_init Sample.grid32 (Sample.object_layer "objects" Sample.two_a) 0)
    as [[g g1]|] eqn:E; [|vm_compute in E; discriminate].
  exists g, g1. split; [reflexivity|]. split.
  - apply (ObjectGroup_contains_getitem _ _ _ _ _ (ByCoordinate 1 (-1)) E).
    vm_compute in E. injection E as <- <-. eexists. vm_compute. reflexivity.
  - apply (ObjectGroup_contains_getitem _ _ _ _ _ (ByName "b") E).
    vm_compute in E. injection E as <- <-. vm_compute. reflexivity.
Defined.

Lemma filter_none {A} (P : A -> Prop) `{forall x, Decision (P x)} (l : list A) :
  Forall (fun x => ~ P x) l -> filter P l = [].
Proof.
  induction 1 as [|x l Hx Hl IH]; [reflexivity|].
  rewrite filter_cons_False by exact Hx. exact IH.
Qed.

Section sort_by.
Context {A : Type} (key : A -> Z).

Let le (a b : A) : Prop := key a <= key b.

Lemma insert_by_perm a l : insert_by key a l ≡ₚ a :: l.
Proof.
  induction l as [|b l IH]; cbn; [reflexivity|].
  destruct (key a <? key b); [reflexivity|].
  rewrite IH. apply Permutation_swap.
Qed.

Lemma insert_by_sorted a l :
  StronglySorted le l -> StronglySorted le (insert_by key a l).
Proof.
  induction 1 as [|b l Hs IH Hall]; cbn.
  - repeat constructor.
  - destruct (Z.ltb_spec (key a) (key b)).
    + constructor; [constructor; assumption|].
      constructor; [unfold le; lia|].
      eapply Forall_impl; [exact Hall|]. unfold le. intros c Hc. cbn in Hc. lia.
    + constructor; [exact IH|].
      rewrite insert_by_perm. constructor; [unfold le; lia|exact Hall].
Qed.

Lemma insert_by_filter a l v :
  StronglySorted le l ->
  filter (fun o => key o = v) (insert_by key a l) =
    filter (fun o => key o = v) l ++ (if decide (key a = v) then [a] else []).
Proof.
  induction 1 as [|b l Hs IH Hall]; cbn [insert_by].
  - rewrite filter_cons, !filter_nil. destruct (decide (key a = v)); reflexivity.
  - destruct (Z.ltb_spec (key a) (key b)).
    + rewrite (filter_cons _ a). destruct (decide (key a = v)) as [Hv|Hv].
      * assert (Hnil : filter (fun o => key o = v) (b :: l) = []).
        { apply filter_none, Forall_cons. split; [lia|].
          eapply Forall_impl; [exact Hall|]. unfold le. intros c Hc. cbn in Hc |- *. lia. }
        rewrite Hnil. reflexivity.
      * rewrite app_nil_r. reflexivity.
    + rewrite !(filter_cons _ b), IH. destruct (decide (key b = v)); reflexivity.
Qed.

Lemma fold_insert_by l acc :
  StronglySorted le acc ->
  fold_left (fun acc a => insert_by key a acc) l acc ≡ₚ acc ++ l /\
  StronglySorted le (fold_left (fun acc a => insert_by key a acc) l acc) /\
  forall v, filter (fun o => key o = v) (fold_left (fun acc a => insert_by key a acc) l acc)
            = filter (fun o => key o = v) acc ++ filter (fun o => key o = v) l.
Proof.
  revert acc. induction l as [|a l IH]; intros acc Hacc; cbn [fold_left].
  - rewrite app_nil_r. split; [reflexivity|]. split; [exact Hacc|].
    intros v. rewrite filter_nil, app_nil_r. reflexivity.
  - destruct (IH (insert_by key a acc) (insert_by_sorted a acc Hacc)) as (Hp & Hs & Hf).
    split; [|split; [exact Hs|]].
    + rewrite Hp, insert_by_perm. rewrite <- Permutation_middle. reflexivity.
    + intros v. rewrite Hf, insert_by_filter by exact Hacc.
      rewrite (filter_cons _ a), <- app_assoc.
      destruct (decide (key a = v)); reflexivity.
Qed.

(** [sort_by] is a stable sort. *)
Lemma sort_by_stable l :
  sort_by key l ≡ₚ l /\ StronglySorted le (sort_by key l) /\
  forall v, filter (fun o => key o = v) (sort_by key l) = filter (fun o => key o = v) l.
Proof.
  unfold sort_by. destruct (fold_insert_by l [] (SSorted_nil le)) as (Hp & Hs & Hf).
  split; [exact Hp|]. split; [exact Hs|]. intros v. rewrite Hf. reflexivity.
Qed.
End sort_by.

(** X13: the objects a group iterates over are the objects of the
    description sorted by [x + y*width]: the same objects, in
    non-decreasing order of the key, objects of equal key in the order of
    the description. *)
Theorem ObjectGroup_objects_sorted (md : MapData) (ld : LayerData) (g0 g1 : Z)
    (g : ObjectGroup) (objs : list Obj) :
  ObjectGroup_init md ld g0 = Ok (g, g1) ->
  layer_objects ld = Some objs ->
  og_objects g ≡ₚ objs /\
  StronglySorted (fun a b => Obj_sort_key md a <= Obj_sort_key md b) (og_objects g) /\
  forall v, filter (fun o => Obj_sort_key md o = v) (og_objects g)
            = filter (fun o => Obj_sort_key md o = v) objs.
Proof.
  intros Hinit Hobjs. unfold ObjectGroup_init in Hinit.
  destruct (BaseLayer_init ld g0) as [base g']. rewrite Hobjs in Hinit.
  cbn [getkey rbind] in Hinit.
  destruct (foldM _ objs _) as [g2|] eqn:E; cbn [rbind] in Hinit; [|discriminate].
  injection Hinit as <- <-. cbn [og_objects].
  apply ObjectGroup_index_objects_base in E as [_ Ho]. rewrite Ho. cbn [og_objects app].
  apply (sort_by_stable (Obj_sort_key md)).
Qed.

Lemma ObjectGroup_objects_sorted_witness :
  exists g g1,
    ObjectGroup_init Sample.grid32 (Sample.object_layer "objects" Sample.shuffled) 0
      = Ok (g, g1) /\
    og_objects g ≡ₚ Sample.shuffled /\
    filter (fun o => Obj_sort_key Sample.grid32 o = 4) (og_objects g)
      = [Sample.named "c" 2 1; Sample.named "b" 0 2].
Proof.
  destruct (ObjectGroup_init Sample.grid32 (Sample.object_layer "objects" Sample.shuffled) 0)
    as [[g g1]|] eqn:E; [|vm_compute in E; discriminate].
  destruct (ObjectGroup_objects_sorted _ _ _ _ _ Sample.shuffled E eq_refl) as (Hp & _ & Hf).
  exists g, g1. split; [reflexivity|]. split; [exact Hp|]. rewrite Hf. reflexivity.
Defined.

(** ** [TileLayer.set_viewport], continued *)

Lemma tile_entry_data m (l1 l2 : TileLayer) h g c o :
  layer_data l1 = layer_data l2 -> tile_entry m l1 h g c o -> tile_entry m l2 h g c o.
Proof.
  intros Hd. unfold tile_entry, TileLayer_getitem. destruct c as [px py].
  rewrite Hd. auto.
Qed.

(** One round of the inner loop, with what it stores. *)
Lemma TileLayer_visit_entry m h px py in_use (l : TileLayer) b P g :
  layer_sprites l = Some P -> layer_group l = Some g ->
  (is_Some (P !! (px, py)) ->
     TileLayer_visit m h px py (in_use, l, b) = (in_use ∪ {[(px, py)]}, l, b, Ok tt)) /\
  (P !! (px, py) = None ->
     exists o b',
       TileLayer_visit m h px py (in_use, l, b)
         = (in_use ∪ {[(px, py)]}, with_sprites l (<[(px, py) := o]> P), b', Ok tt) /\
       tile_entry m l h g (px, py) o).
Proof.
  intros HP Hg. unfold TileLayer_visit. rewrite HP. split.
  - intros Hin. rewrite bool_decide_eq_true_2 by exact Hin. reflexivity.
  - intros Hnone. rewrite bool_decide_eq_false_2 by (rewrite Hnone; intros [? [=]]).
    unfold tile_entry.
    destruct (do gid <- TileLayer_getitem (mdata m) l (px, py); get_texture m gid)
      as [texture|e] eqn:E.
    + rewrite Hg. cbn. eexists _, _. split; [reflexivity|].
      eexists. repeat split.
    + exists None, b. split; [|reflexivity].
      destruct (tile_lookup_raises _ _ _ _ E) as [-> | ->]; reflexivity.
Qed.

(** Coordinates that all have an entry already: the loops change nothing
    but the set of coordinates in use. *)
Lemma TileLayer_visit_cells_present m h tw th cells in_use (l : TileLayer) b P g :
  layer_sprites l = Some P -> layer_group l = Some g ->
  (forall c, c ∈ cells -> is_Some (P !! cell_coordinate tw th c)) ->
  for_each (fun c st => Some (TileLayer_visit m h (snd c / tw) (fst c / th) st))
           cells (in_use, l, b)
    = Some (in_use ∪ list_to_set (cell_coordinate tw th <$> cells), l, b, Ok tt).
Proof.
  intros HP Hg. revert in_use. induction cells as [|c cells IH]; intros in_use Hall.
  - cbn [for_each]. rewrite fmap_nil, list_to_set_nil, union_empty_r_L. reflexivity.
  - cbn [for_each].
    destruct (TileLayer_visit_entry m h (snd c / tw) (fst c / th) in_use l b P g HP Hg)
      as [Hin _].
    rewrite Hin by (apply (Hall c); left).
    rewrite IH by (intros c' Hc'; apply Hall; right; exact Hc').
    rewrite fmap_cons, list_to_set_cons, (assoc_L (∪)). reflexivity.
Qed.

(** The entries the loops add are those [tile_entry] describes. *)
Lemma TileLayer_visit_cells_entries m h tw th cells in_use (l : TileLayer) b P g st' r :
  tw = map_tilewidth (mdata m) -> th = map_tileheight (mdata m) ->
  layer_sprites l = Some P -> layer_group l = Some g ->
  for_each (fun c st => Some (TileLayer_visit m h (snd c / tw) (fst c / th) st))
           cells (in_use, l, b) = Some (st', r) ->
  exists P', layer_sprites (snd (fst st')) = Some P' /\
    forall c o, P !! c = None -> P' !! c = Some o -> tile_entry m l h g c o.
Proof.
  intros -> ->. revert in_use l b P st' r.
  induction cells as [|c0 cells IH]; intros in_use l b P st' r HP Hg.
  - cbn [for_each]. intros [= <- <-]. exists P. split; [exact HP|]. congruence.
  - cbn [for_each].
    set (px := snd c0 / map_tilewidth (mdata m)).
    set (py := fst c0 / map_tileheight (mdata m)).
    destruct (TileLayer_visit_entry m h px py in_use l b P g HP Hg) as [Hin Hnew].
    destruct (P !! (px, py)) as [o0|] eqn:Hlk.
    + rewrite Hin by eauto. apply IH; assumption.
    + destruct (Hnew eq_refl) as (o & b1 & -> & Hentry). intros Hrest.
      lazy beta iota in Hrest.
      set (l1 := with_sprites l (<[(px, py) := o]> P)) in *.
      destruct (TileLayer_visit_cells m h (map_tilewidth (mdata m)) (map_tileheight (mdata m))
                  cells (in_use ∪ {[(px, py)]}) l1 b1 (<[(px, py) := o]> P) g
                  eq_refl Hg) as (l2 & b2 & P2 & E2 & _ & _ & HP2 & _ & Hag2).
      destruct (IH _ l1 b1 (<[(px, py) := o]> P) st' r eq_refl Hg Hrest) as (P' & HP' & Hent').
      exists P'. split; [exact HP'|].
      pose proof (eq_trans (eq_sym Hrest) E2) as Heq. injection Heq as -> ->. cbn in HP'.
      assert (P' = P2) as -> by congruence.
      intros c o' Hc Ho'. destruct (decide (c = (px, py))) as [->|Hne].
      * rewrite Hag2 in Ho' by (rewrite lookup_insert_eq; eauto).
        rewrite lookup_insert_eq in Ho'. injection Ho' as <-. exact Hentry.
      * apply (tile_entry_data m l1 l); [reflexivity|].
        apply Hent'; [|exact Ho']. rewrite lookup_insert_ne by congruence. exact Hc.
Qed.

(** The call on a visible layer, with everything the statements below
    need of it. *)
Lemma TileLayer_set_viewport_core (m : Map) (l : TileLayer) (b : Batch)
    (x y w h : Z) (P : pool) (g : Z) :
  0 < map_tilewidth (mdata m) -> 0 < map_tileheight (mdata m) ->
  layer_sprites l = Some P -> layer_group l = Some g ->
  exists l' b' P',
    TileLayer_set_viewport m x y w h (l, b) = Some (l', b', Ok tt) /\
    layer_data l' = layer_data l /\ layer_group l' = Some g /\
    layer_sprites l' = Some P' /\
    (forall c, is_Some (P' !! c) <->
               stepped x y w h (map_tilewidth (mdata m)) (map_tileheight (mdata m)) c) /\
    (forall c o, P !! c = Some o -> is_Some (P' !! c) -> P' !! c = Some o) /\
    (forall c o, P !! c = None -> P' !! c = Some o -> tile_entry m l h g c o).
Proof.
  intros Htw Hth HP Hg. unfold TileLayer_set_viewport.
  rewrite (TileLayer_loops_cells m x y w h (∅, l, b) Htw Hth).
  set (tw := map_tilewidth (mdata m)) in *.
  set (th := map_tileheight (mdata m)) in *.
  set (cells := viewport_cells _ _).
  destruct (TileLayer_visit_cells m h tw th cells ∅ l b P g HP Hg)
    as (l1 & b1 & P1 & E1 & Hd1 & Hg1 & HP1 & Hdom1 & Hag1).
  destruct (TileLayer_visit_cells_entries m h tw th cells ∅ l b P g _ _
              eq_refl eq_refl HP Hg E1) as (P1' & HP1' & Hent).
  cbn in HP1'. assert (P1' = P1) as -> by congruence.
  rewrite E1, HP1. clear E1.
  set (C := list_to_set (cell_coordinate tw th <$> cells) : gset (Z * Z)) in *.
  assert (HC : forall c, c ∈ C <-> stepped x y w h tw th c).
  { intros c. apply elem_of_stepped; assumption. }
  assert (Hkeys : forall k, k ∈ unused_keys P1 (∅ ∪ C) <-> is_Some (P1 !! k) /\ k ∉ C).
  { intros k. unfold unused_keys.
    rewrite elem_of_elements, elem_of_difference, elem_of_dom, union_empty_l_L.
    reflexivity. }
  destruct (TileLayer_evict_all (unused_keys P1 (∅ ∪ C)) l1 b1 P1 HP1)
    as (l2 & b2 & P2 & E2 & Hd2 & Hg2 & HP2 & Hlk & _ & _).
  { apply NoDup_elements. }
  { intros k Hk. apply Hkeys in Hk. tauto. }
  exists l2, b2, P2. split; [exact E2|]. split; [congruence|]. split; [congruence|].
  split; [exact HP2|].
  assert (Hin1 : forall c, is_Some (P1 !! c) <-> is_Some (P !! c) \/ c ∈ C).
  { intros c. rewrite <- !elem_of_dom, Hdom1, elem_of_union. reflexivity. }
  assert (Hsome : forall c, is_Some (P2 !! c) -> P2 !! c = P1 !! c).
  { intros c. rewrite Hlk. destruct (decide (c ∈ unused_keys P1 (∅ ∪ C))); [|reflexivity].
    intros [? [=]]. }
  split; [|split].
  - intros c. rewrite <- HC, Hlk.
    destruct (decide (c ∈ unused_keys P1 (∅ ∪ C))) as [Hk|Hk].
    + apply Hkeys in Hk as [_ Hk]. split; [intros [? [=]]|contradiction].
    + rewrite Hkeys in Hk. rewrite Hin1. split.
      * intros Hs. destruct (decide (c ∈ C)) as [|Hc]; [assumption|].
        exfalso. apply Hk. split; [apply Hin1, Hs|exact Hc].
      * auto.
  - intros c o Hc Hs. rewrite (Hsome c Hs), Hag1 by (rewrite Hc; eauto). exact Hc.
  - intros c o Hc Ho. apply (Hent c o Hc). rewrite <- Hsome by (rewrite Ho; eauto). exact Ho.
Qed.

(** X14: on a visible tile layer a second [set_viewport] with the same
    rectangle finds every coordinate in the pool: it creates no sprite,
    deletes none and leaves the layer as the first call left it. *)
Theorem TileLayer_set_viewport_twice (m : Map) (l l' : TileLayer) (b b' : Batch)
    (x y w h : Z) (r : result unit) :
  0 < map_tilewidth (mdata m) -> 0 < map_tileheight (mdata m) ->
  is_Some (layer_sprites l) -> is_Some (layer_group l) ->
  TileLayer_set_viewport m x y w h (l, b) = Some (l', b', r) ->
  r = Ok tt /\ TileLayer_set_viewport m x y w h (l', b') = Some (l', b', Ok tt).
Proof.
  intros Htw Hth [P HP] [g Hg] Hcall.
  destruct (TileLayer_set_viewport_core m l b x y w h P g Htw Hth HP Hg)
    as (l1 & b1 & P1 & E1 & Hd1 & Hg1 & HP1 & Hdom1 & _).
  rewrite E1 in Hcall. injection Hcall as <- <- <-. split; [reflexivity|].
  unfold TileLayer_set_viewport.
  rewrite (TileLayer_loops_cells m x y w h (∅, l1, b1) Htw Hth).
  set (tw := map_tilewidth (mdata m)) in *.
  set (th := map_tileheight (mdata m)) in *.
  set (cells := viewport_cells _ _).
  assert (HC : forall c, c ∈ (list_to_set (cell_coordinate tw th <$> cells) : gset (Z * Z))
                         <-> is_Some (P1 !! c)).
  { intros c. rewrite Hdom1. apply elem_of_stepped; assumption. }
  rewrite (TileLayer_visit_cells_present m h tw th cells ∅ l1 b1 P1 g HP1 Hg1).
  - rewrite HP1. unfold unused_keys.
    replace (dom P1 ∖ (∅ ∪ list_to_set (cell_coordinate tw th <$> cells))) with (∅ : gset (Z * Z)).
    + rewrite elements_empty. reflexivity.
    + symmetry. apply set_eq. intros c.
      rewrite elem_of_difference, elem_of_dom, union_empty_l_L, HC.
      split; [tauto|intros Hc; inversion Hc].
  - intros c Hc. apply HC, elem_of_list_to_set, list_elem_of_fmap. eauto.
Qed.

Lemma TileLayer_set_viewport_twice_witness :
  exists m l l' b',
    Sample.load Sample.world10 = Some m /\ Sample.tile_layer_at m 0 = Some l /\
    TileLayer_set_viewport m 8 8 64 64 (l, []) = Some (l', b', Ok tt) /\
    length b' = 25%nat /\
    TileLayer_set_viewport m 8 8 64 64 (l', b') = Some (l', b', Ok tt).
Proof.
  destruct (Sample.load Sample.world10) as [m|] eqn:E; [|exfalso; eval_in E].
  destruct (Sample.tile_layer_at m 0) as [l|] eqn:El; [|exfalso; eval_in E; eval_in El].
  destruct (TileLayer_set_viewport m 8 8 64 64 (l, [])) as [[[l' b'] r]|] eqn:Ec;
    [|exfalso; eval_in E; eval_in El; eval_in Ec].
  assert (Hmd : mdata m = Sample.world10) by (clear -E; eval_in E; reflexivity).
  destruct (TileLayer_set_viewport_twice m l l' [] b' 8 8 64 64 r) as [-> Hagain].
  - rewrite Hmd. reflexivity.
  - rewrite Hmd. reflexivity.
  - clear -E El. eval_in E. eval_in El. eexists. reflexivity.
  - clear -E El. eval_in E. eval_in El. eexists. reflexivity.
  - exact Ec.
  - exists m, l, l', b'. repeat split; try assumption.
    clear -E El Ec. eval_in E. eval_in El. vm_compute in Ec. injection Ec as <- <-.
    reflexivity.
Defined.

(** X15: a coordinate of the new rectangle that had no entry gets one:
    when its tile and the texture of its gid are found, a sprite of that
    texture at [(px*tw, h - py*th - th)] in the group of the layer;
    [None] when the flat index is out of range or the gid has no
    texture. *)
Theorem TileLayer_set_viewport_entries (m : Map) (l : TileLayer) (b : Batch)
    (x y w h : Z) (P : pool) (g : Z) :
  0 < map_tilewidth (mdata m) -> 0 < map_tileheight (mdata m) ->
  layer_sprites l = Some P -> layer_group l = Some g ->
  exists l' b' P',
    TileLayer_set_viewport m x y w h (l, b) = Some (l', b', Ok tt) /\
    layer_sprites l' = Some P' /\
    forall px py,
      stepped x y w h (map_tilewidth (mdata m)) (map_tileheight (mdata m)) (px, py) ->
      P !! (px, py) = None ->
      (forall gid tex,
          TileLayer_getitem (mdata m) l (px, py) = Ok gid -> get_texture m gid = Ok tex ->
          exists s, P' !! (px, py) = Some (Some s) /\ sprite_texture s = tex /\
                    sprite_x s = px * map_tilewidth (mdata m) /\
                    sprite_y s = h - py * map_tileheight (mdata m) - map_tileheight (mdata m) /\
                    sprite_group s = g) /\
      ((exists e, TileLayer_getitem (mdata m) l (px, py) = Raise e) \/
       (exists gid e, TileLayer_getitem (mdata m) l (px, py) = Ok gid /\
                      get_texture m gid = Raise e) ->
       P' !! (px, py) = Some None).
Proof.
  intros Htw Hth HP Hg.
  destruct (TileLayer_set_viewport_core m l b x y w h P g Htw Hth HP Hg)
    as (l' & b' & P' & E & _ & _ & HP' & Hdom & _ & Hnew).
  exists l', b', P'. split; [exact E|]. split; [exact HP'|].
  intros px py Hst Hnone.
  destruct (proj2 (Hdom (px, py)) Hst) as [o Ho].
  pose proof (Hnew (px, py) o Hnone Ho) as Hentry. unfold tile_entry in Hentry.
  split.
  - intros gid tex Hgid Htex. rewrite Hgid in Hentry. cbn [rbind] in Hentry.
    rewrite Htex in Hentry. destruct Hentry as (s & -> & Hs). exists s. auto.
  - intros [[e He]|(gid & e & Hgid & He)].
    + rewrite He in Hentry. cbn [rbind] in Hentry. congruence.
    + rewrite Hgid in Hentry. cbn [rbind] in Hentry. rewrite He in Hentry. congruence.
Qed.

Lemma TileLayer_set_viewport_entries_witness :
  exists m l l' b' P' s,
    Sample.load Sample.world10 = Some m /\ Sample.tile_layer_at m 0 = Some l /\
    TileLayer_set_viewport m 0 0 32 32 (l, []) = Some (l', b', Ok tt) /\
    layer_sprites l' = Some P' /\
    P' !! (2, 1) = Some (Some s) /\ sprite_x s = 32 /\ sprite_y s = 0.
Proof.
  destruct (Sample.load Sample.world10) as [m|] eqn:E; [|exfalso; eval_in E].
  destruct (Sample.tile_layer_at m 0) as [l|] eqn:El; [|exfalso; eval_in E; eval_in El].
  assert (Hmd : mdata m = Sample.world10) by (clear -E; eval_in E; reflexivity).
  destruct (TileLayer_set_viewport_entries m l [] 0 0 32 32 ∅ 0)
    as (l' & b' & P' & Ec & HP' & Hent).
  - rewrite Hmd. reflexivity.
  - rewrite Hmd. reflexivity.
  - clear -E El. eval_in E. eval_in El. reflexivity.
  - clear -E El. eval_in E. eval_in El. reflexivity.
  - rewrite Hmd in Hent. cbn [Sample.world10 map_tilewidth map_tileheight] in Hent.
    destruct (Hent 2 1) as [Hsprite _].
    { exists 2, 1. repeat split; try lia; reflexivity. }
    { apply lookup_empty. }
    destruct (get_texture m 1) as [tex|] eqn:Etex;
      [|exfalso; clear -E Etex; eval_in E; eval_in Etex].
    destruct (Hsprite 1 tex) as (s & Hs & _ & Hx & Hy & _).
    { clear -E El. eval_in E. eval_in El. reflexivity. }
    { exact Etex. }
    exists m, l, l', b', P', s. repeat split; try assumption.
Defined.

(** X16: [TileLayer.set_viewport] on an invisible layer, which has no
    pool, ends with an [AttributeError] and changes neither the layer nor
    the batch. *)
Theorem TileLayer_set_viewport_invisible (m : Map) (l : TileLayer) (b : Batch)
    (x y w h : Z) :
  0 < map_tilewidth (mdata m) -> 0 < map_tileheight (mdata m) ->
  layer_sprites l = None ->
  TileLayer_set_viewport m x y w h (l, b) = Some (l, b, Raise AttributeError).
Proof.
  intros Htw Hth HP. unfold TileLayer_set_viewport.
  rewrite (TileLayer_loops_cells m x y w h (∅, l, b) Htw Hth).
  destruct (viewport_cells _ _) as [|c cells]; cbn [for_each].
  - rewrite HP. reflexivity.
  - unfold TileLayer_visit. rewrite HP. reflexivity.
Qed.

Lemma TileLayer_set_viewport_invisible_witness :
  exists m,
    Sample.load Sample.world10 = Some m /\
    TileLayer_set_viewport m 0 0 32 32
      ({| layer_data := Sample.tile_layer "hidden" []; layer_sprites := None;
          layer_group := None |}, [])
    = Some ({| layer_data := Sample.tile_layer "hidden" []; layer_sprites := None;
               layer_group := None |}, [], Raise AttributeError).
Proof.
  destruct (Sample.load Sample.world10) as [m|] eqn:E; [|exfalso; eval_in E].
  assert (Hmd : mdata m = Sample.world10) by (clear -E; eval_in E; reflexivity).
  exists m. split; [reflexivity|].
  apply TileLayer_set_viewport_invisible; [rewrite Hmd; reflexivity..|reflexivity].
Defined.

(** ** [ObjectGroup.set_viewport], continued *)

Lemma creations_new b s : creations (b ++ [SpriteNew s]) = S (creations b).
Proof. unfold creations. rewrite List.filter_app, length_app. cbn. lia. Qed.

Lemma creations_delete b s : creations (b ++ [SpriteDelete s]) = creations b.
Proof. unfold creations. rewrite List.filter_app, length_app. cbn. lia. Qed.

(** One round of the loop over the objects of a visible group. *)
Lemma ObjectGroup_visit_spec m x y w h obj in_use g b P grp :
  layer_sprites (og_base g) = Some P -> layer_group (og_base g) = Some grp ->
  match shown_gid m x y w h obj with
  | None => ObjectGroup_visit m x y w h obj (in_use, g, b) = Some (in_use, g, b, Ok tt)
  | Some gid =>
      exists o b',
        ObjectGroup_visit m x y w h obj (in_use, g, b)
          = Some (in_use ∪ {[(obj_x obj, obj_y obj)]},
                  with_base g (with_sprites (og_base g)
                                 (<[(obj_x obj, obj_y obj) := o]> P)),
                  b', Ok tt) /\
        match get_texture m gid with
        | Ok texture =>
            exists s, o = Some s /\ b' = b ++ [SpriteNew s] /\
                      sprite_texture s = texture /\
                      sprite_x s = obj_x obj + fst (get_tileoffset m gid) /\
                      sprite_y s = og_h g - obj_y obj + snd (get_tileoffset m gid) /\
                      sprite_group s = grp
        | Raise _ => o = None /\ b' = b
        end
  end.
Proof.
  intros HP Hg. unfold shown_gid, ObjectGroup_visit.
  destruct (_ && _); [|reflexivity].
  destruct (obj_visible obj); cbn [negb]; [|reflexivity].
  destruct (truthy_gid obj) as [gid|]; [|reflexivity].
  rewrite HP, Hg. unfold get_texture.
  destruct (texture_index m !! gid) as [texture|]; cbn [getkey].
  - cbn. eexists _, _. split; [reflexivity|]. eexists. repeat split.
  - exists None, b. split; [reflexivity|split; reflexivity].
Qed.

Lemma shown_at_cons m x y w h o objs c :
  shown_at m x y w h (o :: objs) c <->
  (is_Some (shown_gid m x y w h o) /\ c = (obj_x o, obj_y o)) \/ shown_at m x y w h objs c.
Proof.
  unfold shown_at. split.
  - intros (o' & [->|Hin]%elem_of_cons & Hs & Hc); [left; auto|right; eauto].
  - intros [[Hs Hc]|(o' & Hin & Hs & Hc)].
    + exists o. split; [left|auto].
    + exists o'. split; [right; exact Hin|auto].
Qed.

(** The loop over the objects of a visible group: the drawn coordinates
    are recorded and (re)written, the rest of the pool is as it was, one
    sprite is created per textured object and none is deleted. *)
Lemma ObjectGroup_visit_all m x y w h objs in_use g b P grp :
  layer_sprites (og_base g) = Some P -> layer_group (og_base g) = Some grp ->
  exists in_use' g' b' P',
    for_each (ObjectGroup_visit m x y w h) objs (in_use, g, b)
      = Some (in_use', g', b', Ok tt) /\
    (forall c, c ∈ in_use' <-> c ∈ in_use \/ shown_at m x y w h objs c) /\
    og_static g' = og_static g /\ og_h g' = og_h g /\
    layer_sprites (og_base g') = Some P' /\
    (forall c, is_Some (P' !! c) <-> is_Some (P !! c) \/ shown_at m x y w h objs c) /\
    (forall c, ~ shown_at m x y w h objs c -> P' !! c = P !! c) /\
    creations b' = (creations b + length (List.filter (textured m x y w h) objs))%nat /\
    (forall s, SpriteDelete s ∈ b' -> SpriteDelete s ∈ b).
Proof.
  revert in_use g b P. induction objs as [|obj objs IH]; intros in_use g b P HP Hg.
  - exists in_use, g, b, P. cbn [for_each List.filter length].
    assert (Hno : forall c, ~ shown_at m x y w h [] c)
      by (intros c (o & Hin & _); inversion Hin).
    repeat split; auto; try tauto; try lia.
    + intros [|Hc]; [assumption|]. exfalso. eapply Hno; eauto.
    + intros [|Hc]; [assumption|]. exfalso. eapply Hno; eauto.
  - cbn [for_each List.filter].
    pose proof (ObjectGroup_visit_spec m x y w h obj in_use g b P grp HP Hg) as Hv.
    unfold textured at 1.
    destruct (shown_gid m x y w h obj) as [gid|] eqn:Hs.
    + destruct Hv as (o & b1 & -> & Hnew).
      set (c0 := (obj_x obj, obj_y obj)) in *.
      destruct (IH (in_use ∪ {[c0]}) (with_base g (with_sprites (og_base g) (<[c0 := o]> P)))
                  b1 (<[c0 := o]> P) eq_refl Hg)
        as (iu & g' & b' & P' & E & Hiu & Hst & Hh & HP' & Hdom & Hkeep & Hcr & Hdel).
      exists iu, g', b', P'. split; [exact E|].
      assert (Hb1 : creations b1 = (creations b + (if is_ok (get_texture m gid) then 1 else 0))%nat
                    /\ forall s, SpriteDelete s ∈ b1 -> SpriteDelete s ∈ b).
      { destruct (get_texture m gid).
        - destruct Hnew as (s & _ & -> & _). rewrite creations_new. split; [cbn; lia|].
          intros s' [Hin|Hin]%elem_of_app; [exact Hin|].
          apply list_elem_of_singleton in Hin. discriminate.
        - destruct Hnew as [_ ->]. split; [cbn; lia|auto]. }
      destruct Hb1 as [Hb1 Hd1].
      split; [|split; [exact Hst|split; [exact Hh|split; [exact HP'|split; [|split; [|split]]]]]].
      * intros c. rewrite Hiu, shown_at_cons, Hs, elem_of_union, elem_of_singleton.
        unfold c0. split; [intros [[|]|]|intros [|[[_ ->]|]]]; eauto.
      * intros c. rewrite Hdom, shown_at_cons, Hs.
        destruct (decide (c = c0)) as [->|Hne].
        -- rewrite lookup_insert_eq. unfold c0. split; eauto.
        -- rewrite lookup_insert_ne by congruence. unfold c0 in Hne.
           split; [intros [|]|intros [|[[_ ->]|]]]; auto; contradiction.
      * intros c Hc. rewrite shown_at_cons, Hs in Hc.
        rewrite Hkeep by tauto. apply lookup_insert_ne. unfold c0. intros <-.
        apply Hc. left. eauto.
      * rewrite Hcr, Hb1. destruct (is_ok (get_texture m gid)); cbn [length]; lia.
      * intros s Hin. apply Hd1, Hdel, Hin.
    + rewrite Hv.
      destruct (IH in_use g b P HP Hg)
        as (iu & g' & b' & P' & E & Hiu & Hst & Hh & HP' & Hdom & Hkeep & Hcr & Hdel).
      exists iu, g', b', P'. split; [exact E|].
      assert (Hsh : forall c, shown_at m x y w h (obj :: objs) c <-> shown_at m x y w h objs c).
      { intros c. rewrite shown_at_cons, Hs. split; [intros [[[? [=]] _]|]|]; auto. }
      split; [intros c; rewrite Hiu, Hsh; reflexivity|].
      split; [exact Hst|]. split; [exact Hh|]. split; [exact HP'|].
      split; [intros c; rewrite Hdom, Hsh; reflexivity|].
      split; [intros c Hc; apply Hkeep; rewrite <- Hsh; exact Hc|].
      split; [exact Hcr|exact Hdel].
Qed.

(** The removal pass of an object group. *)
Lemma ObjectGroup_evict_all keys g b P :
  layer_sprites (og_base g) = Some P -> NoDup keys ->
  (forall k, k ∈ keys -> is_Some (P !! k)) ->
  exists g' b' r,
    for_each ObjectGroup_evict keys (g, b) = Some (g', b', r) /\
    creations b' = creations b /\
    (forall s, SpriteDelete s ∈ b' ->
               SpriteDelete s ∈ b \/ exists k, k ∈ keys /\ P !! k = Some (Some s)) /\
    og_static g' = og_static g /\ og_h g' = og_h g /\
    ((forall k, k ∈ keys -> P !! k <> Some None) ->
       r = Ok tt /\
       exists P', layer_sprites (og_base g') = Some P' /\
                  forall k, P' !! k = if decide (k ∈ keys) then None else P !! k) /\
    ((exists k, k ∈ keys /\ P !! k = Some None) -> r = Raise AttributeError).
Proof.
  revert g b P. induction keys as [|key keys IH]; intros g b P HP Hnd Hin.
  - exists g, b, (Ok tt). cbn [for_each]. split; [reflexivity|]. split; [reflexivity|].
    split; [auto|]. split; [reflexivity|]. split; [reflexivity|]. split.
    + intros _. split; [reflexivity|]. exists P. split; [exact HP|].
      intros k. rewrite decide_False; [reflexivity|]. intros Hk. inversion Hk.
    + intros (k & Hk & _). inversion Hk.
  - apply NoDup_cons in Hnd as [Hnotin Hnd].
    destruct (Hin key ltac:(left)) as [o Ho].
    cbn [for_each]. unfold ObjectGroup_evict at 1. rewrite HP, Ho.
    destruct o as [s0|].
    + set (g1 := with_base g (with_sprites (og_base g) (delete key P))).
      destruct (IH g1 (Sprite_delete b s0) (delete key P) eq_refl Hnd)
        as (g' & b' & r & E & Hcr & Hdel & Hst & Hh & Hok & Hraise).
      { intros k Hk. rewrite lookup_delete_ne by (intros <-; contradiction).
        apply Hin. right. exact Hk. }
      assert (Hrest : forall k, k ∈ keys -> delete key P !! k = P !! k).
      { intros k Hk. apply lookup_delete_ne. intros <-. contradiction. }
      exists g', b', r. split; [exact E|].
      split; [rewrite Hcr; apply creations_delete|].
      split; [|split; [exact Hst|split; [exact Hh|split]]].
      * intros s Hs. destruct (Hdel s Hs) as [Hb|(k & Hk & Hlk)].
        -- unfold Sprite_delete in Hb. apply elem_of_app in Hb as [Hb|Hb]; [left; exact Hb|].
           apply list_elem_of_singleton in Hb. injection Hb as ->.
           right. exists key. split; [left|exact Ho].
        -- right. exists k. split; [right; exact Hk|]. rewrite <- Hrest by exact Hk. exact Hlk.
      * intros Hnone. destruct Hok as (-> & P' & HP' & Hlk).
        { intros k Hk. rewrite Hrest by exact Hk. apply Hnone. right. exact Hk. }
        split; [reflexivity|]. exists P'. split; [exact HP'|].
        intros k. rewrite Hlk.
        destruct (decide (k ∈ key :: keys)) as [Hk1|Hk1], (decide (k ∈ keys)) as [Hk2|Hk2];
          try reflexivity.
        -- apply elem_of_cons in Hk1 as [->|Hk1]; [|contradiction]. apply lookup_delete_eq.
        -- exfalso. apply Hk1. right. exact Hk2.
        -- apply lookup_delete_ne. intros <-. apply Hk1. left.
      * intros (k & [->|Hk]%elem_of_cons & Hlk); [congruence|].
        apply Hraise. exists k. split; [exact Hk|]. rewrite Hrest by exact Hk. exact Hlk.
    + eexists _, b, _. split; [reflexivity|]. split; [reflexivity|]. split; [auto|].
      split; [reflexivity|]. split; [reflexivity|]. split.
      * intros Hnone. exfalso. apply (Hnone key); [left|exact Ho].
      * reflexivity.
Qed.

Lemma ObjectGroup_unused_keys (m : Map) (x y w h : Z) (objs : list Obj)
    (P P1 : pool) (iu : gset (Z * Z)) :
  (forall c, c ∈ iu <-> c ∈ (∅ : gset (Z * Z)) \/ shown_at m x y w h objs c) ->
  (forall c, is_Some (P1 !! c) <-> is_Some (P !! c) \/ shown_at m x y w h objs c) ->
  forall k, k ∈ unused_keys P1 iu <-> is_Some (P !! k) /\ ~ shown_at m x y w h objs k.
Proof.
  intros Hiu Hdom k. unfold unused_keys.
  rewrite elem_of_elements, elem_of_difference, elem_of_dom, Hdom, Hiu.
  split.
  - intros [[Hk|Hk] Hno]; [|exfalso; auto]. split; [exact Hk|]. intros Hs. apply Hno. auto.
  - intros [Hk Hno]. split; [auto|]. intros [Hin|Hs]; [inversion Hin|auto].
Qed.

(** X17: on a visible object group [set_viewport] stores [h], writes an
    entry for every drawn coordinate and removes the others.  If no
    removed entry is [None] the call succeeds and the keys of the pool are
    exactly the coordinates of the drawn objects; if an entry to remove is
    [None], the call ends with an [AttributeError]. *)
Theorem ObjectGroup_set_viewport_pool (m : Map) (g : ObjectGroup) (b : Batch)
    (x y w h : Z) (P : pool) (grp : Z) :
  layer_sprites (og_base g) = Some P -> layer_group (og_base g) = Some grp ->
  ((forall c, P !! c = Some None -> shown_at m x y w h (og_objects g) c) ->
     exists g' b' P',
       ObjectGroup_set_viewport m x y w h (g, b) = Some (g', b', Ok tt) /\
       og_h g' = h /\ layer_sprites (og_base g') = Some P' /\
       forall c, is_Some (P' !! c) <-> shown_at m x y w h (og_objects g) c) /\
  ((exists c, P !! c = Some None /\ ~ shown_at m x y w h (og_objects g) c) ->
     exists g' b', ObjectGroup_set_viewport m x y w h (g, b) = Some (g', b', Raise AttributeError)).
Proof.
  intros HP Hg. unfold ObjectGroup_set_viewport.
  destruct (ObjectGroup_visit_all m x y w h (og_objects (with_h g h)) ∅ (with_h g h) b P grp
              HP Hg)
    as (iu & g1 & b1 & P1 & E1 & Hiu & Hst1 & Hh1 & HP1 & Hdom1 & Hkeep1 & _ & _).
  cbn [og_objects with_h] in Hiu, Hdom1, Hkeep1, E1. cbn [og_objects with_h].
  rewrite E1, HP1.
  pose proof (ObjectGroup_unused_keys m x y w h (og_objects g) P P1 iu Hiu Hdom1) as Hkeys.
  destruct (ObjectGroup_evict_all (unused_keys P1 iu) g1 b1 P1 HP1)
    as (g2 & b2 & r & E2 & _ & _ & Hst2 & Hh2 & Hok & Hraise).
  { apply NoDup_elements. }
  { intros k Hk. apply Hkeys in Hk as [Hk _]. apply Hdom1. auto. }
  rewrite E2. split.
  - intros Hnone. destruct Hok as (-> & P2 & HP2 & Hlk).
    { intros k Hk HkNone. apply Hkeys in Hk as [_ Hk]. apply Hk, Hnone.
      rewrite <- Hkeep1 by exact Hk. exact HkNone. }
    exists g2, b2, P2. split; [reflexivity|]. split; [rewrite Hh2, Hh1; reflexivity|].
    split; [exact HP2|]. intros c. rewrite Hlk.
    destruct (decide (c ∈ unused_keys P1 iu)) as [Hk|Hk].
    + apply Hkeys in Hk as [_ Hk]. split; [intros [? [=]]|contradiction].
    + rewrite Hkeys in Hk. rewrite Hdom1. split; [|auto].
      intros [Hs|Hs]; [|exact Hs].
      destruct (decide (c ∈ iu)) as [Hc|Hc].
      * apply Hiu in Hc as [Hc|Hc]; [inversion Hc|exact Hc].
      * exfalso. apply Hk. split; [exact Hs|]. intros Hsh. apply Hc, Hiu. auto.
  - intros (c & Hc & Hno). exists g2, b2. rewrite Hraise; [reflexivity|].
    exists c. split.
    + apply Hkeys. split; [rewrite Hc; eauto|exact Hno].
    + rewrite Hkeep1 by exact Hno. exact Hc.
Qed.

Lemma ObjectGroup_set_viewport_pool_witness :
  exists m g g' b' P',
    Sample.load Sample.world10 = Some m /\ Sample.object_group_at m 1 = Some g /\
    ObjectGroup_set_viewport m 0 0 64 64 (g, []) = Some (g', b', Ok tt) /\
    og_h g' = 64 /\ layer_sprites (og_base g') = Some P' /\ is_Some (P' !! (40, 40)).
Proof.
  destruct (Sample.load Sample.world10) as [m|] eqn:E; [|exfalso; eval_in E].
  destruct (Sample.object_group_at m 1) as [g|] eqn:Eg; [|exfalso; eval_in E; eval_in Eg].
  assert (Hg : layer_sprites (og_base g) = Some ∅ /\ layer_group (og_base g) = Some 1 /\
               og_objects g = [Sample.tile_object 2 40 40] /\ mdata m = Sample.world10).
  { clear -E Eg. eval_in E. eval_in Eg. repeat split. }
  destruct Hg as (HP & Hgrp & Hobjs & Hmd).
  destruct (ObjectGroup_set_viewport_pool m g [] 0 0 64 64 ∅ 1 HP Hgrp) as [Hok _].
  destruct Hok as (g' & b' & P' & Ec & Hh & HP' & Hkeys).
  { intros c Hc. rewrite lookup_empty in Hc. discriminate. }
  exists m, g, g', b', P'. repeat split; try assumption.
  apply Hkeys. rewrite Hobjs. exists (Sample.tile_object 2 40 40).
  split; [left|]. split; [|reflexivity].
  unfold shown_gid. rewrite Hmd. cbn. eauto.
Defined.

(** X18: every call of [set_viewport] on a visible object group creates a
    new sprite for each drawn object whose gid has a texture, whether or
    not a sprite was stored for it before, and deletes only sprites of
    coordinates that are no longer drawn: a sprite it overwrites is never
    deleted.  The objects and the indices stay as they were. *)
Theorem ObjectGroup_set_viewport_creates (m : Map) (g g' : ObjectGroup) (b b' : Batch)
    (x y w h : Z) (P : pool) (r : result unit) :
  layer_sprites (og_base g) = Some P -> is_Some (layer_group (og_base g)) ->
  ObjectGroup_set_viewport m x y w h (g, b) = Some (g', b', r) ->
  creations b' = (creations b + length (List.filter (textured m x y w h) (og_objects g)))%nat /\
  (forall s, SpriteDelete s ∈ b' ->
     SpriteDelete s ∈ b \/
     exists c, P !! c = Some (Some s) /\ ~ shown_at m x y w h (og_objects g) c) /\
  og_static g' = og_static g.
Proof.
  intros HP [grp Hg]. unfold ObjectGroup_set_viewport.
  destruct (ObjectGroup_visit_all m x y w h (og_objects (with_h g h)) ∅ (with_h g h) b P grp
              HP Hg)
    as (iu & g1 & b1 & P1 & E1 & Hiu & Hst1 & Hh1 & HP1 & Hdom1 & Hkeep1 & Hcr1 & Hdel1).
  cbn [og_objects with_h] in Hiu, Hdom1, Hkeep1, E1, Hcr1. cbn [og_objects with_h].
  rewrite E1, HP1.
  pose proof (ObjectGroup_unused_keys m x y w h (og_objects g) P P1 iu Hiu Hdom1) as Hkeys.
  destruct (ObjectGroup_evict_all (unused_keys P1 iu) g1 b1 P1 HP1)
    as (g2 & b2 & r2 & E2 & Hcr2 & Hdel2 & Hst2 & _).
  { apply NoDup_elements. }
  { intros k Hk. apply Hkeys in Hk as [Hk _]. apply Hdom1. auto. }
  rewrite E2. intros [= <- <- <-].
  split; [rewrite Hcr2, Hcr1; reflexivity|]. split.
  - intros s Hs. destruct (Hdel2 s Hs) as [Hb|(k & Hk & Hlk)]; [left; apply Hdel1, Hb|].
    right. exists k. apply Hkeys in Hk as [_ Hk]. split; [|exact Hk].
    rewrite <- Hkeep1 by exact Hk. exact Hlk.
  - rewrite Hst2, Hst1. reflexivity.
Qed.

Lemma ObjectGroup_set_viewport_creates_witness :
  exists m g g1 b1 g2 b2 r,
    Sample.load Sample.world10 = Some m /\ Sample.object_group_at m 1 = Some g /\
    ObjectGroup_set_viewport m 0 0 64 64 (g, []) = Some (g1, b1, Ok tt) /\
    ObjectGroup_set_viewport m 0 0 64 64 (g1, b1) = Some (g2, b2, r) /\
    creations b1 = 1%nat /\ creations b2 = 2%nat.
Proof.
  destruct (Sample.load Sample.world10) as [m|] eqn:E; [|exfalso; eval_in E].
  destruct (Sample.object_group_at m 1) as [g|] eqn:Eg; [|exfalso; eval_in E; eval_in Eg].
  destruct (ObjectGroup_set_viewport m 0 0 64 64 (g, [])) as [[[g1 b1] r1]|] eqn:E1;
    [|exfalso; eval_in E; eval_in Eg; eval_in E1].
  destruct (ObjectGroup_set_viewport m 0 0 64 64 (g1, b1)) as [[[g2 b2] r2]|] eqn:E2;
    [|exfalso; eval_in E; eval_in Eg; vm_compute in E1; injection E1 as <- <- <-; eval_in E2].
  assert (Hg : layer_sprites (og_base g) = Some ∅ /\ layer_group (og_base g) = Some 1 /\
               og_objects g = [Sample.tile_object 2 40 40] /\ r1 = Ok tt).
  { clear -E Eg E1. eval_in E. eval_in Eg. vm_compute in E1. injection E1 as <- <- <-.
    repeat split. }
  destruct Hg as (HP & Hgrp & Hobjs & ->).
  assert (Htex : length (List.filter (textured m 0 0 64 64) (og_objects g)) = 1%nat).
  { rewrite Hobjs. clear -E. eval_in E. reflexivity. }
  destruct (ObjectGroup_set_viewport_creates m g g1 [] b1 0 0 64 64 ∅ (Ok tt) HP
              ltac:(rewrite Hgrp; eauto) E1) as (Hc1 & _ & Hst1).
  assert (Hg1 : exists P1, layer_sprites (og_base g1) = Some P1).
  { clear -E Eg E1. eval_in E. eval_in Eg. vm_compute in E1. injection E1 as <- <-.
    eexists. reflexivity. }
  destruct Hg1 as [P1 HP1].
  assert (Hst1' : og_objects g1 = og_objects g /\ layer_group (og_base g1) = Some 1).
  { unfold og_static in Hst1. injection Hst1 as Ho _ _ Hgr. split; congruence. }
  destruct Hst1' as [Ho1 Hgr1].
  destruct (ObjectGroup_set_viewport_creates m g1 g2 b1 b2 0 0 64 64 P1 r2 HP1
              ltac:(rewrite Hgr1; eauto) E2) as (Hc2 & _ & _).
  exists m, g, g1, b1, g2, b2, r2. repeat split; try assumption.
  - rewrite Hc1, Htex. reflexivity.
  - rewrite Hc2, Hc1, Ho1, Htex. reflexivity.
Defined.

(** ** [Map.set_viewport], continued *)

Lemma yrange_loop_inv {St} (I : St -> Prop) (body : Z -> St -> outcome St)
    fuel f t s st st' r :
  (forall v s0 s' r', I s0 -> body v s0 = Some (s', r') -> I s') ->
  I st -> yrange_loop fuel f t s body st = Some (st', r) -> I st'.
Proof.
  intros Hb. revert f st. induction fuel as [|fuel IH]; intros f st HI; cbn; [discriminate|].
  destruct (f <? t); [|intros [= <- <-]; exact HI].
  destruct (body f st) as [[s1 [[]|e]]|] eqn:E; try discriminate.
  - apply IH. eapply Hb; eauto.
  - intros [= <- <-]. eapply Hb; eauto.
Qed.

Lemma TileLayer_visit_data m h px py st :
  layer_data (snd (fst (fst (TileLayer_visit m h px py st)))) = layer_data (snd (fst st)) /\
  layer_group (snd (fst (fst (TileLayer_visit m h px py st)))) = layer_group (snd (fst st)).
Proof.
  destruct st as [[iu l] b]. unfold TileLayer_visit.
  repeat case_match; simplify_eq; cbn; auto.
Qed.

Lemma TileLayer_evict_data key st st' r :
  TileLayer_evict key st = Some (st', r) ->
  layer_data (fst st') = layer_data (fst st) /\ layer_group (fst st') = layer_group (fst st).
Proof.
  destruct st as [l b]. unfold TileLayer_evict. intros E.
  repeat case_match; simplify_eq; cbn; auto.
Qed.

(** Whatever its outcome, a call on a tile layer keeps the description
    and the group of the layer. *)
Lemma TileLayer_set_viewport_data m x y w h (l l' : TileLayer) b b' r :
  TileLayer_set_viewport m x y w h (l, b) = Some (l', b', r) ->
  layer_data l' = layer_data l /\ layer_group l' = layer_group l.
Proof.
  unfold TileLayer_set_viewport.
  destruct (for_yrange _ _ _ _ _) as [[[[iu l1] b1] r1]|] eqn:E1; [|discriminate].
  pose (I := fun st : gset (Z * Z) * TileLayer * Batch =>
               layer_data (snd (fst st)) = layer_data l /\
               layer_group (snd (fst st)) = layer_group l).
  assert (H1 : I (iu, l1, b1)).
  { unfold for_yrange in E1. apply (yrange_loop_inv I) in E1; [exact E1| |split; reflexivity].
    intros j s0 s' r' Hs0. destruct (floordiv j _) as [py|e]; [|intros [= <- <-]; exact Hs0].
    unfold for_yrange. apply (yrange_loop_inv I); [|exact Hs0].
    intros i s1 s2 r2 Hs1. destruct (floordiv i _) as [px|e]; [|intros [= <- <-]; exact Hs1].
    intros [= Hv]. unfold I in *.
    destruct (TileLayer_visit_data m h px py s1) as [Hd Hg]. rewrite Hv in Hd, Hg.
    cbn in Hd, Hg. destruct Hs1 as [Hd1 Hg1]. split; congruence. }
  unfold I in H1. cbn in H1.
  destruct r1 as [[]|e]; [|intros [= <- <- <-]; exact H1].
  destruct (layer_sprites l1); [|intros [= <- <- <-]; exact H1].
  intros E2.
  apply (for_each_inv (fun st => layer_data (fst st) = layer_data l /\
                                 layer_group (fst st) = layer_group l)) in E2;
    [exact E2| |exact H1].
  intros k s0 s' r' [Hd Hg] Hev. apply TileLayer_evict_data in Hev as [Hd' Hg'].
  split; [exact (eq_trans Hd' Hd)|exact (eq_trans Hg' Hg)].
Qed.

Lemma ObjectGroup_visit_static m x y w h obj st st' r :
  ObjectGroup_visit m x y w h obj st = Some (st', r) ->
  og_static (snd (fst st')) = og_static (snd (fst st)).
Proof.
  destruct st as [[iu g] b]. unfold ObjectGroup_visit. intros E.
  repeat case_match; simplify_eq; reflexivity.
Qed.

Lemma ObjectGroup_evict_static key st st' r :
  ObjectGroup_evict key st = Some (st', r) -> og_static (fst st') = og_static (fst st).
Proof.
  destruct st as [g b]. unfold ObjectGroup_evict. intros E.
  repeat case_match; simplify_eq; reflexivity.
Qed.

Lemma ObjectGroup_set_viewport_static m x y w h g b g' b' r :
  ObjectGroup_set_viewport m x y w h (g, b) = Some (g', b', r) ->
  og_static g' = og_static g.
Proof.
  unfold ObjectGroup_set_viewport.
  destruct (for_each _ _ _) as [[[[iu g1] b1] r1]|] eqn:E1; [|discriminate].
  apply (for_each_inv (fun s => og_static (snd (fst s)) = og_static g)) in E1;
    [|intros a s s' r' Hs Hv; rewrite <- Hs; eapply ObjectGroup_visit_static; eauto
     |reflexivity].
  cbn in E1. destruct r1 as [[]|e]; [|intros [= <- <- <-]; exact E1].
  destruct (layer_sprites (og_base g1)); [|intros [= <- <- <-]; exact E1].
  intros E2.
  apply (for_each_inv (fun s => og_static (fst s) = og_static g)) in E2; [exact E2| |exact E1].
  intros a s s' r' Hs Hv. rewrite <- Hs. eapply ObjectGroup_evict_static; eauto.
Qed.

Lemma keeps_refl m : keeps m m.
Proof. split; [reflexivity|]. split; [reflexivity|]. intros j L HL. eauto. Qed.

Lemma keeps_trans m0 m1 m2 : keeps m0 m1 -> keeps m1 m2 -> keeps m0 m2.
Proof.
  intros (Hs1 & Hl1 & Hat1) (Hs2 & Hl2 & Hat2).
  split; [congruence|]. split; [congruence|].
  intros j L HL. destruct (Hat1 j L HL) as (L1 & HL1 & Hd1 & Hi1).
  destruct (Hat2 j L1 HL1) as (L2 & HL2 & Hd2 & Hi2).
  exists L2. split; [exact HL2|]. split; [congruence|].
  intros Hv. rewrite Hi2 by (rewrite Hd1; exact Hv). apply Hi1, Hv.
Qed.

Lemma keeps_with_layer m i L L' b :
  layers m !! i = Some L -> Layer_data L' = Layer_data L ->
  layer_visible (Layer_data L) = true ->
  keeps m (with_layer m i L' b).
Proof.
  intros HL Hd Hv. split; [reflexivity|]. cbn [layers with_layer].
  split; [apply length_insert|].
  intros j Lj HLj. destruct (decide (i = j)) as [<-|Hne].
  - exists L'. rewrite list_lookup_insert_eq by (eapply lookup_lt_Some; eauto).
    assert (Lj = L) as -> by congruence.
    split; [reflexivity|]. split; [exact Hd|]. congruence.
  - exists Lj. rewrite list_lookup_insert_ne by exact Hne. auto.
Qed.

Lemma Map_visit_layer_keeps i m m' r :
  Map_visit_layer i m = Some (m', r) -> keeps m m'.
Proof.
  unfold Map_visit_layer.
  destruct (layers m !! i) as [L|] eqn:HL; [|intros [= <- <-]; apply keeps_refl].
  destruct (layer_visible (Layer_data L)) eqn:Hv; [|intros [= <- <-]; apply keeps_refl].
  destruct L as [l|g].
  - destruct (TileLayer_set_viewport _ _ _ _ _ _) as [[[l' b'] r']|] eqn:E; [|discriminate].
    intros [= <- <-]. apply TileLayer_set_viewport_data in E as [Hd _].
    apply (keeps_with_layer m i (LTile l)); assumption.
  - destruct (ObjectGroup_set_viewport _ _ _ _ _ _) as [[[g' b'] r']|] eqn:E; [|discriminate].
    intros [= <- <-]. apply ObjectGroup_set_viewport_static in E.
    apply (keeps_with_layer m i (LObject g)); [exact HL| |exact Hv].
    unfold og_static in E. cbn. congruence.
Qed.

(** X19: whatever its outcome, [Map.set_viewport] leaves the description,
    the tilesets, the name dictionaries, the focus, the world size and the
    gid tables as they are; it keeps the number and the order of the
    layers and the description of each, and an invisible layer is not
    touched at all. *)
Theorem Map_set_viewport_keeps (m m' : Map) (x y w h : Z) (force : bool)
    (r : result unit) :
  Map_set_viewport m x y w h force = Some (m', r) ->
  static m' = static m /\ length (layers m') = length (layers m) /\
  forall j L, layers m !! j = Some L ->
    exists L', layers m' !! j = Some L' /\ Layer_data L' = Layer_data L /\
               (layer_visible (Layer_data L) = false -> L' = L).
Proof.
  unfold Map_set_viewport. cbn zeta. case_match.
  - intros [= <- <-]. apply keeps_refl.
  - intros E.
    apply (for_each_inv (keeps m)) in E; [exact E| |].
    + intros i s s' r' Hs Hv. apply (keeps_trans m s s' Hs), (Map_visit_layer_keeps i s s' r' Hv).
    + split; [reflexivity|]. split; [reflexivity|]. intros j L HL. eauto.
Qed.

Lemma Map_set_viewport_keeps_witness :
  exists m m' r,
    Sample.load Sample.world10 = Some m /\
    Map_set_viewport m 8 8 64 64 false = Some (m', r) /\
    texture_index m' = texture_index m /\ tilelayers m' = tilelayers m /\
    length (layers m') = length (layers m).
Proof.
  destruct (Sample.load Sample.world10) as [m|] eqn:E; [|exfalso; eval_in E].
  destruct (Map_set_viewport m 8 8 64 64 false) as [[m' r]|] eqn:E1;
    [|exfalso; eval_in E; eval_in E1].
  destruct (Map_set_viewport_keeps m m' 8 8 64 64 false r E1) as (Hs & Hl & _).
  unfold static in Hs. injection Hs as _ _ Htl _ _ _ _ _ _ Hti.
  exists m, m', r. repeat split; assumption.
Defined.

(** ** [Map.set_focus] and [Map.invalidate] *)

Lemma half_bounds (w : Z) : 0 <= w -> 0 <= w / 2 <= w.
Proof.
  intros Hw. split; [apply Z.div_pos; lia|].
  apply Z.div_le_upper_bound; lia.
Qed.

Lemma Map_set_viewport_focus m x y w h force m' r :
  Map_set_viewport m x y w h force = Some (m', r) ->
  focus_x m' = focus_x m /\ focus_y m' = focus_y m.
Proof.
  intros E. apply Map_set_viewport_keeps in E as (Hs & _).
  unfold static in Hs. injection Hs as _ _ _ _ Hx Hy _ _ _ _. auto.
Qed.

(** X20: with a viewport of non-negative size, [set_focus] on a new focus
    returns, records the focus, and leaves the viewport centred on it and
    clamped to the world: its origin is
    [min(max(x - w // 2, 0), p_width - w)], and likewise for [y]; the size
    of the viewport is kept. *)
Theorem set_focus_centres (m : Map) (x y : Z) :
  0 < map_tilewidth (mdata m) -> 0 < map_tileheight (mdata m) ->
  0 <= vp_w m -> 0 <= vp_h m ->
  focus_x m <> Some x \/ focus_y m <> Some y ->
  exists m' r,
    set_focus m x y = Some (m', r) /\
    focus_x m' = Some x /\ focus_y m' = Some y /\
    vp_x m' = Z.min (Z.max (x - vp_w m / 2) 0) (p_width m - vp_w m) /\
    vp_y m' = Z.min (Z.max (y - vp_h m / 2) 0) (p_height m - vp_h m) /\
    vp_w m' = vp_w m /\ vp_h m' = vp_h m.
Proof.
  intros Htw Hth Hw Hh Hne. unfold set_focus, py_int. cbn zeta.
  assert (Hc : bool_decide (focus_x m = Some x) && bool_decide (focus_y m = Some y) = false).
  { destruct Hne as [H|H]; [rewrite (bool_decide_eq_false_2 _ H); reflexivity|].
    rewrite (bool_decide_eq_false_2 _ H). apply andb_false_r. }
  rewrite Hc. cbn [with_focus vp_w vp_h p_width p_height].
  match goal with |- context [Map_set_viewport ?m0 ?vx ?vy ?vw ?vh false] =>
    destruct (Map_set_viewport_some m0 vx vy vw vh false Htw Hth) as (m' & r & E);
    pose proof (Map_set_viewport_stored _ _ _ _ _ _ _ _ E) as (Hst & _ & _);
    pose proof (Map_set_viewport_focus _ _ _ _ _ _ _ _ E) as (Hfx & Hfy)
  end.
  exists m', r. split; [exact E|].
  cbn [with_focus focus_x focus_y] in Hfx, Hfy.
  split; [exact Hfx|]. split; [exact Hfy|].
  unfold stored, clamped, py_int in Hst. cbn [with_focus p_width p_height] in Hst.
  injection Hst as Hx Hy Hw' Hh'.
  pose proof (half_bounds _ Hw) as Hw2. pose proof (half_bounds _ Hh) as Hh2.
  repeat split; [| |exact Hw'|exact Hh'].
  - rewrite Hx. destruct (Z.ltb_spec (p_width m) (Z.max (x - vp_w m / 2) 0 + vp_w m / 2)); lia.
  - rewrite Hy. destruct (Z.ltb_spec (p_height m) (Z.max (y - vp_h m / 2) 0 + vp_h m / 2)); lia.
Qed.

Lemma set_focus_centres_witness :
  exists m m' r,
    Sample.load Sample.world10 = Some m /\
    set_focus m 100 7 = Some (m', r) /\
    focus_x m' = Some 100 /\ focus_y m' = Some 7 /\
    vp_x m' = Z.min (Z.max (100 - vp_w m / 2) 0) (p_width m - vp_w m) /\
    vp_y m' = Z.min (Z.max (7 - vp_h m / 2) 0) (p_height m - vp_h m).
Proof.
  destruct (Sample.load Sample.world10) as [m|] eqn:E; [|exfalso; eval_in E].
  assert (Htw : 0 < map_tilewidth (mdata m)) by (eval_in E; reflexivity).
  assert (Hth : 0 < map_tileheight (mdata m)) by (eval_in E; reflexivity).
  assert (Hw : 0 <= vp_w m) by (eval_in E; cbn; lia).
  assert (Hh : 0 <= vp_h m) by (eval_in E; cbn; lia).
  assert (Hne : focus_x m <> Some 100 \/ focus_y m <> Some 7)
    by (left; eval_in E; discriminate).
  destruct (set_focus_centres m 100 7 Htw Hth Hw Hh Hne)
    as (m' & r & E1 & Hfx & Hfy & Hx & Hy & _).
  exists m, m', r. repeat split; assumption.
Defined.

(** X21: a [set_focus] that has returned has recorded its point, so the
    same call again returns at once and changes nothing, whatever the
    first call did to the layers. *)
Theorem set_focus_twice (m m' : Map) (x y : Z) (r : result unit) :
  set_focus m x y = Some (m', r) ->
  focus_x m' = Some x /\ focus_y m' = Some y /\
  set_focus m' x y = Some (m', Ok tt).
Proof.
  unfold set_focus at 1. unfold py_int. cbn zeta.
  destruct (bool_decide (focus_x m = Some x) && bool_decide (focus_y m = Some y)) eqn:Hc.
  - intros [= <- <-]. apply andb_true_iff in Hc as [Hx Hy].
    apply bool_decide_eq_true_1 in Hx. apply bool_decide_eq_true_1 in Hy.
    split; [exact Hx|]. split; [exact Hy|].
    unfold set_focus, py_int. cbn zeta.
    rewrite (bool_decide_eq_true_2 _ Hx), (bool_decide_eq_true_2 _ Hy). reflexivity.
  - intros E. apply Map_set_viewport_focus in E as (Hx & Hy).
    cbn [with_focus focus_x focus_y] in Hx, Hy.
    split; [exact Hx|]. split; [exact Hy|].
    unfold set_focus, py_int. cbn zeta.
    rewrite (bool_decide_eq_true_2 _ Hx), (bool_decide_eq_true_2 _ Hy). reflexivity.
Qed.

Lemma set_focus_twice_witness :
  exists m m' r,
    Sample.load Sample.world10 = Some m /\
    set_focus m 100 7 = Some (m', r) /\
    set_focus m' 100 7 = Some (m', Ok tt).
Proof.
  destruct (Sample.load Sample.world10) as [m|] eqn:E; [|exfalso; eval_in E].
  destruct (set_focus m 100 7) as [[m' r]|] eqn:E1; [|exfalso; eval_in E; eval_in E1].
  destruct (set_focus_twice m m' 100 7 r E1) as (_ & _ & E2).
  exists m, m', r. repeat split; assumption.
Defined.

(** X22: after a [set_viewport] that has returned, [invalidate] keeps the
    stored viewport as it is (the stored values are already clamped) and
    calls every visible layer again with it. *)
Theorem invalidate_revisits (m m1 : Map) (x y w h : Z) (force : bool) (r : result unit) :
  Map_set_viewport m x y w h force = Some (m1, r) ->
  invalidate m1 = for_each Map_visit_layer (seq 0 (length (layers m1))) m1 /\
  forall m2 r2, invalidate m1 = Some (m2, r2) -> stored m2 = stored m1.
Proof.
  intros E. apply Map_set_viewport_stored in E as (Hst & Hpw & Hph).
  assert (Hcl : clamped m1 (vp_x m1) (vp_y m1) (vp_w m1) (vp_h m1) = stored m1).
  { unfold stored, clamped, py_int in *. injection Hst as Hx Hy Hw Hh.
    rewrite Hpw, Hph.
    replace (Z.min (Z.max (vp_x m1) 0) (p_width m - vp_w m1)) with (vp_x m1) by lia.
    replace (Z.min (Z.max (vp_y m1) 0) (p_height m - vp_h m1)) with (vp_y m1) by lia.
    reflexivity. }
  split.
  - unfold invalidate. rewrite Map_set_viewport_propagates by (left; reflexivity).
    rewrite Hcl. unfold stored. destruct m1; reflexivity.
  - intros m2 r2 E2. unfold invalidate in E2.
    apply Map_set_viewport_stored in E2 as (Hst2 & _). rewrite Hst2. exact Hcl.
Qed.

Lemma invalidate_revisits_witness :
  exists m m1 r,
    Sample.load Sample.world10 = Some m /\
    Map_set_viewport m 8 8 64 64 false = Some (m1, r) /\
    invalidate m1 = for_each Map_visit_layer (seq 0 (length (layers m1))) m1.
Proof.
  destruct (Sample.load Sample.world10) as [m|] eqn:E; [|exfalso; eval_in E].
  destruct (Map_set_viewport m 8 8 64 64 false) as [[m1 r]|] eqn:E1;
    [|exfalso; eval_in E; eval_in E1].
  destruct (invalidate_revisits m m1 8 8 64 64 false r E1) as (E2 & _).
  exists m, m1, r. repeat split; assumption.
Defined.

(** ** Maps of tile layers *)

Lemma for_each_ok {A St} (I : St -> Prop) (body : A -> St -> outcome St)
    (l : list A) (st : St) :
  (forall a s, a ∈ l -> I s -> exists s', body a s = Some (s', Ok tt) /\ I s') ->
  I st -> exists st', for_each body l st = Some (st', Ok tt) /\ I st'.
Proof.
  revert st. induction l as [|a l IH]; intros st Hb HI; cbn; [eauto|].
  destruct (Hb a st) as (s1 & -> & HI1); [left|exact HI|].
  apply IH; [|exact HI1].
  intros a' s Ha'. apply Hb. right. exact Ha'.
Qed.

Lemma Map_init_tile_only res g0 data m g1 :
  Map_init res g0 data = Ok (m, g1) ->
  (forall ld, ld ∈ map_layers data -> layer_type ld = "tilelayer"%string) ->
  tile_only m.
Proof.
  intros E Hall. apply Map_init_layers in E as [_ E].
  apply Map_init_layers_spec in E as (_ & _ & _ & Hlen & _ & Hat).
  cbn [length] in Hlen, Hat. intros j L HL.
  assert (Hj : (j < length (map_layers data))%nat).
  { apply lookup_lt_Some in HL. lia. }
  apply lookup_lt_is_Some_2 in Hj as [ld Hld].
  destruct (Hat j ld Hld) as (L0 & HL0 & Hbase & Ht & _).
  cbn [Nat.add] in HL0. assert (L0 = L) as -> by congruence.
  destruct Ht as [t ->].
  { unfold is_tilelayer. apply String.eqb_eq, Hall.
    eapply list_elem_of_lookup_2; eauto. }
  exists t. split; [reflexivity|]. cbn [Layer_base] in Hbase.
  destruct (BaseLayer_init_spec ld (g0 + visible_count (take j (map_layers data))))
    as (Hd & Hg & Hs & _).
  rewrite <- Hbase in Hd, Hg, Hs. rewrite Hd, Hg, Hs.
  intros ->. split; eauto.
Qed.

Lemma Map_visit_layer_tile_only (md : MapData) (n i : nat) (s : Map) :
  0 < map_tilewidth md -> 0 < map_tileheight md -> (i < n)%nat ->
  tile_only s /\ mdata s = md /\ length (layers s) = n ->
  exists s', Map_visit_layer i s = Some (s', Ok tt) /\
             tile_only s' /\ mdata s' = md /\ length (layers s') = n.
Proof.
  intros Htw Hth Hi (Hto & Hmd & Hlen). unfold Map_visit_layer.
  assert (Hlt : (i < length (layers s))%nat) by lia.
  apply lookup_lt_is_Some_2 in Hlt as [L HL]. rewrite HL.
  destruct (Hto i L HL) as (t & -> & Hvis). cbn [Layer_data].
  destruct (layer_visible (layer_data t)) eqn:Hv; [|eauto].
  destruct (Hvis eq_refl) as [[P HP] [g Hg]].
  rewrite <- Hmd in Htw, Hth.
  destruct (TileLayer_set_viewport_core s t (batch s) (vp_x s) (vp_y s) (vp_w s) (vp_h s)
              P g Htw Hth HP Hg) as (l' & b' & P' & -> & Hd & Hg' & HP' & _).
  eexists. split; [reflexivity|]. cbn [with_layer mdata layers].
  split; [|split; [exact Hmd|rewrite length_insert; exact Hlen]].
  intros j Lj HLj. cbn [with_layer layers] in HLj.
  apply list_lookup_insert_Some in HLj as [(_ & <- & _)|(_ & HLj)].
  - exists l'. split; [reflexivity|]. intros _. rewrite HP', Hg'. split; eauto.
  - exact (Hto j Lj HLj).
Qed.

Lemma Map_set_viewport_tile_only (m : Map) (x y w h : Z) (force : bool) :
  0 < map_tilewidth (mdata m) -> 0 < map_tileheight (mdata m) -> tile_only m ->
  exists m', Map_set_viewport m x y w h force = Some (m', Ok tt) /\
             tile_only m' /\ mdata m' = mdata m.
Proof.
  intros Htw Hth Hto. unfold Map_set_viewport. cbn zeta.
  case_match; [eauto|].
  match goal with |- context [for_each _ (seq 0 ?n) ?m0] =>
    destruct (for_each_ok
                (fun s => tile_only s /\ mdata s = mdata m /\ length (layers s) = n)
                Map_visit_layer (seq 0 n) m0) as (m' & E & Hto' & Hmd & _)
  end.
  - intros i s Hi. apply Map_visit_layer_tile_only; [exact Htw|exact Hth|].
    apply elem_of_seq in Hi. lia.
  - split; [exact Hto|]. split; reflexivity.
  - eauto.
Qed.

(** X23: a map built from a description all of whose layers are tile
    layers never raises in [set_viewport]: every sequence of calls, forced
    or not, returns normally, a gid without a texture or a cell outside
    the layer included. *)
Theorem tile_maps_never_raise (res : Resources) (g0 g1 : Z) (data : MapData) (m : Map)
    (calls : list (Z * Z * Z * Z * bool)) :
  Map_init res g0 data = Ok (m, g1) ->
  (forall ld, ld ∈ map_layers data -> layer_type ld = "tilelayer"%string) ->
  0 < map_tilewidth data -> 0 < map_tileheight data ->
  exists m', set_viewports calls m = Some (m', Ok tt).
Proof.
  intros E Hall Htw Hth.
  pose proof (Map_init_tile_only _ _ _ _ _ E Hall) as Hto.
  apply Map_init_layers in E as [Hmd _].
  unfold set_viewports.
  destruct (for_each_ok (fun s => tile_only s /\ mdata s = data)
              (fun (c : Z * Z * Z * Z * bool) m =>
                 let '(x, y, w, h, force) := c in Map_set_viewport m x y w h force)
              calls m) as (m' & E' & _); [| |eauto].
  - intros [[[[x y] w] h] force] s _ [Hs Hd].
    rewrite <- Hd in Htw, Hth.
    destruct (Map_set_viewport_tile_only s x y w h force Htw Hth Hs) as (s' & -> & Hs' & Hd').
    exists s'. split; [reflexivity|]. split; [exact Hs'|congruence].
  - split; [exact Hto|exact Hmd].
Qed.

Lemma tile_maps_never_raise_witness :
  exists m m',
    Sample.load Sample.fives = Some m /\
    set_viewports [(0, 0, 64, 64, false); (-40, 500, 64, 64, true)] m = Some (m', Ok tt).
Proof.
  destruct (Map_init Sample.images 0 Sample.fives) as [[m g1]|] eqn:E;
    [|exfalso; vm_compute in E; discriminate].
  assert (Hall : forall ld, ld ∈ map_layers Sample.fives ->
                            layer_type ld = "tilelayer"%string).
  { intros ld Hld. cbn in Hld. apply list_elem_of_singleton in Hld as ->. reflexivity. }
  destruct (tile_maps_never_raise Sample.images 0 g1 Sample.fives m
              [(0, 0, 64, 64, false); (-40, 500, 64, 64, true)] E Hall)
    as (m' & E'); [reflexivity|reflexivity|].
  exists m, m'. split; [|exact E'].
  unfold Sample.load. rewrite E. reflexivity.
Defined.
